(** * go-banking: the transaction application subsystem

    A shallow embedding of the Go sources of the ledger service
    (app/helpers/helpers.go, app/models, app/api/accounts.go,
    app/api/transactions.go, app/middleware, the migrations and the
    queries) together with the properties of the transaction engine.

    The handler is a function from the database to the database and the
    HTTP response; requests are served one after the other, and the
    interleaving of concurrent requests is outside the model.  Amounts and
    balances are float64, as in the Go code.

    Layout: the definitions first (float64, strconv, helpers, models, the
    validation of the body, the database, the handlers, the vocabulary of
    the properties), then the lemmas and theorems. *)

From Stdlib Require Import ZArith List String Ascii Bool Lia Sorted.
From Stdlib Require Import Floats.SpecFloat.
From stdpp Require Import gmap strings.

Open Scope string_scope.
Open Scope Z_scope.

(** ** float64

    Go's [float64] is IEEE 754 binary64.  The Standard Library's
    [SpecFloat] gives its arithmetic exactly (round to nearest, ties to
    even) on the representation sign, mantissa, exponent; every operation
    below is executable. *)
Module F64.

Definition prec : Z := 53.
Definition emax : Z := 1024.

Definition float64 : Type := spec_float.

Definition zero : float64 := S754_zero false.
Definition NaN : float64 := S754_nan.
Definition Inf (neg : bool) : float64 := S754_infinity neg.

(** conversion of an integer constant, as the Go compiler does for an
    untyped constant used at type float64 *)
Definition of_Z (z : Z) : float64 := binary_normalize prec emax z 0 false.

Definition add (x y : float64) : float64 := SFadd prec emax x y.
Definition sub (x y : float64) : float64 := SFsub prec emax x y.
Definition mul (x y : float64) : float64 := SFmul prec emax x y.
Definition div (x y : float64) : float64 := SFdiv prec emax x y.
Definition neg (x : float64) : float64 := SFopp x.

(** [x < y], [x <= y], [x != y] of Go: all comparisons with NaN are false,
    except [!=] which is true *)
Definition ltb (x y : float64) : bool := SFltb x y.
Definition leb (x y : float64) : bool := SFleb x y.
Definition neqb (x y : float64) : bool := negb (SFeqb x y).

(** [math.Round] of the Go standard library: the nearest integer, rounding
    half away from zero; NaN, the infinities and the zeros are returned
    unchanged.  For a finite [m * 2^e] with [e < 0] the bit [-e - 1] of the
    mantissa is the one half: Go adds it and clears the fraction. *)
Definition Round (x : float64) : float64 :=
  match x with
  | S754_finite s m e =>
      if 0 <=? e then x
      else
        let k := - e in
        let q := Z.shiftr (Zpos m) k in
        let q' := if Z.testbit (Zpos m) (k - 1) then q + 1 else q in
        match q' with
        | Zpos p => binary_round prec emax s p 0
        | _ => S754_zero s
        end
  | _ => x
  end.

End F64.

Abbreviation float64 := F64.float64.

(** ** strconv

    [strconv.ParseInt(s, 10, 64)] and [strconv.ParseFloat(s, 64)] of the Go
    standard library, after atoi.go and atof.go.  Strings are read byte by
    byte, as Go does. *)
Module Strconv.

Inductive NumError : Type := ErrSyntax | ErrRange.

Definition byte_of (c : ascii) : Z := Z.of_N (N_of_ascii c).

Definition is_digit (c : ascii) : bool :=
  (byte_of "0" <=? byte_of c) && (byte_of c <=? byte_of "9").

(** [lower(c) = c | ('x' - 'X')] *)
Definition lower (c : ascii) : Z := Z.lor (byte_of c) 32.

Definition is_hex_letter (c : ascii) : bool :=
  (byte_of "a" <=? lower c) && (lower c <=? byte_of "f").

Definition is_sign (c : ascii) : bool :=
  (byte_of c =? byte_of "+") || (byte_of c =? byte_of "-").

(** *** ParseInt, base 10, 64 bits *)

(** [ParseUint(s, 10, 64)]: base 10 takes no underscore and no prefix.
    The loop stops at the first byte that is not a digit (a syntax error)
    and at the first overflow of 64 bits (a range error, with the largest
    uint64). *)
Definition maxUint64 : Z := 2 ^ 64 - 1.

Fixpoint parse_uint (n : Z) (s : list ascii) : Z * option NumError :=
  match s with
  | [] => (n, None)
  | c :: s' =>
      if is_digit c then
        if maxUint64 / 10 + 1 <=? n then (maxUint64, Some ErrRange)
        else
          let n1 := n * 10 + (byte_of c - byte_of "0") in
          if maxUint64 <? n1 then (maxUint64, Some ErrRange) else parse_uint n1 s'
      else (0, Some ErrSyntax)
  end.

Definition ParseUint (s : list ascii) : Z * option NumError :=
  match s with
  | [] => (0, Some ErrSyntax)
  | _ => parse_uint 0 s
  end.

Definition ParseInt (str : string) : Z * option NumError :=
  match list_ascii_of_string str with
  | [] => (0, Some ErrSyntax)
  | c :: s' =>
      let neg := byte_of c =? byte_of "-" in
      let s := if is_sign c then s' else c :: s' in
      match ParseUint s with
      | (_, Some ErrSyntax) => (0, Some ErrSyntax)
      | (un, _) =>
          let cutoff := 2 ^ 63 in
          if negb neg && (cutoff <=? un) then (cutoff - 1, Some ErrRange)
          else if neg && (cutoff <? un) then (- cutoff, Some ErrRange)
          else (if neg then - un else un, None)
      end
  end.

(** *** ParseFloat, 64 bits *)

Fixpoint commonPrefixLenIgnoreCase (s prefix : list ascii) : nat :=
  match s, prefix with
  | c :: s', p :: prefix' =>
      let c' := if (byte_of "A" <=? byte_of c) && (byte_of c <=? byte_of "Z")
                then byte_of c + (byte_of "a" - byte_of "A") else byte_of c in
      if c' =? byte_of p then S (commonPrefixLenIgnoreCase s' prefix') else O
  | _, _ => O
  end.

Definition infinity_prefix (s : list ascii) : option nat :=
  let n := commonPrefixLenIgnoreCase s (list_ascii_of_string "infinity") in
  let n := if (3 <? n)%nat && (n <? 8)%nat then 3%nat else n in
  if (n =? 3)%nat || (n =? 8)%nat then Some n else None.

(** [special]: the value and the number of bytes read for a possibly
    signed "inf" or "infinity" and for "nan", in any case *)
Definition special (s : list ascii) : option (float64 * nat) :=
  match s with
  | [] => None
  | c :: s' =>
      if is_sign c then
        match infinity_prefix s' with
        | Some n => Some (F64.Inf (byte_of c =? byte_of "-"), S n)
        | None => None
        end
      else if lower c =? byte_of "i" then
        match infinity_prefix s with
        | Some n => Some (F64.Inf false, n)
        | None => None
        end
      else if lower c =? byte_of "n" then
        if (commonPrefixLenIgnoreCase s (list_ascii_of_string "nan") =? 3)%nat
        then Some (F64.NaN, 3%nat) else None
      else None
  end.

(** the state of the mantissa loop of [readFloat].  Go keeps the first 19
    digits (16 in base 16) and a [trunc] flag, and reads the string again
    when digits were dropped; here [mantissa] holds every digit and [nd]
    counts them, which is the number the conversion rounds. *)
Record mant_state : Type := MantState {
  mantissa : Z;
  nd : Z;
  dp : Z;
  sawdot : bool;
  sawdigits : bool;
  underscores : bool
}.

Fixpoint read_mantissa (hex : bool) (st : mant_state) (s : list ascii)
  : mant_state * list ascii :=
  match s with
  | [] => (st, [])
  | c :: s' =>
      if byte_of c =? byte_of "_" then
        read_mantissa hex
          (MantState (mantissa st) (nd st) (dp st) (sawdot st) (sawdigits st) true) s'
      else if byte_of c =? byte_of "." then
        if sawdot st then (st, s)
        else read_mantissa hex
          (MantState (mantissa st) (nd st) (nd st) true (sawdigits st) (underscores st)) s'
      else if is_digit c then
        if (byte_of c =? byte_of "0") && (nd st =? 0) then
          read_mantissa hex
            (MantState (mantissa st) (nd st) (dp st - 1) (sawdot st) true (underscores st)) s'
        else
          read_mantissa hex
            (MantState (mantissa st * (if hex then 16 else 10) + (byte_of c - byte_of "0"))
                       (nd st + 1) (dp st) (sawdot st) true (underscores st)) s'
      else if hex && is_hex_letter c then
        read_mantissa hex
          (MantState (mantissa st * 16 + (lower c - byte_of "a" + 10))
                     (nd st + 1) (dp st) (sawdot st) true (underscores st)) s'
      else (st, s)
  end.

(** the digits of the exponent: the value saturates once it is 10000 or
    more; returns the value, whether an underscore was seen, and the rest *)
Fixpoint read_exponent (e : Z) (us : bool) (s : list ascii) : Z * bool * list ascii :=
  match s with
  | [] => (e, us, [])
  | c :: s' =>
      if byte_of c =? byte_of "_" then read_exponent e true s'
      else if is_digit c then
        read_exponent (if e <? 10000 then e * 10 + (byte_of c - byte_of "0") else e) us s'
      else (e, us, s)
  end.

Inductive saw : Type := SawStart | SawDigit | SawUnderscore | SawOther.

Fixpoint underscore_loop (hex : bool) (sw : saw) (s : list ascii) : bool :=
  match s with
  | [] => match sw with SawUnderscore => false | _ => true end
  | c :: s' =>
      if is_digit c || (hex && is_hex_letter c) then underscore_loop hex SawDigit s'
      else if byte_of c =? byte_of "_" then
        match sw with
        | SawDigit => underscore_loop hex SawUnderscore s'
        | _ => false
        end
      else
        match sw with
        | SawUnderscore => false
        | _ => underscore_loop hex SawOther s'
        end
  end.

(** [underscoreOK]: underscores only between digits, or between a base
    prefix and a digit *)
Definition underscoreOK (s : list ascii) : bool :=
  let s := match s with
           | c :: s' => if is_sign c then s' else s
           | [] => s
           end in
  match s with
  | c0 :: c1 :: s' =>
      if (byte_of c0 =? byte_of "0")
         && ((lower c1 =? byte_of "b") || (lower c1 =? byte_of "o") || (lower c1 =? byte_of "x"))
      then underscore_loop (lower c1 =? byte_of "x") SawDigit s'
      else underscore_loop false SawStart s
  | _ => underscore_loop false SawStart s
  end.

(** what [readFloat] returns when it succeeds: the number read is
    [mantissa * 10^exp], or [mantissa * 2^exp] when [hex]; [rest] is the
    unread part of the string *)
Record read_float : Type := ReadFloat {
  rf_mantissa : Z;
  rf_exp : Z;
  rf_neg : bool;
  rf_hex : bool;
  rf_rest : list ascii
}.

Definition take_prefix (s rest : list ascii) : list ascii :=
  firstn (length s - length rest) s.

Definition readFloat (s : list ascii) : option read_float :=
  match s with
  | [] => None
  | c :: _ =>
      (* optional sign *)
      let neg := byte_of c =? byte_of "-" in
      let s1 := if is_sign c then tl s else s in
      (* base prefix: needs at least one byte after "0x" *)
      let hex := match s1 with
                 | c0 :: c1 :: _ :: _ => (byte_of c0 =? byte_of "0") && (lower c1 =? byte_of "x")
                 | _ => false
                 end in
      let s2 := if hex then tl (tl s1) else s1 in
      let '(st, s3) := read_mantissa hex (MantState 0 0 0 false false false) s2 in
      if negb (sawdigits st) then None
      else
        let dp0 := if sawdot st then dp st else nd st in
        let dp1 := if hex then dp0 * 4 else dp0 in
        let ndm := if hex then nd st * 4 else nd st in
        let expChar := if hex then byte_of "p" else byte_of "e" in
        let finish (dp2 : Z) (us : bool) (rest : list ascii) : option read_float :=
          let exp := if mantissa st =? 0 then 0 else dp2 - ndm in
          if us && negb (underscoreOK (take_prefix s rest)) then None
          else Some (ReadFloat (mantissa st) exp neg hex rest) in
        match s3 with
        | ce :: s4 =>
            if lower ce =? expChar then
              match s4 with
              | [] => None
              | cs :: s5 =>
                  let esign := if byte_of cs =? byte_of "-" then -1 else 1 in
                  let s6 := if is_sign cs then s5 else s4 in
                  match s6 with
                  | d :: _ =>
                      if is_digit d then
                        let '(e, us, rest) := read_exponent 0 (underscores st) s6 in
                        finish (dp1 + e * esign) us rest
                      else None
                  | [] => None
                  end
              end
            else if hex then None
            else finish dp1 (underscores st) s3
        | [] => if hex then None else finish dp1 (underscores st) s3
        end
  end.

(** the float64 nearest to [m * 10^e10] (ties to even), with the sign [neg];
    a result beyond the largest float64 is the infinity *)
Definition round_decimal (neg : bool) (m e10 : Z) : float64 :=
  match m with
  | Zpos p =>
      if 0 <=? e10 then
        match Zpos p * 10 ^ e10 with
        | Zpos n => binary_round F64.prec F64.emax neg n 0
        | _ => S754_zero neg
        end
      else
        let '(q, e, l) := SFdiv_core_binary F64.prec F64.emax (Zpos p) 0 (10 ^ (- e10)) 0 in
        binary_round_aux F64.prec F64.emax neg q e l
  | _ => S754_zero neg
  end.

(** the float64 nearest to [m * 2^e2] *)
Definition round_binary (neg : bool) (m e2 : Z) : float64 :=
  match m with
  | Zpos p => binary_round F64.prec F64.emax neg p e2
  | _ => S754_zero neg
  end.

(** [ParseFloat(s, 64)]: the value and the error.  The whole string must be
    read; a number too large is the infinity with [ErrRange]. *)
Definition ParseFloat (str : string) : float64 * option NumError :=
  let s := list_ascii_of_string str in
  match special s with
  | Some (f, n) =>
      if (n =? length s)%nat then (f, None) else (F64.zero, Some ErrSyntax)
  | None =>
      match readFloat s with
      | None => (F64.zero, Some ErrSyntax)
      | Some r =>
          match rf_rest r with
          | _ :: _ => (F64.zero, Some ErrSyntax)
          | [] =>
              let f := if rf_hex r
                       then round_binary (rf_neg r) (rf_mantissa r) (rf_exp r)
                       else round_decimal (rf_neg r) (rf_mantissa r) (rf_exp r) in
              match f with
              | S754_infinity _ => (f, Some ErrRange)
              | _ => (f, None)
              end
          end
      end
  end.

End Strconv.

(** ** Errors and HTTP responses (app/helpers/helpers.go) *)
Module Helpers.

(** Go's [error] values: the sentinel errors declared in helpers.go, an
    error value of another package (the database driver, the JSON decoder)
    known by its message, and [errors.Join]. *)
Inductive error : Type :=
| ErrBodyCannotBeEmpty
| ErrInvalidID
| ErrInvalidAmount
| ErrAmountMustBePositive
| ErrInsufficientBalance
| ErrInvalidTransactionType
| ErrUserNotFound
| ErrAccountNotFound
| ErrTransactionNotFound
| ErrDuplicateUser
| ErrDuplicateAccount
| ForeignError (message : string)
| Join (err1 err2 : error).

Definition newline : string := String (ascii_of_nat 10) EmptyString.

(** [err.Error()] *)
Fixpoint Error (err : error) : string :=
  match err with
  | ErrBodyCannotBeEmpty => "request body cannot be empty"
  | ErrInvalidID => "invalid ID format"
  | ErrInvalidAmount => "invalid amount format"
  | ErrAmountMustBePositive => "amount must be a positive number"
  | ErrInsufficientBalance => "insufficient balance"
  | ErrInvalidTransactionType => "invalid transaction type"
  | ErrUserNotFound => "user not found"
  | ErrAccountNotFound => "user account not found"
  | ErrTransactionNotFound => "user transaction not found"
  | ErrDuplicateUser => "user already exists"
  | ErrDuplicateAccount => "user account already exists"
  | ForeignError message => message
  | Join err1 err2 => Error err1 +:+ newline +:+ Error err2
  end.

(** a JSON value of a response: what the encoder writes for an int64, a
    float64 and a string *)
Inductive JSON : Type :=
| JInt (n : Z)
| JFloat (f : float64)
| JString (s : string).

Inductive ResponseBody : Type :=
| ErrorResponse (Error : string)
| ValidationErrorResponse (Errors : gmap string string)
| Data (data : gmap string JSON)
| PlainText (text : string).

(** what a handler writes to its [http.ResponseWriter] *)
Record Response : Type := mkResponse {
  StatusCode : Z;
  Body : ResponseBody
}.

Definition StatusOK : Z := 200.
Definition StatusBadRequest : Z := 400.
Definition StatusForbidden : Z := 403.
Definition StatusNotFound : Z := 404.
Definition StatusConflict : Z := 409.
Definition StatusUnprocessableEntity : Z := 422.
Definition StatusInternalServerError : Z := 500.
Definition StatusServiceUnavailable : Z := 503.

Definition RespondSuccess (message : string) (data : gmap string JSON) : Response :=
  mkResponse StatusOK (Data data).

Definition RespondError (statusCode : Z) (message : string) : Response :=
  mkResponse statusCode (ErrorResponse message).

Definition RespondValidationError (errors : gmap string string) : Response :=
  mkResponse StatusUnprocessableEntity (ValidationErrorResponse errors).

Definition ValidateID (userIDStr : string) : Z * option error :=
  if String.eqb userIDStr EmptyString then (0, Some ErrInvalidID)
  else
    match Strconv.ParseInt userIDStr with
    | (_, Some _) => (0, Some ErrInvalidID)
    | (userID, None) =>
        if userID <=? 0 then (0, Some ErrInvalidID) else (userID, None)
    end.

Definition hundred : float64 := F64.of_Z 100.

Definition ParseAmount (amountStr : string) : float64 * option error :=
  if String.eqb amountStr EmptyString then (F64.zero, Some ErrInvalidAmount)
  else
    match Strconv.ParseFloat amountStr with
    | (_, Some _) => (F64.zero, Some ErrInvalidAmount)
    | (amount, None) =>
        if F64.leb amount F64.zero then (F64.zero, Some ErrAmountMustBePositive)
        else (F64.div (F64.Round (F64.mul amount hundred)) hundred, None)
    end.

(** [strings.ToLower], on the ASCII letters *)
Definition lower_ascii (c : ascii) : ascii :=
  let n := N_of_ascii c in
  if ((65 <=? n) && (n <=? 90))%N then ascii_of_N (n + 32) else c.

Fixpoint ToLower (s : string) : string :=
  match s with
  | EmptyString => EmptyString
  | String c s' => String (lower_ascii c) (ToLower s')
  end.

(** [strings.Contains] *)
Fixpoint Contains (s substr : string) : bool :=
  String.prefix substr s
  || match s with
     | EmptyString => false
     | String _ s' => Contains s' substr
     end.

Definition HandleDatabaseError (err : error) (entityType : string) : Response :=
  let errStr := ToLower (Error err) in
  if Contains errStr "duplicate" || Contains errStr "unique" then
    RespondError StatusConflict (entityType +:+ " already exists")
  else if Contains errStr "not found" || Contains errStr "no rows" then
    RespondError StatusNotFound (entityType +:+ " not found")
  else if Contains errStr "insufficient balance" then
    RespondError StatusBadRequest "User balance is insufficient for this transaction"
  else if Contains errStr "foreign key" || Contains errStr "constraint" then
    RespondError StatusBadRequest "Invalid reference or constraint violation"
  else if Contains errStr "connection" || Contains errStr "timeout" then
    RespondError StatusServiceUnavailable "Database temporarily unavailable"
  else
    RespondError StatusInternalServerError "Database operation failed".

Definition HandleAPIError (err : error) : Response :=
  match err with
  | ErrUserNotFound => RespondError StatusNotFound "User not found"
  | ErrAccountNotFound => RespondError StatusNotFound "User Account not found"
  | ErrTransactionNotFound => RespondError StatusNotFound "User Transaction not found"
  | ErrInsufficientBalance =>
      RespondError StatusBadRequest "Insufficient balance for this transaction"
  | ErrAmountMustBePositive => RespondError StatusBadRequest "Amount must be a positive number"
  | ErrInvalidAmount => RespondError StatusBadRequest "Invalid amount specified"
  | ErrInvalidTransactionType => RespondError StatusBadRequest "Invalid transaction type"
  | ErrInvalidID => RespondError StatusBadRequest "Invalid ID format"
  | ErrDuplicateUser => RespondError StatusConflict "User already exists"
  | ErrDuplicateAccount => RespondError StatusConflict "User Account already exists"
  | _ => RespondError StatusInternalServerError "An unexpected error occurred"
  end.

Definition IsValidSource (source : string) : bool :=
  String.eqb source "game" || String.eqb source "server" || String.eqb source "payment".

End Helpers.

(** ** The request models (app/models) *)
Module Models.

Record Transaction : Type := mkTransaction {
  ID : string;
  AccountID : Z;
  Amount : string;
  AmountFloat : float64;
  Source : string;
  TransactionType : string;
  InsertedAt : string
}.

(** [models.Transaction{}] *)
Definition zeroTransaction : Transaction :=
  mkTransaction EmptyString 0 EmptyString F64.zero EmptyString EmptyString EmptyString.

End Models.

(** ** Decoding and validating the request body

    [helpers.ValidateBodyWithDetails(r, &transaction)] at the type
    [*models.Transaction], the only type the transaction handler uses it
    at.  The reflection over the struct tags of [models.Transaction] is
    written out field by field. *)
Module Validation.
Import Helpers Models.

(** The members of the JSON object of a request body that
    [encoding/json] matches to the fields of [models.Transaction], by their
    [json] tags and, for [AmountFloat], by the field name; [None] is an
    absent (or null) member.  [json_account_id] is a JSON integer that fits
    an int64. *)
Record TransactionJSON : Type := mkTransactionJSON {
  json_transactionId : option string;
  json_account_id : option Z;
  json_amount : option string;
  json_AmountFloat : option float64;
  json_source : option string;
  json_state : option string;
  json_inserted_at : option string
}.

(** A request body: one that the decoder rejects with an error message
    (empty, not JSON, or a member of the wrong JSON type), or a JSON
    object. *)
Inductive RequestBody : Type :=
| Undecodable (err : string)
| Object (members : TransactionJSON).

Definition assign {A : Type} (member : option A) (field : A) : A :=
  match member with
  | Some v => v
  | None => field
  end.

(** [json.NewDecoder(r.Body).Decode(reqData)]: members that are present
    overwrite the fields of the struct, the other fields keep their value *)
Definition Decode (body : RequestBody) (reqData : Transaction) : Transaction * option string :=
  match body with
  | Undecodable err => (reqData, Some err)
  | Object o =>
      (mkTransaction
         (assign (json_transactionId o) (ID reqData))
         (assign (json_account_id o) (AccountID reqData))
         (assign (json_amount o) (Amount reqData))
         (assign (json_AmountFloat o) (AmountFloat reqData))
         (assign (json_source o) (Source reqData))
         (assign (json_state o) (TransactionType reqData))
         (assign (json_inserted_at o) (InsertedAt reqData)),
       None)
  end.

Definition isEmptyStruct (v : Transaction) : bool :=
  String.eqb (ID v) EmptyString
  && (AccountID v =? 0)
  && String.eqb (Amount v) EmptyString
  && negb (F64.neqb (AmountFloat v) F64.zero)
  && String.eqb (Source v) EmptyString
  && String.eqb (TransactionType v) EmptyString
  && String.eqb (InsertedAt v) EmptyString.

(** a [validator.FieldError]: the struct field, the failed tag and its
    parameter *)
Record FieldError : Type := mkFieldError {
  StructField : string;
  Tag : string;
  Param : string
}.

Definition oneof (v : string) (allowed : list string) : bool :=
  existsb (String.eqb v) allowed.

(** the tags [required] and [required,oneof=...] of a string field: the
    first tag that fails is reported *)
Definition validate_string (field v : string) (allowed : option (string * list string))
  : list FieldError :=
  if String.eqb v EmptyString then [mkFieldError field "required" EmptyString]
  else
    match allowed with
    | Some (param, values) =>
        if oneof v values then [] else [mkFieldError field "oneof" param]
    | None => []
    end.

(** [validate.Struct] on a [models.Transaction], by its [validate] tags *)
Definition validate_Struct (t : Transaction) : list FieldError :=
  validate_string "ID" (ID t) None
  ++ (if AccountID t =? 0 then [mkFieldError "AccountID" "required" EmptyString] else [])
  ++ validate_string "Amount" (Amount t) None
  ++ validate_string "Source" (Source t)
       (Some ("game server payment", ["game"; "server"; "payment"]))
  ++ validate_string "TransactionType" (TransactionType t)
       (Some ("win lose", ["win"; "lose"])).

(** [getJSONFieldName] on the fields of [models.Transaction] *)
Definition getJSONFieldName (fieldName : string) : string :=
  if String.eqb fieldName "ID" then "transactionId"
  else if String.eqb fieldName "AccountID" then "account_id"
  else if String.eqb fieldName "Amount" then "amount"
  else if String.eqb fieldName "Source" then "source"
  else if String.eqb fieldName "TransactionType" then "state"
  else if String.eqb fieldName "InsertedAt" then "inserted_at"
  else ToLower fieldName.

Definition generateValidationErrorMessage (fieldName : string) (err : FieldError) : string :=
  let tag := Tag err in
  if String.eqb tag "required" then "The " +:+ fieldName +:+ " field is required"
  else if String.eqb tag "email" then
    "The " +:+ fieldName +:+ " must be a valid email address"
  else if String.eqb tag "eqfield" then
    "The " +:+ fieldName +:+ " must be equal to " +:+ Param err
  else if String.eqb tag "oneof" then
    "The " +:+ fieldName +:+ " must be one of: " +:+ Param err
  else if String.eqb tag "min" then
    "The " +:+ fieldName +:+ " must be at least " +:+ Param err +:+ " characters long"
  else if String.eqb tag "max" then
    "The " +:+ fieldName +:+ " must be at most " +:+ Param err +:+ " characters long"
  else if String.eqb tag "numeric" then "The " +:+ fieldName +:+ " must be a valid number"
  else if String.eqb tag "gte" then
    "The " +:+ fieldName +:+ " must be greater than or equal to " +:+ Param err
  else if String.eqb tag "lte" then
    "The " +:+ fieldName +:+ " must be less than or equal to " +:+ Param err
  else if String.eqb tag "len" then
    "The " +:+ fieldName +:+ " must be exactly " +:+ Param err +:+ " characters long"
  else if String.eqb tag "alpha" then
    "The " +:+ fieldName +:+ " must contain only alphabetic characters"
  else if String.eqb tag "alphanum" then
    "The " +:+ fieldName +:+ " must contain only alphanumeric characters"
  else if String.eqb tag "url" then "The " +:+ fieldName +:+ " must be a valid URL"
  else if String.eqb tag "uuid" then "The " +:+ fieldName +:+ " must be a valid UUID"
  else "The " +:+ fieldName +:+ " field is invalid".

Definition validation_errors (errs : list FieldError) : gmap string string :=
  fold_left
    (fun (errors : gmap string string) validationErr =>
       let fieldName := getJSONFieldName (StructField validationErr) in
       <[fieldName := generateValidationErrorMessage fieldName validationErr]> errors)
    errs ∅.

(** returns the boolean, the map of errors, and the struct [reqData]
    points to after the call *)
Definition ValidateBodyWithDetails (body : RequestBody) (reqData : Transaction)
  : bool * gmap string string * Transaction :=
  match Decode body reqData with
  | (reqData', Some err) =>
      (false, {[ "body" := "Invalid JSON format: " +:+ err ]}, reqData')
  | (reqData', None) =>
      if isEmptyStruct reqData' then
        (false, {[ "body" := "Request body cannot be empty" ]}, reqData')
      else
        match validate_Struct reqData' with
        | [] => (true, ∅, reqData')
        | errs => (false, validation_errors errs, reqData')
        end
  end.

End Validation.

(** ** The database

    The tables of the migrations (accounts, transactions), the statements
    of the queries, and the transactions of the driver.  A table is the
    list of its rows, in insertion order.

    The package app/database (the handle with its Pool and its Queries,
    the generated package sqlc, the queries on accounts) is not among the
    sources: the rows follow the migrations and the query
    CreateTransaction, which are, and what is missing is modelled from the
    spec, each definition saying so.

    The numeric(10,2) columns hold the float64 the Go code sends and reads
    back (sqlc maps them to float64).  A statement that PostgreSQL rejects
    for another reason than the constraints written below, and any failure
    of the connection, is a failure of the storage layer (see [Env]). *)
Module Database.
Import Helpers.

(** a row of accounts (sqlc.Account) *)
Record Account : Type := mkAccount {
  acc_ID : Z;
  acc_UserID : Z;
  acc_Balance : float64;
  acc_Currency : string;
  acc_Status : string;
  acc_InsertedAt : Z
}.

(** a row of transactions (sqlc.Transaction) *)
Record Transaction : Type := mkTransactionRow {
  txn_ID : string;
  txn_AccountID : Z;
  txn_Amount : float64;
  txn_Source : string;
  txn_Type : string;
  txn_InsertedAt : Z
}.

Definition zeroAccount : Account :=
  mkAccount 0 0 F64.zero EmptyString EmptyString 0.

Definition zeroTransactionRow : Transaction :=
  mkTransactionRow EmptyString 0 F64.zero EmptyString EmptyString 0.

Record Tables : Type := mkTables {
  accounts : list Account;
  transactions : list Transaction
}.

(** The database as the handlers see it: the committed tables, which
    every other connection reads, and the tables of the open transaction
    of this request, if one is open. *)
Record DB : Type := mkDB {
  committed : Tables;
  pending : option Tables
}.

(** what a [*sqlc.Queries] runs its statements on: the pool
    ([database.DBClient.Queries]) or the open transaction
    ([db.Queries.WithTx(tx)]) *)
Inductive Queries : Type := OnPool | OnTx.

(** Modelled from the spec: the driver and the database server are not
    part of the sources; the spec (5, 7) has the storage layer fail at any
    point of the atomic unit, without partial state change.  [Env] is the
    conditions a request is served under: the clock of the database server
    and, for each call to the storage layer, the error it fails with, if
    it fails (lost connection, timeout, numeric overflow, ...). *)
Record Env : Type := mkEnv {
  now : Z;
  fail_GetAccountByUser : option error;
  fail_Begin : option error;
  fail_CreateTransaction : option error;
  fail_GetAccount : option error;
  fail_UpdateAccount : option error;
  fail_Commit : option error;
  fail_Rollback : option error
}.

Definition dquote : string := String (ascii_of_nat 34) EmptyString.
Definition quoted (s : string) : string := dquote +:+ s +:+ dquote.

(** [*pgconn.PgError]: severity, message and SQLSTATE *)
Definition PgError (message code : string) : error :=
  ForeignError ("ERROR: " +:+ message +:+ " (SQLSTATE " +:+ code +:+ ")").

Definition unique_violation : error :=
  PgError ("duplicate key value violates unique constraint " +:+ quoted "transactions_pkey")
          "23505".

Definition foreign_key_violation : error :=
  PgError ("insert or update on table " +:+ quoted "transactions"
           +:+ " violates foreign key constraint " +:+ quoted "transactions_account_id_fkey")
          "23503".

Definition check_violation (constraint : string) : error :=
  PgError ("new row for relation " +:+ quoted "transactions"
           +:+ " violates check constraint " +:+ quoted constraint)
          "23514".

(** [pgx.ErrNoRows], [pgx.ErrTxClosed] *)
Definition ErrNoRows : error := ForeignError "no rows in result set".
Definition ErrTxClosed : error := ForeignError "tx is closed".

(** runs a statement on what [queries] is bound to *)
Definition exec {A : Type} (queries : Queries) (failure : option error) (zero : A)
  (stmt : Tables -> Tables * (A * option error)) (db : DB) : DB * (A * option error) :=
  match failure with
  | Some err => (db, (zero, Some err))
  | None =>
      match queries with
      | OnPool =>
          let '(t, r) := stmt (committed db) in (mkDB t (pending db), r)
      | OnTx =>
          match pending db with
          | Some w => let '(t, r) := stmt w in (mkDB (committed db) (Some t), r)
          | None => (db, (zero, Some ErrTxClosed))
          end
      end
  end.

(** *** transactions: the table of migration 000003 and the query
    CreateTransaction *)

Record CreateTransactionParams : Type := mkCreateTransactionParams {
  ctp_ID : string;
  ctp_AccountID : Z;
  ctp_Amount : float64;
  ctp_Source : string;
  ctp_Type : string
}.

Definition find_account (id : Z) (t : Tables) : option Account :=
  find (fun a => acc_ID a =? id) (accounts t).

Definition find_transaction (id : string) (t : Tables) : option Transaction :=
  find (fun r => String.eqb (txn_ID r) id) (transactions t).

(** INSERT INTO transactions (id, account_id, amount, source, type)
    VALUES ($1, $2, $3, $4, $5) RETURNING *, under the constraints of the
    table: the CHECKs on source and type, the primary key on id, the
    foreign key on account_id; inserted_at takes its default, NOW() *)
Definition insert_transaction (clock : Z) (arg : CreateTransactionParams) (t : Tables)
  : Tables * (Transaction * option error) :=
  if negb (Validation.oneof (ctp_Source arg) ["game"; "server"; "payment"]) then
    (t, (zeroTransactionRow, Some (check_violation "transactions_source_check")))
  else if negb (Validation.oneof (ctp_Type arg) ["win"; "lose"]) then
    (t, (zeroTransactionRow, Some (check_violation "transactions_type_check")))
  else
    match find_transaction (ctp_ID arg) t with
    | Some _ => (t, (zeroTransactionRow, Some unique_violation))
    | None =>
        match find_account (ctp_AccountID arg) t with
        | None => (t, (zeroTransactionRow, Some foreign_key_violation))
        | Some _ =>
            let row := mkTransactionRow (ctp_ID arg) (ctp_AccountID arg) (ctp_Amount arg)
                         (ctp_Source arg) (ctp_Type arg) clock in
            (mkTables (accounts t) (transactions t ++ [row]), (row, None))
        end
    end.

Definition CreateTransaction (env : Env) (queries : Queries) (arg : CreateTransactionParams)
  (db : DB) : DB * (Transaction * option error) :=
  exec queries (fail_CreateTransaction env) zeroTransactionRow
       (insert_transaction (now env) arg) db.

(** *** accounts: the table of migration 000002; its queries are not
    among the sources *)

Record UpdateAccountParams : Type := mkUpdateAccountParams {
  uap_ID : Z;
  uap_Balance : float64
}.

Definition select_account (id : Z) (t : Tables) : Tables * (Account * option error) :=
  match find_account id t with
  | Some a => (t, (a, None))
  | None => (t, (zeroAccount, Some ErrNoRows))
  end.

(** Modelled from the spec: the query GetAccount (app/database/query,
    app/database/sqlc) is missing; 4.2 [get(accountID) -> Account] fails
    when no such account exists.  The query returns one row: no row is
    [pgx.ErrNoRows]. *)
Definition GetAccount (env : Env) (queries : Queries) (id : Z) (db : DB)
  : DB * (Account * option error) :=
  exec queries (fail_GetAccount env) zeroAccount (select_account id) db.

Definition select_account_by_user (user_id : Z) (t : Tables)
  : Tables * (Account * option error) :=
  match find (fun a => acc_UserID a =? user_id) (accounts t) with
  | Some a => (t, (a, None))
  | None => (t, (zeroAccount, Some ErrNoRows))
  end.

(** Modelled from the spec: the query GetAccountByUser is missing; 4.2
    [getByUser(userID) -> Account] fails when the user has no account. *)
Definition GetAccountByUser (env : Env) (queries : Queries) (user_id : Z) (db : DB)
  : DB * (Account * option error) :=
  exec queries (fail_GetAccountByUser env) zeroAccount (select_account_by_user user_id) db.

Definition set_balance (id : Z) (balance : float64) (a : Account) : Account :=
  if acc_ID a =? id then
    mkAccount (acc_ID a) (acc_UserID a) balance (acc_Currency a) (acc_Status a)
              (acc_InsertedAt a)
  else a.

Definition update_account (arg : UpdateAccountParams) (t : Tables)
  : Tables * (Account * option error) :=
  match find_account (uap_ID arg) t with
  | Some a =>
      (mkTables (map (set_balance (uap_ID arg) (uap_Balance arg)) (accounts t))
                (transactions t),
       (set_balance (uap_ID arg) (uap_Balance arg) a, None))
  | None => (t, (zeroAccount, Some ErrNoRows))
  end.

(** Modelled from the spec: the query UpdateAccount is missing; its
    parameters are the id and the balance ([sqlc.UpdateAccountParams] in
    transactions.go), and 4.2 [applyDelta] persists the new balance and
    returns the updated account: the statement sets the balance column of
    the row with that id and returns the row. *)
Definition UpdateAccount (env : Env) (queries : Queries) (arg : UpdateAccountParams) (db : DB)
  : DB * (Account * option error) :=
  exec queries (fail_UpdateAccount env) zeroAccount (update_account arg) db.

(** *** the transactions of the driver *)

(** Modelled from the spec: [Pool.Begin], [tx.Commit] and [tx.Rollback]
    belong to the driver; the spec (5) asks for an all-or-nothing unit
    against the committed state.  [Begin] opens a transaction on the
    committed tables, [Commit] makes its tables the committed ones,
    [Rollback] drops them; a [Commit] or a [Rollback] that fails ends the
    transaction without effect. *)
Definition Begin (env : Env) (db : DB) : DB * option error :=
  match fail_Begin env with
  | Some err => (db, Some err)
  | None => (mkDB (committed db) (Some (committed db)), None)
  end.

Definition Commit (env : Env) (db : DB) : DB * option error :=
  match fail_Commit env with
  | Some err => (mkDB (committed db) None, Some err)
  | None =>
      match pending db with
      | Some w => (mkDB w None, None)
      | None => (db, Some ErrTxClosed)
      end
  end.

Definition Rollback (env : Env) (db : DB) : DB * option error :=
  match fail_Rollback env with
  | Some err => (mkDB (committed db) None, Some err)
  | None =>
      match pending db with
      | Some _ => (mkDB (committed db) None, None)
      | None => (db, Some ErrTxClosed)
      end
  end.

Definition WithTx : Queries := OnTx.

End Database.

(** ** The handlers (app/api/accounts.go, app/api/transactions.go,
    app/middleware) *)
Module Api.
Import Helpers Validation Database.

(** an inbound request: the router variable userId, the header
    Source-Type, and the body *)
Record Request : Type := mkRequest {
  userId : string;
  SourceType : string;
  body : RequestBody
}.

Definition GetAccountByUser (env : Env) (user_id : Z) (db : DB) : DB * (Account * option error) :=
  Database.GetAccountByUser env OnPool user_id db.

Definition validateAndParseTransactionAmount (transaction : Models.Transaction)
  : Models.Transaction * option error :=
  match ParseAmount (Models.Amount transaction) with
  | (_, Some err) => (Models.zeroTransaction, Some err)
  | (amount, None) =>
      (Models.mkTransaction
         (Models.ID transaction) (Models.AccountID transaction) (Models.Amount transaction)
         amount
         (Models.Source transaction) (Models.TransactionType transaction)
         (Models.InsertedAt transaction),
       None)
  end.

Definition runInTx (env : Env) (db : DB) (fn : Queries -> DB -> DB * option error)
  : DB * option error :=
  match Begin env db with
  | (db1, Some err) => (db1, Some err)
  | (db1, None) =>
      let queries := WithTx in
      match fn queries db1 with
      | (db2, None) => Commit env db2
      | (db2, Some err) =>
          match Rollback env db2 with
          | (db3, Some rollbackErr) => (db3, Some (Join err rollbackErr))
          | (db3, None) => (db3, Some err)
          end
      end
  end.

Definition createTransactionInTx (env : Env) (queries : Queries)
  (transaction : Models.Transaction) (db : DB) : DB * (Transaction * option error) :=
  let params := mkCreateTransactionParams
                  (Models.ID transaction) (Models.AccountID transaction)
                  (Models.AmountFloat transaction) (Models.Source transaction)
                  (Models.TransactionType transaction) in
  CreateTransaction env queries params db.

Definition updateBalanceInTx (env : Env) (queries : Queries) (accountID : Z)
  (amount : float64) (transactionType : string) (db : DB) : DB * (Account * option error) :=
  (* Fetch current balance *)
  match GetAccount env queries accountID db with
  | (db1, (_, Some err)) => (db1, (zeroAccount, Some err))
  | (db1, (account, None)) =>
      let currentBalance := acc_Balance account in
      (* Calculate new balance based on transaction type *)
      let calculated : float64 * option error :=
        if String.eqb transactionType "win" || String.eqb transactionType "deposit" then
          (F64.add currentBalance amount, None)
        else if String.eqb transactionType "lose" || String.eqb transactionType "withdrawal" then
          let newBalance := F64.sub currentBalance amount in
          if F64.ltb newBalance F64.zero then (newBalance, Some ErrInsufficientBalance)
          else (newBalance, None)
        else (F64.zero, Some ErrInvalidTransactionType) in
      match calculated with
      | (_, Some err) => (db1, (zeroAccount, Some err))
      | (newBalance, None) =>
          (* Update the account balance *)
          let params := mkUpdateAccountParams accountID newBalance in
          match UpdateAccount env queries params db1 with
          | (db2, (_, Some err)) => (db2, (zeroAccount, Some err))
          | (db2, (updatedAccount, None)) => (db2, (updatedAccount, None))
          end
      end
  end.

(** the function literal that [CreateTransactionHandler] passes to
    [runInTx]; it captures [transaction] and [account] *)
Definition createAndUpdate (env : Env) (transaction : Models.Transaction) (account : Account)
  (queries : Queries) (db : DB) : DB * option error :=
  (* Create transaction within the transaction *)
  match createTransactionInTx env queries transaction db with
  | (db1, (_, Some err)) => (db1, Some err)
  | (db1, (_, None)) =>
      (* Update balance within the same transaction *)
      match updateBalanceInTx env queries (acc_ID account)
              (Models.AmountFloat transaction) (Models.TransactionType transaction) db1 with
      | (db2, (_, Some err)) => (db2, Some err)
      | (db2, (_, None)) => (db2, None)
      end
  end.

Definition responseData (userID : Z) (transaction : Models.Transaction) : gmap string JSON :=
  <[ "user_account_id" := JInt userID ]>
  (<[ "transaction_id" := JString (Models.ID transaction) ]>
  (<[ "amount" := JFloat (Models.AmountFloat transaction) ]>
  (<[ "type" := JString (Models.TransactionType transaction) ]>
  (<[ "source" := JString (Models.Source transaction) ]> ∅)))).

(** POST /user/{userId}/transaction *)
Definition CreateTransactionHandler (env : Env) (r : Request) (db : DB) : DB * Response :=
  let userIDStr := userId r in
  (* Validate user ID using helper function *)
  match ValidateID userIDStr with
  | (_, Some err) => (db, HandleAPIError err)
  | (userID, None) =>
      (* Get user account *)
      match GetAccountByUser env userID db with
      | (db1, (_, Some err)) => (db1, HandleDatabaseError err "Account")
      | (db1, (account, None)) =>
          (* Get source from header *)
          let source := SourceType r in
          let transaction :=
            Models.mkTransaction EmptyString (acc_ID account) EmptyString F64.zero source
                                 EmptyString EmptyString in
          (* Validate and decode JSON request body *)
          match ValidateBodyWithDetails (body r) transaction with
          | (false, validationErrors, _) => (db1, RespondValidationError validationErrors)
          | (true, _, transaction) =>
              match validateAndParseTransactionAmount transaction with
              | (_, Some err) => (db1, HandleAPIError err)
              | (transaction, None) =>
                  (* Execute transaction creation and balance update in a
                     single database transaction *)
                  match runInTx env db1 (createAndUpdate env transaction account) with
                  | (db2, Some err) => (db2, HandleDatabaseError err "Transaction")
                  | (db2, None) =>
                      (* Return success response *)
                      (db2, RespondSuccess "Transaction created successfully"
                                           (responseData userID transaction))
                  end
              end
          end
      end
  end.

(** [middleware.SourceHeaderMatcher] around the handler, as [StartServer]
    routes POST /user/{userId}/transaction *)
Definition SourceHeaderMatcher (next : Request -> DB -> DB * Response) (r : Request) (db : DB)
  : DB * Response :=
  let sourceHeader := SourceType r in
  if negb (IsValidSource sourceHeader) then
    (db, mkResponse StatusForbidden (PlainText ("Source type is invalid" +:+ newline)))
  else next r db.

Definition serveTransaction (env : Env) (r : Request) (db : DB) : DB * Response :=
  SourceHeaderMatcher (CreateTransactionHandler env) r db.

(** the handler serving requests one after the other, each under its
    own conditions *)
Fixpoint serve (reqs : list (Env * Request)) (db : DB) : DB * list Response :=
  match reqs with
  | [] => (db, [])
  | (env, r) :: reqs' =>
      let '(db1, resp) := CreateTransactionHandler env r db in
      let '(db2, resps) := serve reqs' db1 in
      (db2, resp :: resps)
  end.

End Api.

(** ** The vocabulary of the properties *)
Module Props.
Import Helpers Validation Database Api.

(** [x] is not negative: the test [x < 0] of the Go code is false *)
Definition not_negative (x : float64) : Prop := F64.ltb x F64.zero = false.

(** the sign bit of [x] is clear, or [x] is a zero or NaN *)
Definition sign_clear (x : float64) : Prop :=
  match x with
  | S754_finite s _ _ => s = false
  | S754_infinity s => s = false
  | _ => True
  end.

(** the tables that the statements of [queries] read and write *)
Definition tables_of (queries : Queries) (db : DB) : option Tables :=
  match queries with
  | OnPool => Some (committed db)
  | OnTx => pending db
  end.

Definition with_tables (queries : Queries) (db : DB) (t : Tables) : DB :=
  match queries with
  | OnPool => mkDB t (pending db)
  | OnTx => mkDB (committed db) (Some t)
  end.

(** the signed amount of a transaction: +amount for win, -amount for lose *)
Definition signed (transactionType : string) (amount : float64) : float64 :=
  if String.eqb transactionType "win" then amount else F64.neg amount.

(** the balance of the account [id] that every connection reads *)
Definition balance_of (id : Z) (db : DB) : option float64 :=
  option_map acc_Balance (find_account id (committed db)).

(** the row that the apply of [transaction] appends to the ledger *)
Definition ledger_row (env : Env) (transaction : Models.Transaction) : Transaction :=
  mkTransactionRow (Models.ID transaction) (Models.AccountID transaction)
    (Models.AmountFloat transaction) (Models.Source transaction)
    (Models.TransactionType transaction) (now env).

(** [t'] is [t] with both effects of the apply of [transaction] to
    [account]: the ledger has one more row, and the balance of the account
    has moved by the signed amount *)
Definition both_applied (env : Env) (transaction : Models.Transaction) (account : Account)
  (t t' : Tables) : Prop :=
  find_transaction (Models.ID transaction) t = None
  /\ transactions t' = (transactions t ++ [ledger_row env transaction])%list
  /\ (Models.TransactionType transaction = "win" \/ Models.TransactionType transaction = "lose")
  /\ exists before : Account,
       find_account (acc_ID account) t = Some before
       /\ accounts t' =
          map (set_balance (acc_ID account)
                 (F64.add (acc_Balance before)
                    (signed (Models.TransactionType transaction)
                            (Models.AmountFloat transaction))))
              (accounts t)
       /\ (Models.TransactionType transaction = "lose"
           -> not_negative (F64.add (acc_Balance before)
                              (signed (Models.TransactionType transaction)
                                      (Models.AmountFloat transaction)))).

(** the transaction struct the handler starts from *)
Definition prefilled (account : Account) (r : Request) : Models.Transaction :=
  Models.mkTransaction EmptyString (acc_ID account) EmptyString F64.zero (SourceType r)
                       EmptyString EmptyString.

(** what the handler has in hand when it enters the atomic unit: the user
    id, the account of the user, and the validated transaction with its
    normalized amount *)
Definition prepared (env : Env) (r : Request) (db : DB)
  : option (Z * Account * Models.Transaction) :=
  match ValidateID (userId r) with
  | (userID, None) =>
      match GetAccountByUser env userID db with
      | (_, (account, None)) =>
          match ValidateBodyWithDetails (body r) (prefilled account r) with
          | (true, _, decoded) =>
              match validateAndParseTransactionAmount decoded with
              | (transaction, None) => Some (userID, account, transaction)
              | _ => None
              end
          | _ => None
          end
      | _ => None
      end
  | _ => None
  end.

Definition succeeded (resp : Response) : bool := StatusCode resp =? StatusOK.

(** the signed amount that a request commits against the account [id]:
    that of its transaction when the handler answers with success and the
    account of the user is [id] *)
Definition committed_against (id : Z) (env : Env) (r : Request) (db : DB) : option float64 :=
  if succeeded (snd (CreateTransactionHandler env r db)) then
    match prepared env r db with
    | Some (_, account, transaction) =>
        if acc_ID account =? id then
          Some (signed (Models.TransactionType transaction) (Models.AmountFloat transaction))
        else None
    | None => None
    end
  else None.

(** the signed amounts committed against [id] by a sequence of requests,
    in the order of the commits *)
Fixpoint committed_amounts (id : Z) (reqs : list (Env * Request)) (db : DB) : list float64 :=
  match reqs with
  | [] => []
  | (env, r) :: reqs' =>
      let rest := committed_amounts id reqs' (fst (CreateTransactionHandler env r db)) in
      match committed_against id env r db with
      | Some x => x :: rest
      | None => rest
      end
  end.

(** two rows of accounts that differ at most in their balance *)
Definition same_but_balance (a a' : Account) : Prop :=
  acc_ID a' = acc_ID a /\ acc_UserID a' = acc_UserID a
  /\ acc_Currency a' = acc_Currency a /\ acc_Status a' = acc_Status a
  /\ acc_InsertedAt a' = acc_InsertedAt a.

(** Follows the words of the spec (4.1), not the code: a string that
    represents a base-10 number, that is an optional sign, decimal digits
    with at most one decimal point and at least one digit, and optionally
    an exponent (e or E, an optional sign, digits). *)
Fixpoint all_digits (s : list ascii) : bool :=
  match s with
  | [] => true
  | c :: s' => Strconv.is_digit c && all_digits s'
  end.

Fixpoint base10_mantissa (seen_digit seen_dot : bool) (s : list ascii) : bool :=
  match s with
  | [] => seen_digit
  | c :: s' =>
      if Strconv.is_digit c then base10_mantissa true seen_dot s'
      else if Strconv.byte_of c =? Strconv.byte_of "." then
        negb seen_dot && base10_mantissa seen_digit true s'
      else if Strconv.lower c =? Strconv.byte_of "e" then
        seen_digit
        && match s' with
           | [] => false
           | d :: s'' =>
               if Strconv.is_sign d then negb (length s'' =? 0)%nat && all_digits s''
               else all_digits s'
           end
      else false
  end.

Definition base10_number (str : string) : bool :=
  match list_ascii_of_string str with
  | [] => false
  | c :: s' =>
      if Strconv.is_sign c then base10_mantissa false false s'
      else base10_mantissa false false (c :: s')
  end.

(** *** The data of the examples: the accounts of the migration, a second
    account under another id, and requests *)

Definition account_of (id user : Z) (balance : float64) : Account :=
  mkAccount id user balance "EUR" "active" 0.

Definition quiet : Env := mkEnv 1700000000 None None None None None None None.

(** the conditions under which the balance update loses its connection *)
Definition update_fails : Env :=
  mkEnv 1700000000 None None None None (Some (ForeignError "connection reset by peer"))
        None None.

Definition post (user id amount state : string) : Request :=
  mkRequest user "game"
    (Object (mkTransactionJSON (Some id) None (Some amount) None None (Some state) None)).

Definition five : float64 := F64.of_Z 5.
Definition ten : float64 := F64.of_Z 10.
Definition fifteen : float64 := F64.of_Z 15.
Definition sixteen : float64 := F64.of_Z 16.

(** the tables after the migrations: users 1, 2, 3 with a zero balance *)
Definition migrated : DB :=
  mkDB (mkTables [account_of 1 1 F64.zero; account_of 2 2 F64.zero; account_of 3 3 F64.zero]
                 [])
       None.

(** user 7 owns account 10 with balance 5.00 *)
Definition funded : DB :=
  mkDB (mkTables [account_of 10 7 five] []) None.

(** the end-to-end scenario of the spec (8): win 50.00 with id A, lose
    20.00 with id B, then A again *)
Definition scenario : list (Env * Request) :=
  [(quiet, post "1" "A" "50.00" "win");
   (quiet, post "1" "B" "20.00" "lose");
   (quiet, post "1" "A" "50.00" "win")].

(** a request to the URL of user 1 whose body names account 2 *)
Definition misdirected : Request :=
  mkRequest "1" "game"
    (Object (mkTransactionJSON (Some "t1") (Some 2) (Some "10.00") None None (Some "win")
                               None)).

End Props.

(** ** strconv.FormatFloat

    [strconv.FormatFloat(f, 'f', prec, 64)] of the Go standard library with
    [prec >= 0], after ftoa.go and decimal.go: the format 'f' with a given
    precision goes through [bigFtoa], which writes the float exactly in
    decimal, rounds it to [prec] digits after the point and prints it. *)
Module Ftoa.

Definition byte (c : ascii) : Z := Strconv.byte_of c.

(** the [decimal] of decimal.go: the digits (the bytes '0' to '9', most
    significant first, without leading or trailing zeros) and the position
    of the decimal point; the value is 0.d1d2...dn * 10^dp.  Go's buffer has
    800 digits and a flag [trunc] for the digits dropped beyond: a float64
    has at most 767, so that nothing is dropped. *)
Record decimal : Type := Decimal {
  d : list Z;
  dp : Z
}.

Definition nd (a : decimal) : Z := Z.of_nat (length (d a)).

Fixpoint trim_zeros (rev_digits : list Z) : list Z :=
  match rev_digits with
  | c :: rest => if c =? byte "0" then trim_zeros rest else rev_digits
  | [] => []
  end.

(** [trim]: drops the trailing zeros; no digit left is the decimal 0 *)
Definition trim (a : decimal) : decimal :=
  match rev (trim_zeros (rev (d a))) with
  | [] => Decimal [] 0
  | ds => Decimal ds (dp a)
  end.

(** the loop of [Assign]: the decimal digits of [v], last digit first;
    [fuel] bounds the number of digits *)
Fixpoint digits_of (fuel : nat) (v : Z) (acc : list Z) : list Z :=
  match fuel with
  | O => acc
  | S fuel' =>
      if 0 <? v then digits_of fuel' (v / 10) (v mod 10 + byte "0" :: acc) else acc
  end.

Definition digits (v : Z) : list Z := digits_of (S (Z.to_nat (Z.log2 v))) v [].

Definition Assign (v : Z) : decimal :=
  let ds := digits v in trim (Decimal ds (Z.of_nat (length ds))).

(** the integer that the digits write *)
Definition digits_value (ds : list Z) : Z :=
  fold_left (fun n c => n * 10 + (c - byte "0")) ds 0.

(** [Shift(k)]: the decimal times 2^k, exactly.  Go shifts the digits in
    place; here the product is computed on the integer of the digits:
    [n * 10^s * 2^k] is [n * 2^k * 10^s] and, for [k < 0],
    [n * 5^(-k) * 10^(s + k)]. *)
Definition Shift (a : decimal) (k : Z) : decimal :=
  match d a with
  | [] => a
  | _ =>
      let n := digits_value (d a) in
      let s := dp a - nd a in
      let '(n', s') := if 0 <=? k then (n * 2 ^ k, s) else (n * 5 ^ (- k), s + k) in
      let ds := digits n' in
      trim (Decimal ds (Z.of_nat (length ds) + s'))
  end.

Definition digit_at (a : decimal) (i : Z) : Z := nth (Z.to_nat i) (d a) (byte "0").

(** [shouldRoundUp]: if we chop [a] at [nd] digits, should we round up? *)
Definition shouldRoundUp (a : decimal) (n : Z) : bool :=
  if (n <? 0) || (nd a <=? n) then false
  else if (digit_at a n =? byte "5") && (n + 1 =? nd a) then
    (* exactly halfway - round to even *)
    (0 <? n) && negb ((digit_at a (n - 1) - byte "0") mod 2 =? 0)
  else byte "5" <=? digit_at a n.

Definition RoundDown (a : decimal) (n : Z) : decimal :=
  if (n <? 0) || (nd a <=? n) then a
  else trim (Decimal (firstn (Z.to_nat n) (d a)) (dp a)).

(** the loop of [RoundUp], from the digit [nd - 1] down: the first digit
    below '9' is incremented and the digits after it are dropped;
    [rev_prefix] is the digits before [nd], last first *)
Fixpoint round_up (rev_prefix : list Z) : option (list Z) :=
  match rev_prefix with
  | [] => None
  | c :: rest => if c <? byte "9" then Some (rev (c + 1 :: rest)) else round_up rest
  end.

Definition RoundUp (a : decimal) (n : Z) : decimal :=
  if (n <? 0) || (nd a <=? n) then a
  else
    match round_up (rev (firstn (Z.to_nat n) (d a))) with
    | Some ds => Decimal ds (dp a)
    | None =>
        (* Number is all 9s: change to single 1 with adjusted decimal point *)
        Decimal [byte "1"] (dp a + 1)
    end.

Definition Round (a : decimal) (n : Z) : decimal :=
  if (n <? 0) || (nd a <=? n) then a
  else if shouldRoundUp a n then RoundUp a n else RoundDown a n.

Definition string_of_bytes (bytes : list Z) : string :=
  string_of_list_ascii (map (fun c => ascii_of_N (Z.to_N c)) bytes).

(** [%f]: -ddddddd.ddddd *)
Definition fmtF (neg : bool) (a : decimal) (prec : Z) : string :=
  let sign := if neg then [byte "-"] else [] in
  let integer :=
    if 0 <? dp a then
      let m := Z.min (nd a) (dp a) in
      (firstn (Z.to_nat m) (d a) ++ repeat (byte "0") (Z.to_nat (dp a - m)))%list
    else [byte "0"] in
  let fraction :=
    if 0 <? prec then
      byte "." :: map (fun i =>
                         let j := dp a + i in
                         if (0 <=? j) && (j <? nd a) then digit_at a j else byte "0")
                      (seqZ 0 prec)
    else [] in
  string_of_bytes (sign ++ integer ++ fraction)%list.

Definition bigFtoa (prec : Z) (neg : bool) (mant exp : Z) : string :=
  let a := Shift (Assign mant) exp in
  let a := Round a (dp a + prec) in
  fmtF neg a prec.

Definition FormatFloat (f : float64) (prec : Z) : string :=
  match f with
  | S754_nan => "NaN"
  | S754_infinity neg => if neg then "-Inf" else "+Inf"
  | S754_zero neg => bigFtoa prec neg 0 0
  | S754_finite neg m e => bigFtoa prec neg (Zpos m) e
  end.

End Ftoa.

(** ** The balance of a user (app/api/accounts.go) *)
Module Accounts.
Import Helpers Validation Database Api.

(** [models.UserBalance], as the encoder writes it: the object of its two
    fields under their JSON names *)
Definition UserBalance (UserID : Z) (Balance : string) : gmap string JSON :=
  <[ "userId" := JInt UserID ]> (<[ "balance" := JString Balance ]> ∅).

(** GET /user/{userId}/balance; the request has no body, and its headers
    are not read *)
Definition GetBalanceHandler (env : Env) (r : Request) (db : DB) : DB * Response :=
  let userIDStr := userId r in
  (* Validate user ID using helper function *)
  match ValidateID userIDStr with
  | (_, Some err) => (db, HandleAPIError err)
  | (userID, None) =>
      match GetAccountByUser env userID db with
      | (db1, (_, Some err)) => (db1, HandleDatabaseError err "Account")
      | (db1, (account, None)) =>
          (* Create response data *)
          let balanceStr := Ftoa.FormatFloat (acc_Balance account) 2 in
          let responseData := UserBalance userID balanceStr in
          (db1, RespondSuccess "Balance retrieved successfully" responseData)
      end
  end.

End Accounts.

(** ** The other queries on transactions

    The statements GetTransaction, ListTransactions and
    ListTransactionsByAccount of the query file of transactions, next to
    CreateTransaction.  No handler calls them.  The generated functions
    are not among the sources: [failure] is the error a call fails with
    when the storage layer fails, as the fields of [Env] are for the
    queries of the handlers. *)
Module LedgerQueries.
Import Helpers Database.

(** SELECT * FROM transactions WHERE id = $1 LIMIT 1 *)
Definition select_transaction (id : string) (t : Tables)
  : Tables * (Transaction * option error) :=
  match find_transaction id t with
  | Some row => (t, (row, None))
  | None => (t, (zeroTransactionRow, Some ErrNoRows))
  end.

Definition GetTransaction (failure : option error) (queries : Queries) (id : string) (db : DB)
  : DB * (Transaction * option error) :=
  exec queries failure zeroTransactionRow (select_transaction id) db.

(** LIMIT and OFFSET: PostgreSQL evaluates the offset, then the count, and
    rejects a negative one *)
Definition limit_offset (limit offset : Z) (rows : list Transaction)
  : list Transaction * option error :=
  if offset <? 0 then ([], Some (PgError "OFFSET must not be negative" "2201X"))
  else if limit <? 0 then ([], Some (PgError "LIMIT must not be negative" "2201W"))
  else (firstn (Z.to_nat limit) (skipn (Z.to_nat offset) rows), None).

Section Collation.

(** the order of the values of the column id, of type TEXT, under the
    collation of the database: [id_le a b] is [a <= b] *)
Variable id_le : string -> string -> bool.

Fixpoint insert_by_id (row : Transaction) (sorted : list Transaction) : list Transaction :=
  match sorted with
  | [] => [row]
  | r :: rest =>
      if id_le (txn_ID row) (txn_ID r) then row :: sorted else r :: insert_by_id row rest
  end.

(** ORDER BY id *)
Definition order_by_id (rows : list Transaction) : list Transaction :=
  fold_right insert_by_id [] rows.

(** SELECT * FROM transactions WHERE account_id = $1 ORDER BY id
    LIMIT $2 OFFSET $3 *)
Definition select_transactions_by_account (account_id limit offset : Z) (t : Tables)
  : Tables * (list Transaction * option error) :=
  (t, limit_offset limit offset
        (order_by_id
           (List.filter (fun r => txn_AccountID r =? account_id) (transactions t)))).

Definition ListTransactionsByAccount (failure : option error) (queries : Queries)
  (account_id limit offset : Z) (db : DB) : DB * (list Transaction * option error) :=
  exec queries failure [] (select_transactions_by_account account_id limit offset) db.

(** SELECT * FROM transactions ORDER BY id LIMIT $1 OFFSET $2 *)
Definition select_transactions (limit offset : Z) (t : Tables)
  : Tables * (list Transaction * option error) :=
  (t, limit_offset limit offset (order_by_id (transactions t))).

Definition ListTransactions (failure : option error) (queries : Queries) (limit offset : Z)
  (db : DB) : DB * (list Transaction * option error) :=
  exec queries failure [] (select_transactions limit offset) db.

End Collation.

End LedgerQueries.

(** ** ValidateBodyWithDetails by reflection

    [helpers.ValidateBodyWithDetails] as helpers.go has it, for any struct
    of the models: the struct is seen through its fields (name, kind, tags),
    as the code sees it through [reflect] and the validator through the
    [validate] tags.  The kinds are those of the models: string, int64,
    float64; the tags are those of the models: required, email, oneof. *)
Module Reflect.
Import Helpers.

Inductive Value : Type :=
| String_ (s : string)
| Int64 (n : Z)
| Float64 (f : float64).

(** an item of a [validate] tag *)
Inductive Rule : Type :=
| required
| email
| oneof (param : string).

(** a [reflect.StructField]: the name of the field, its [json] tag (empty
    when the field has none) and its [validate] tag *)
Record StructField : Type := mkField {
  Name : string;
  json : string;
  validate : list Rule
}.

Definition StructType : Type := list StructField.

(** the value of a struct: the values of its fields, in order *)
Definition Struct : Type := list Value.

(** app/models *)
Definition User : StructType :=
  [mkField "ID" "id" [];
   mkField "Username" "username" [required];
   mkField "FullName" "full_name" [required];
   mkField "Email" "email" [required; email]].

Definition Account : StructType :=
  [mkField "ID" "id" [];
   mkField "UserID" "user_id" [required];
   mkField "Balance" "balance" [required];
   mkField "Currency" "currency" [required; oneof "USD EUR GBP"];
   mkField "Status" "status" []].

Definition Transaction : StructType :=
  [mkField "ID" "transactionId" [required];
   mkField "AccountID" "account_id" [required];
   mkField "Amount" "amount" [required];
   mkField "AmountFloat" EmptyString [];
   mkField "Source" "source" [required; oneof "game server payment"];
   mkField "TransactionType" "state" [required; oneof "win lose"];
   mkField "InsertedAt" "inserted_at" []].

(** A request body: one that the decoder rejects, or a JSON object, given
    by the member that the decoder matches to each field of the struct
    ([None] when the object has none); a member has the kind of its field,
    any other is an error of the decoder. *)
Inductive RequestBody : Type :=
| Undecodable (err : string)
| Object (members : list (option Value)).

Fixpoint assign_members (members : list (option Value)) (v : Struct) : Struct :=
  match members, v with
  | Some x :: members', _ :: v' => x :: assign_members members' v'
  | None :: members', x :: v' => x :: assign_members members' v'
  | _, _ => v
  end.

Definition Decode (body : RequestBody) (reqData : Struct) : Struct * option string :=
  match body with
  | Undecodable err => (reqData, Some err)
  | Object members => (assign_members members reqData, None)
  end.

(** the loop of [isEmptyStruct]: a string that is not empty, an int64 or a
    float64 that is not 0 makes the struct not empty *)
Definition isEmptyStruct (v : Struct) : bool :=
  forallb (fun field =>
             match field with
             | String_ s => String.eqb s EmptyString
             | Int64 n => n =? 0
             | Float64 f => negb (F64.neqb f F64.zero)
             end) v.

(** [strings.Index(s, ",")], or -1 *)
Fixpoint index_comma (s : string) : option nat :=
  match s with
  | EmptyString => None
  | String c s' =>
      if Ascii.eqb c "," then Some O else option_map S (index_comma s')
  end.

Definition getJSONFieldName (structType : StructType) (fieldName : string) : string :=
  match find (fun field => String.eqb (Name field) fieldName) structType with
  | None => ToLower fieldName
  | Some field =>
      let jsonTag := json field in
      if String.eqb jsonTag EmptyString || String.eqb jsonTag "-" then ToLower fieldName
      else
        (* Handle comma-separated json tags like "json:name,omitempty" *)
        match index_comma jsonTag with
        | Some commaIdx => String.substring 0 commaIdx jsonTag
        | None => jsonTag
        end
  end.

(** the values of a oneof parameter, separated by spaces *)
Fixpoint words_from (word : string) (s : string) : list string :=
  match s with
  | EmptyString => if String.eqb word EmptyString then [] else [word]
  | String c s' =>
      if Ascii.eqb c " " then
        if String.eqb word EmptyString then words_from EmptyString s'
        else word :: words_from EmptyString s'
      else words_from (word +:+ String c EmptyString) s'
  end.

Definition words (s : string) : list string := words_from EmptyString s.

Section Validator.

(** the tag email of the validator: a regular expression of the library *)
Variable isEmail : string -> bool.

(** the validator's test of one tag on one field.  required is "not the
    zero value"; email and oneof are on strings in the models. *)
Definition passes (rule : Rule) (value : Value) : bool :=
  match rule, value with
  | required, String_ s => negb (String.eqb s EmptyString)
  | required, Int64 n => negb (n =? 0)
  | required, Float64 f => F64.neqb f F64.zero
  | email, String_ s => isEmail s
  | oneof param, String_ s => existsb (String.eqb s) (words param)
  | _, _ => false
  end.

Definition tag_of (rule : Rule) : string * string :=
  match rule with
  | required => ("required", EmptyString)
  | email => ("email", EmptyString)
  | oneof param => ("oneof", param)
  end.

(** the first tag of the field that fails, if any *)
Fixpoint validate_field (fieldName : string) (rules : list Rule) (value : Value)
  : list Validation.FieldError :=
  match rules with
  | [] => []
  | rule :: rules' =>
      if passes rule value then validate_field fieldName rules' value
      else [Validation.mkFieldError fieldName (fst (tag_of rule)) (snd (tag_of rule))]
  end.

(** [validate.Struct]: the errors of the fields, in the order of the
    struct *)
Fixpoint validate_Struct (structType : StructType) (v : Struct) : list Validation.FieldError :=
  match structType, v with
  | field :: structType', value :: v' =>
      (validate_field (Name field) (validate field) value
       ++ validate_Struct structType' v')%list
  | _, _ => []
  end.

Definition validation_errors (structType : StructType) (errs : list Validation.FieldError)
  : gmap string string :=
  fold_left
    (fun (errors : gmap string string) validationErr =>
       let fieldName := getJSONFieldName structType (Validation.StructField validationErr) in
       <[fieldName := Validation.generateValidationErrorMessage fieldName validationErr]>
         errors)
    errs ∅.

(** returns the boolean, the map of errors, and the struct [reqData]
    points to after the call *)
Definition ValidateBodyWithDetails (structType : StructType) (body : RequestBody)
  (reqData : Struct) : bool * gmap string string * Struct :=
  match Decode body reqData with
  | (reqData', Some err) =>
      (false, {[ "body" := "Invalid JSON format: " +:+ err ]}, reqData')
  | (reqData', None) =>
      if isEmptyStruct reqData' then
        (false, {[ "body" := "Request body cannot be empty" ]}, reqData')
      else
        match validate_Struct structType reqData' with
        | [] => (true, ∅, reqData')
        | errs => (false, validation_errors structType errs, reqData')
        end
  end.

End Validator.

(** [var user models.User], [var accountData models.Account] *)
Definition zeroUser : Struct :=
  [Int64 0; String_ EmptyString; String_ EmptyString; String_ EmptyString].

Definition zeroAccount : Struct :=
  [Int64 0; String_ EmptyString; Float64 F64.zero; String_ EmptyString;
   String_ EmptyString].

(** a [models.Transaction] and the body of a transaction request, seen by
    reflection *)
Definition of_Transaction (t : Models.Transaction) : Struct :=
  [String_ (Models.ID t); Int64 (Models.AccountID t); String_ (Models.Amount t);
   Float64 (Models.AmountFloat t); String_ (Models.Source t);
   String_ (Models.TransactionType t); String_ (Models.InsertedAt t)].

Definition of_body (body : Validation.RequestBody) : RequestBody :=
  match body with
  | Validation.Undecodable err => Undecodable err
  | Validation.Object o =>
      Object [option_map String_ (Validation.json_transactionId o);
              option_map Int64 (Validation.json_account_id o);
              option_map String_ (Validation.json_amount o);
              option_map Float64 (Validation.json_AmountFloat o);
              option_map String_ (Validation.json_source o);
              option_map String_ (Validation.json_state o);
              option_map String_ (Validation.json_inserted_at o)]
  end.

End Reflect.

(** ** The vocabulary of the further properties *)
Module Terms.
Import Helpers Validation Database Api Props.

(** the number that a string of decimal digits writes, read from the left
    on top of [n] *)
Definition digits_from (n : Z) (ds : list ascii) : Z :=
  fold_left (fun n c => n * 10 + (Strconv.byte_of c - Strconv.byte_of "0")) ds n.

Definition decimal_value (ds : list ascii) : Z := digits_from 0 ds.

(** a string without the line feed *)
Fixpoint one_line (p : string) : bool :=
  match p with
  | EmptyString => true
  | String c p' => negb (Ascii.eqb c (ascii_of_nat 10)) && one_line p'
  end.

(** the map of validation errors of a [models.Transaction], field by
    field in the order of the struct: a field gets an entry, under its JSON
    name, for the first of its tags that fails *)
Definition entry_if (failed : bool) (jsonName message : string) (errors : gmap string string)
  : gmap string string :=
  if failed then <[ jsonName := message ]> errors else errors.

Definition required_message (jsonName : string) : string :=
  "The " +:+ jsonName +:+ " field is required".

Definition oneof_message (jsonName param : string) : string :=
  "The " +:+ jsonName +:+ " must be one of: " +:+ param.

Definition field_errors (d : Models.Transaction) : gmap string string :=
  let source_empty := String.eqb (Models.Source d) EmptyString in
  let state_empty := String.eqb (Models.TransactionType d) EmptyString in
  entry_if (negb state_empty && negb (oneof (Models.TransactionType d) ["win"; "lose"]))
    "state" (oneof_message "state" "win lose")
  (entry_if state_empty "state" (required_message "state")
  (entry_if (negb source_empty
             && negb (oneof (Models.Source d) ["game"; "server"; "payment"]))
    "source" (oneof_message "source" "game server payment")
  (entry_if source_empty "source" (required_message "source")
  (entry_if (String.eqb (Models.Amount d) EmptyString) "amount" (required_message "amount")
  (entry_if (Models.AccountID d =? 0) "account_id" (required_message "account_id")
  (entry_if (String.eqb (Models.ID d) EmptyString) "transactionId"
     (required_message "transactionId") ∅)))))).

(** the conditions under which no call to the storage layer fails *)
Definition no_storage_failure (env : Env) : Prop :=
  fail_GetAccountByUser env = None /\ fail_Begin env = None
  /\ fail_CreateTransaction env = None /\ fail_GetAccount env = None
  /\ fail_UpdateAccount env = None /\ fail_Commit env = None
  /\ fail_Rollback env = None.

(** the tables after the apply of [transaction] that sets the balance of
    the account [id] to [balance]: the ledger has the row of the
    transaction at its end *)
Definition applied (env : Env) (transaction : Models.Transaction) (id : Z) (balance : float64)
  (t : Tables) : Tables :=
  mkTables (map (set_balance id balance) (accounts t))
           (transactions t ++ [ledger_row env transaction]).

(** the constraints of the migrations on the tables: the primary keys of
    accounts and of transactions, the foreign key of a ledger row to its
    account, and the CHECKs on the source and the type of a ledger row *)
Definition integrity (t : Tables) : Prop :=
  NoDup (map acc_ID (accounts t))
  /\ NoDup (map txn_ID (transactions t))
  /\ Forall (fun row =>
               (exists a, find_account (txn_AccountID row) t = Some a)
               /\ oneof (txn_Source row) ["game"; "server"; "payment"] = true
               /\ oneof (txn_Type row) ["win"; "lose"] = true)
            (transactions t).

(** the byte of a decimal digit *)
Definition digit_byte (c : Z) : Prop := Ftoa.byte "0" <= c <= Ftoa.byte "9".

(** a string of decimal digits, at least one *)
Definition digit_string (s : string) : Prop :=
  s <> EmptyString /\ forallb Strconv.is_digit (list_ascii_of_string s) = true.

(** a number written with two decimals: an optional minus sign, digits, the
    point and two digits *)
Definition two_decimals (s : string) : Prop :=
  exists (neg : bool) (integer fraction : string),
    s = (if neg then "-" else EmptyString) +:+ integer +:+ "." +:+ fraction
    /\ digit_string integer
    /\ digit_string fraction /\ String.length fraction = 2%nat.

(** the rows are in the order of their ids *)
Definition ordered_by_id (id_le : string -> string -> bool) (rows : list Transaction) : Prop :=
  Sorted (fun a b => id_le (txn_ID a) (txn_ID b) = true) rows.

(** the integer nearest to [num / den], the even one of the two when
    [num / den] is half way; [den] is positive *)
Definition nearest_even (num den : Z) : Z :=
  let q := num / den in
  let r := num mod den in
  if 2 * r <? den then q
  else if den <? 2 * r then q + 1
  else if Z.even q then q else q + 1.

(** the number of hundredths nearest to [m * 2^e] *)
Definition hundredths (m e : Z) : Z :=
  if 0 <=? e then m * 2 ^ e * 100 else nearest_even (m * 100) (2 ^ (- e)).

(** a number of hundredths written with two decimals *)
Definition money (n : Z) : string :=
  Ftoa.string_of_bytes
    (match Ftoa.digits (n / 100) with
     | [] => [Ftoa.byte "0"]
     | ds => ds
     end)
  +:+ "." +:+ Ftoa.string_of_bytes [n mod 100 / 10 + Ftoa.byte "0"; n mod 10 + Ftoa.byte "0"].

(** the digits have no leading zero *)
Definition no_leading_zero (ds : list Z) : Prop :=
  match ds with
  | c :: _ => c <> Ftoa.byte "0"
  | [] => True
  end.

Definition no_trailing_zero (ds : list Z) : Prop := no_leading_zero (rev ds).

(** the decimal [a] is the number [A / 10^B] *)
Definition scaled (a : Ftoa.decimal) (A B : Z) : Prop :=
  0 <= Ftoa.dp a - Ftoa.nd a + B
  /\ Ftoa.digits_value (Ftoa.d a) * 10 ^ (Ftoa.dp a - Ftoa.nd a + B) = A.

End Terms.

(** ** Lemmas and theorems *)

Import Helpers Validation Database Api Props.

(** *** Lemmas on float64 *)

Create HintDb f64 discriminated.

Lemma not_negative_sign_clear (x : float64) : not_negative x <-> sign_clear x.
Proof.
  unfold not_negative, F64.ltb, SFltb, F64.zero.
  destruct x as [s | s | | s m e]; simpl; try tauto; destruct s; simpl; intuition congruence.
Qed.

Lemma binary_round_aux_sign (s : bool) (m e : Z) (l : location) :
  s = false -> sign_clear (binary_round_aux F64.prec F64.emax s m e l).
Proof.
  intros ->. unfold binary_round_aux.
  destruct (shr_fexp F64.prec F64.emax m e l) as [mrs' e'].
  destruct (shr_fexp _ _ _ _ _) as [mrs'' e''].
  destruct (shr_m mrs''); simpl; trivial.
  destruct (_ <=? _); simpl; trivial.
Qed.

Lemma binary_round_sign (s : bool) (m : positive) (e : Z) :
  s = false -> sign_clear (binary_round F64.prec F64.emax s m e).
Proof.
  intros Hs. unfold binary_round.
  destruct (shl_align _ _ _) as [mz ez]. now apply binary_round_aux_sign.
Qed.

Lemma add_sign_clear (x y : float64) :
  sign_clear x -> sign_clear y -> sign_clear (F64.add x y).
Proof.
  unfold F64.add.
  destruct x as [sx | sx | | sx mx ex], y as [sy | sy | | sy my ey]; simpl;
    intros Hx Hy; subst; simpl; trivial.
  - destruct sx, sy; simpl; trivial.
  - unfold binary_normalize.
    destruct (shl_align mx ex (Z.min ex ey)) as [mx' ex'].
    destruct (shl_align my ey (Z.min ex ey)) as [my' ey']. simpl.
    now apply binary_round_sign.
Qed.

Lemma mul_hundred_sign_clear (x : float64) :
  sign_clear x -> sign_clear (F64.mul x hundred).
Proof.
  destruct x as [sx | sx | | sx mx ex]; simpl; intros Hx; subst; trivial.
  now apply binary_round_aux_sign.
Qed.

Lemma div_hundred_sign_clear (x : float64) :
  sign_clear x -> sign_clear (F64.div x hundred).
Proof.
  destruct x as [sx | sx | | sx mx ex]; simpl; intros Hx; subst; trivial.
  unfold F64.div, hundred. change (F64.of_Z 100) with (S754_finite false 7036874417766400 (-46)).
  unfold SFdiv.
  destruct (SFdiv_core_binary _ _ _ _ _ _) as [[mz ez] lz].
  now apply binary_round_aux_sign.
Qed.

Lemma Round_sign_clear (x : float64) : sign_clear x -> sign_clear (F64.Round x).
Proof.
  destruct x as [sx | sx | | sx mx ex]; simpl; trivial.
  intros ->. destruct (0 <=? ex); simpl; trivial.
  destruct (if Z.testbit _ _ then _ else _); simpl; trivial.
  now apply binary_round_sign.
Qed.

Lemma positive_sign_clear (x : float64) : F64.leb x F64.zero = false -> sign_clear x.
Proof.
  unfold F64.leb, SFleb, F64.zero.
  destruct x as [s | s | | s m e]; simpl; trivial; destruct s; simpl; congruence.
Qed.

#[local] Hint Resolve add_sign_clear mul_hundred_sign_clear div_hundred_sign_clear
  Round_sign_clear positive_sign_clear : f64.

(** [x - y] is [x + (-y)] *)
Lemma sub_add_neg (x y : float64) : F64.sub x y = F64.add x (F64.neg y).
Proof.
  unfold F64.sub, F64.add, F64.neg.
  destruct x as [sx | sx | | sx mx ex], y as [sy | sy | | sy my ey]; simpl; trivial;
    destruct sx, sy; reflexivity.
Qed.

Lemma le_zero_not_negative (x : float64) : F64.leb F64.zero x = true -> not_negative x.
Proof.
  unfold not_negative, F64.leb, F64.ltb, SFleb, SFltb, F64.zero.
  destruct x as [s | s | | s m e]; simpl; trivial; destruct s; simpl; congruence.
Qed.

(** *** The amount normalizer *)

Lemma ParseAmount_sign_clear (s : string) (a : float64) :
  ParseAmount s = (a, None) -> sign_clear a.
Proof.
  unfold ParseAmount.
  destruct (String.eqb s EmptyString); [discriminate |].
  destruct (Strconv.ParseFloat s) as [f [e |]]; [discriminate |].
  destruct (F64.leb f F64.zero) eqn:Hle; [discriminate |].
  intros [= <-]. auto with f64.
Qed.

(** TestParseAmount and TestValidateAndParseTransactionAmount: the expected
    amount of a test is the float64 that its Go literal denotes, here by
    its mantissa and exponent (123.45 is 8687021468732621 * 2^-46, the
    bits 0x405EDCCCCCCCCCCD) *)
Example ParseAmount_valid :
  ParseAmount "123.45" = (S754_finite false 8687021468732621 (-46), None)
  /\ ParseAmount "100" = (F64.of_Z 100, None)
  /\ ParseAmount "100.50" = (S754_finite false 7072058789855232 (-46), None)
  /\ ParseAmount "999999.99" = (S754_finite false 8589934506100654 (-33), None).
Proof. repeat split; vm_compute; reflexivity. Qed.

Example ParseAmount_invalid :
  ParseAmount "abc" = (F64.zero, Some ErrInvalidAmount)
  /\ ParseAmount "-50.00" = (F64.zero, Some ErrAmountMustBePositive)
  /\ ParseAmount "0" = (F64.zero, Some ErrAmountMustBePositive)
  /\ ParseAmount "0.00" = (F64.zero, Some ErrAmountMustBePositive)
  /\ ParseAmount EmptyString = (F64.zero, Some ErrInvalidAmount).
Proof. repeat split; vm_compute; reflexivity. Qed.

(** TestValidateID *)
Example ValidateID_tests :
  ValidateID "123" = (123, None)
  /\ ValidateID EmptyString = (0, Some ErrInvalidID)
  /\ ValidateID "abc" = (0, Some ErrInvalidID)
  /\ ValidateID "0" = (0, Some ErrInvalidID)
  /\ ValidateID "-1" = (0, Some ErrInvalidID).
Proof. repeat split; vm_compute; reflexivity. Qed.

(** the rounding of the spec (8): the float64 of 10.155 is just below
    10.155, its product by 100 rounds to 1015, and the amount is the
    float64 of 10.15, 5713942027226317 * 2^-49 *)
Example ParseAmount_rounding :
  ParseAmount "10.155" = (S754_finite false 5713942027226317 (-49), None)
  /\ Strconv.ParseFloat "10.15" = (S754_finite false 5713942027226317 (-49), None).
Proof. split; vm_compute; reflexivity. Qed.

(** amounts that are not numbers pass the guard [amount <= 0] *)
Example ParseAmount_NaN : ParseAmount "NaN" = (F64.NaN, None).
Proof. vm_compute. reflexivity. Qed.

Example ParseAmount_Inf : ParseAmount "Inf" = (F64.Inf false, None).
Proof. vm_compute. reflexivity. Qed.

(** *** Lemmas on the tables *)

Lemma set_balance_ID (id : Z) (b : float64) (a : Account) :
  acc_ID (set_balance id b a) = acc_ID a.
Proof. unfold set_balance. now destruct (acc_ID a =? id). Qed.

Lemma find_set_balance (id id' : Z) (b : float64) (l : list Account) :
  find (fun a => acc_ID a =? id) (map (set_balance id' b) l)
  = option_map (set_balance id' b) (find (fun a => acc_ID a =? id) l).
Proof.
  induction l as [| a l IH]; simpl; [reflexivity |].
  rewrite set_balance_ID. now destruct (acc_ID a =? id).
Qed.

Lemma find_account_ID (id : Z) (t : Tables) (a : Account) :
  find_account id t = Some a -> acc_ID a = id.
Proof.
  unfold find_account. intros H. apply find_some in H as [_ H]. lia.
Qed.

Lemma oneof_win_lose (ty : string) :
  oneof ty ["win"; "lose"] = true -> ty = "win" \/ ty = "lose".
Proof.
  unfold oneof. simpl. rewrite orb_false_r, orb_true_iff, !String.eqb_eq. tauto.
Qed.

(** *** The atomic unit *)

Section AtomicUnit.

Variable env : Env.

Lemma Rollback_committed (db : DB) :
  committed (fst (Rollback env db)) = committed db.
Proof.
  unfold Rollback. destruct (fail_Rollback env); [reflexivity |].
  now destruct (pending db).
Qed.

Lemma exec_OnTx_committed {A : Type} (failure : option error) (zero : A)
  (stmt : Tables -> Tables * (A * option error)) (db : DB) :
  committed (fst (exec OnTx failure zero stmt db)) = committed db.
Proof.
  unfold exec. destruct failure; [reflexivity |].
  destruct (pending db); [| reflexivity]. now destruct (stmt t).
Qed.

Lemma createTransactionInTx_committed (tr : Models.Transaction) (db : DB) :
  committed (fst (createTransactionInTx env OnTx tr db)) = committed db.
Proof. apply exec_OnTx_committed. Qed.

Lemma exec_OnTx_inv {A : Type} (failure : option error) (zero : A)
  (stmt : Tables -> Tables * (A * option error)) (db db' : DB) (r : A * option error) :
  exec OnTx failure zero stmt db = (db', r) -> committed db' = committed db.
Proof.
  intros H. rewrite <- (exec_OnTx_committed failure zero stmt db). now rewrite H.
Qed.

Lemma updateBalanceInTx_committed (id : Z) (amount : float64) (ty : string)
  (db : DB) :
  committed (fst (updateBalanceInTx env OnTx id amount ty db)) = committed db.
Proof.
  unfold updateBalanceInTx. cbv zeta.
  destruct (GetAccount env OnTx id db) as [db1 [acct oe]] eqn:H1.
  apply exec_OnTx_inv in H1.
  destruct oe as [e |]; simpl; [assumption |].
  match goal with
  | |- context [match (if ?b then ?x else ?y) with _ => _ end] =>
      destruct (if b then x else y) as [nb [e |]]
  end; simpl; [assumption |].
  destruct (UpdateAccount env OnTx _ db1) as [db2 [acct2 oe2]] eqn:H2.
  apply exec_OnTx_inv in H2.
  destruct oe2; simpl; congruence.
Qed.

Lemma createAndUpdate_committed (tr : Models.Transaction) (a : Account) (db : DB) :
  committed (fst (createAndUpdate env tr a OnTx db)) = committed db.
Proof.
  unfold createAndUpdate.
  pose proof (createTransactionInTx_committed tr db) as H1.
  destruct (createTransactionInTx env OnTx tr db) as [db1 [row [e |]]]; simpl in *;
    [assumption |].
  pose proof (updateBalanceInTx_committed (acc_ID a) (Models.AmountFloat tr)
                (Models.TransactionType tr) db1) as H2.
  destruct (updateBalanceInTx _ _ _ _ _ db1) as [db2 [acct [e |]]]; simpl in *; congruence.
Qed.

Lemma with_tables_same (q : Queries) (db : DB) (t : Tables) :
  tables_of q db = Some t -> with_tables q db t = db.
Proof.
  destruct db as [c p], q; simpl; intros H; congruence.
Qed.

Lemma tables_of_with_tables (q : Queries) (db : DB) (t : Tables) :
  tables_of q (with_tables q db t) = Some t.
Proof. now destruct q. Qed.

Lemma exec_inv {A : Type} (q : Queries) (failure : option error) (zero : A)
  (stmt : Tables -> Tables * (A * option error)) (db db' : DB) (v : A) :
  exec q failure zero stmt db = (db', (v, None)) ->
  failure = None
  /\ exists t t' : Tables,
       tables_of q db = Some t /\ stmt t = (t', (v, None)) /\ db' = with_tables q db t'.
Proof.
  unfold exec. destruct failure; [discriminate |].
  destruct q; simpl.
  - destruct (stmt (committed db)) as [t' r] eqn:Hs. intros [= <- ->].
    split; [reflexivity |]. exists (committed db), t'. auto.
  - destruct (pending db) as [w |]; [| discriminate].
    destruct (stmt w) as [t' r] eqn:Hs. intros [= <- ->].
    split; [reflexivity |]. exists w, t'. auto.
Qed.

Lemma createTransactionInTx_ok (q : Queries) (tr : Models.Transaction)
  (db db' : DB) (row : Transaction) :
  createTransactionInTx env q tr db = (db', (row, None)) ->
  exists t : Tables,
    tables_of q db = Some t
    /\ oneof (Models.Source tr) ["game"; "server"; "payment"] = true
    /\ oneof (Models.TransactionType tr) ["win"; "lose"] = true
    /\ find_transaction (Models.ID tr) t = None
    /\ (exists a, find_account (Models.AccountID tr) t = Some a)
    /\ row = ledger_row env tr
    /\ db' = with_tables q db (mkTables (accounts t) (transactions t ++ [row])).
Proof.
  unfold createTransactionInTx, CreateTransaction. intros H.
  apply exec_inv in H as (_ & t & t' & Ht & Hs & ->).
  exists t. split; [assumption |].
  unfold insert_transaction in Hs.
  cbn -[oneof find_transaction find_account] in Hs.
  destruct (oneof (Models.Source tr) _) eqn:Hsrc; [| discriminate].
  destruct (oneof (Models.TransactionType tr) _) eqn:Hty; [| discriminate].
  destruct (find_transaction (Models.ID tr) t) eqn:Hfresh; [discriminate |].
  destruct (find_account (Models.AccountID tr) t) eqn:Hfk; [| discriminate].
  cbn -[oneof find_transaction find_account] in Hs.
  injection Hs as <- <-. unfold ledger_row. eauto 10.
Qed.

Lemma updateBalanceInTx_ok (q : Queries) (id : Z) (amount : float64)
  (ty : string) (db db' : DB) (acct : Account) :
  updateBalanceInTx env q id amount ty db = (db', (acct, None)) ->
  exists (t : Tables) (before : Account) (nb : float64),
    tables_of q db = Some t
    /\ find_account id t = Some before
    /\ (((ty = "win" \/ ty = "deposit") /\ nb = F64.add (acc_Balance before) amount)
        \/ ((ty = "lose" \/ ty = "withdrawal")
            /\ nb = F64.sub (acc_Balance before) amount
            /\ F64.ltb nb F64.zero = false))
    /\ db' = with_tables q db (mkTables (map (set_balance id nb) (accounts t)) (transactions t))
    /\ acct = set_balance id nb before.
Proof.
  intros Hres. unfold updateBalanceInTx in Hres. cbv zeta in Hres.
  destruct (GetAccount env q id db) as [db1 [account oe]] eqn:H1.
  destruct oe as [e |]; [discriminate |].
  unfold GetAccount in H1. apply exec_inv in H1 as (_ & t & t' & Ht & Hs & ->).
  unfold select_account in Hs.
  destruct (find_account id t) as [before |] eqn:Hacc; [| discriminate].
  injection Hs as <- <-. rewrite (with_tables_same _ _ _ Ht) in Hres.
  assert (Hupd : forall nb : float64,
    match UpdateAccount env q (mkUpdateAccountParams id nb) db with
    | (db2, (_, Some err)) => (db2, (zeroAccount, Some err))
    | (db2, (updatedAccount, None)) => (db2, (updatedAccount, None))
    end = (db', (acct, None)) ->
    db' = with_tables q db (mkTables (map (set_balance id nb) (accounts t)) (transactions t))
    /\ acct = set_balance id nb before).
  { intros nb Hu. destruct (UpdateAccount env q _ db) as [db2 [acct2 oe2]] eqn:H2.
    destruct oe2; [discriminate |]. injection Hu as <- <-.
    unfold UpdateAccount in H2. apply exec_inv in H2 as (_ & t2 & t2' & Ht2 & Hs2 & ->).
    rewrite Ht in Ht2. injection Ht2 as <-.
    unfold update_account in Hs2. simpl in Hs2. rewrite Hacc in Hs2.
    injection Hs2 as <- <-. auto. }
  exists t, before.
  destruct (String.eqb ty "win" || String.eqb ty "deposit") eqn:Hw.
  - apply Hupd in Hres as [-> ->].
    exists (F64.add (acc_Balance before) amount).
    rewrite orb_true_iff, !String.eqb_eq in Hw. auto 10.
  - destruct (String.eqb ty "lose" || String.eqb ty "withdrawal") eqn:Hl; [| discriminate].
    destruct (F64.ltb (F64.sub (acc_Balance before) amount) F64.zero) eqn:Hlt; [discriminate |].
    apply Hupd in Hres as [-> ->].
    exists (F64.sub (acc_Balance before) amount).
    rewrite orb_true_iff, !String.eqb_eq in Hl. auto 10.
Qed.

Lemma Commit_ok (db db' : DB) :
  Commit env db = (db', None) -> pending db = Some (committed db') /\ pending db' = None.
Proof.
  unfold Commit. destruct (fail_Commit env); [discriminate |].
  destruct (pending db); [| discriminate]. now intros [= <-].
Qed.

Lemma Begin_spec (db : DB) :
  Begin env db = (mkDB (committed db) (Some (committed db)), None)
  \/ exists err, Begin env db = (db, Some err).
Proof. unfold Begin. destruct (fail_Begin env); eauto. Qed.

Lemma createAndUpdate_ok (tr : Models.Transaction) (a : Account)
  (c : Tables) (db' : DB) :
  createAndUpdate env tr a OnTx (mkDB c (Some c)) = (db', None) ->
  exists t' : Tables, db' = mkDB c (Some t') /\ both_applied env tr a c t'.
Proof.
  unfold createAndUpdate.
  destruct (createTransactionInTx env OnTx tr _) as [db1 [row oe]] eqn:H1.
  destruct oe; [discriminate |].
  apply createTransactionInTx_ok in H1 as (t & Ht & Hsrc & Hty & Hfresh & Hfk & -> & ->).
  simpl in Ht. injection Ht as <-. simpl.
  destruct (updateBalanceInTx _ _ _ _ _ _) as [db2 [acct oe]] eqn:H2.
  destruct oe; [discriminate |]. intros [= <-].
  apply updateBalanceInTx_ok in H2 as (t & before & nb & Ht & Hacc & Hnb & -> & _).
  simpl in Ht. injection Ht as <-. simpl.
  eexists. split; [reflexivity |].
  unfold both_applied. simpl. split; [assumption |]. split; [reflexivity |].
  apply oneof_win_lose in Hty as Hcases. split; [assumption |].
  exists before. split; [exact Hacc |].
  destruct Hnb as [[Hw ->] | [Hl [-> Hlt]]].
  - destruct Hw as [Hw | Hw]; [| destruct Hcases; congruence].
    rewrite Hw. split; [reflexivity | discriminate].
  - destruct Hl as [Hl | Hl]; [| destruct Hcases; congruence].
    rewrite Hl. rewrite sub_add_neg in *. split; [reflexivity | intros _; exact Hlt].
Qed.

Lemma unit_spec (tr : Models.Transaction) (a : Account) (db : DB) :
  match runInTx env db (createAndUpdate env tr a) with
  | (db', None) => both_applied env tr a (committed db) (committed db')
  | (db', Some _) => committed db' = committed db
  end.
Proof.
  unfold runInTx.
  destruct (Begin_spec db) as [-> | [err ->]]; [| reflexivity].
  unfold WithTx.
  destruct (createAndUpdate env tr a OnTx _) as [db2 [err |]] eqn:Hbody.
  - pose proof (createAndUpdate_committed tr a (mkDB (committed db) (Some (committed db))))
      as Hc.
    rewrite Hbody in Hc. simpl in Hc.
    pose proof (Rollback_committed db2) as Hr.
    destruct (Rollback env db2) as [db3 [rollbackErr |]]; simpl in *; congruence.
  - apply createAndUpdate_ok in Hbody as (t' & -> & Hboth).
    destruct (Commit env _) as [db3 [err |]] eqn:Hcommit.
    + unfold Commit in Hcommit. destruct (fail_Commit env); simpl in Hcommit; [| discriminate].
      now injection Hcommit as <- _.
    + apply Commit_ok in Hcommit as [Hp _]. simpl in Hp. now injection Hp as <-.
Qed.

End AtomicUnit.

(** *** The handler *)

Lemma HandleAPIError_failed (err : error) : succeeded (HandleAPIError err) = false.
Proof. now destruct err. Qed.

Lemma HandleDatabaseError_failed (err : error) (entityType : string) :
  succeeded (HandleDatabaseError err entityType) = false.
Proof.
  unfold HandleDatabaseError.
  repeat match goal with |- context [if ?b then _ else _] => destruct b end; reflexivity.
Qed.

Lemma GetAccountByUser_db (env : Env) (userID : Z) (db : DB) :
  fst (GetAccountByUser env userID db) = db.
Proof.
  unfold GetAccountByUser, Database.GetAccountByUser, exec, select_account_by_user.
  destruct (fail_GetAccountByUser env); [reflexivity |].
  destruct db as [c p]. simpl. now destruct (find _ _).
Qed.

Lemma handler_prepared (env : Env) (r : Request) (db : DB) (userID : Z) (account : Account)
  (tr : Models.Transaction) :
  prepared env r db = Some (userID, account, tr) ->
  CreateTransactionHandler env r db =
  match runInTx env db (createAndUpdate env tr account) with
  | (db2, Some err) => (db2, HandleDatabaseError err "Transaction")
  | (db2, None) =>
      (db2, RespondSuccess "Transaction created successfully" (responseData userID tr))
  end.
Proof.
  unfold prepared, CreateTransactionHandler.
  destruct (ValidateID (userId r)) as [uid [e |]]; [discriminate |].
  pose proof (GetAccountByUser_db env uid db) as Hdb.
  destruct (GetAccountByUser env uid db) as [db1 [acct [e |]]]; [discriminate |].
  simpl in Hdb. subst db1. unfold prefilled.
  destruct (ValidateBodyWithDetails _ _) as [[[|] errs] decoded]; [| discriminate].
  destruct (validateAndParseTransactionAmount decoded) as [tr' [e |]]; [discriminate |].
  now intros [= -> -> ->].
Qed.

Lemma handler_not_prepared (env : Env) (r : Request) (db : DB) :
  prepared env r db = None ->
  fst (CreateTransactionHandler env r db) = db
  /\ succeeded (snd (CreateTransactionHandler env r db)) = false.
Proof.
  unfold prepared, CreateTransactionHandler.
  destruct (ValidateID (userId r)) as [uid [e |]];
    [intros _; split; [reflexivity | apply HandleAPIError_failed] |].
  pose proof (GetAccountByUser_db env uid db) as Hdb.
  destruct (GetAccountByUser env uid db) as [db1 [acct [e |]]]; simpl in Hdb; subst db1;
    [intros _; split; [reflexivity | apply HandleDatabaseError_failed] |].
  unfold prefilled.
  destruct (ValidateBodyWithDetails _ _) as [[[|] errs] decoded];
    [| intros _; split; reflexivity].
  destruct (validateAndParseTransactionAmount decoded) as [tr' [e |]]; [| discriminate].
  intros _; split; [reflexivity | apply HandleAPIError_failed].
Qed.

(** every request either leaves the committed tables as they were and is
    answered with a failure, or is answered with the success payload and
    both effects are committed *)
Lemma handler_spec (env : Env) (r : Request) (db : DB) :
  (succeeded (snd (CreateTransactionHandler env r db)) = false
   /\ committed (fst (CreateTransactionHandler env r db)) = committed db)
  \/ (exists (userID : Z) (account : Account) (tr : Models.Transaction),
        prepared env r db = Some (userID, account, tr)
        /\ snd (CreateTransactionHandler env r db)
           = RespondSuccess "Transaction created successfully" (responseData userID tr)
        /\ both_applied env tr account (committed db)
             (committed (fst (CreateTransactionHandler env r db)))).
Proof.
  destruct (prepared env r db) as [[[userID account] tr] |] eqn:Hprep.
  - rewrite (handler_prepared _ _ _ _ _ _ Hprep).
    pose proof (unit_spec env tr account db) as Hunit.
    destruct (runInTx env db _) as [db2 [err |]]; simpl.
    + left. split; [apply HandleDatabaseError_failed | assumption].
    + right. exists userID, account, tr. auto.
  - left. apply handler_not_prepared in Hprep as [-> ->]. auto.
Qed.

(** what [prepared] hands to the atomic unit *)
Lemma prepared_inv (env : Env) (r : Request) (db : DB) (userID : Z) (account : Account)
  (tr : Models.Transaction) :
  prepared env r db = Some (userID, account, tr) ->
  exists decoded : Models.Transaction,
    ValidateID (userId r) = (userID, None)
    /\ fail_GetAccountByUser env = None
    /\ find (fun a => acc_UserID a =? userID) (accounts (committed db)) = Some account
    /\ ValidateBodyWithDetails (body r) (prefilled account r) = (true, ∅, decoded)
    /\ ParseAmount (Models.Amount decoded) = (Models.AmountFloat tr, None)
    /\ Models.ID tr = Models.ID decoded
    /\ Models.AccountID tr = Models.AccountID decoded
    /\ Models.Source tr = Models.Source decoded
    /\ Models.TransactionType tr = Models.TransactionType decoded.
Proof.
  unfold prepared.
  destruct (ValidateID (userId r)) as [uid [e |]]; [discriminate |].
  unfold GetAccountByUser, Database.GetAccountByUser, exec, select_account_by_user.
  destruct (fail_GetAccountByUser env); [discriminate |]. simpl.
  destruct (find _ _) as [acct |] eqn:Hfind; [| discriminate]. simpl.
  destruct (ValidateBodyWithDetails _ _) as [[[|] errs] decoded] eqn:Hv; [| discriminate].
  unfold validateAndParseTransactionAmount.
  destruct (ParseAmount (Models.Amount decoded)) as [amount [e |]] eqn:Hp; [discriminate |].
  intros [= -> -> <-]. exists decoded. simpl.
  assert (errs = ∅) as ->.
  { unfold ValidateBodyWithDetails in Hv.
    destruct (Decode _ _) as [d [e |]]; [discriminate |].
    destruct (isEmptyStruct d); [discriminate |].
    destruct (validate_Struct d); [| discriminate]. now injection Hv as <- _. }
  auto 10.
Qed.

(** the route of [StartServer]: the middleware lets the handler run, or
    answers 403 and leaves the database *)
Lemma serveTransaction_spec (env : Env) (r : Request) (db : DB) :
  serveTransaction env r db = CreateTransactionHandler env r db
  \/ (IsValidSource (SourceType r) = false
      /\ fst (serveTransaction env r db) = db
      /\ StatusCode (snd (serveTransaction env r db)) = StatusForbidden).
Proof.
  unfold serveTransaction, SourceHeaderMatcher.
  destruct (IsValidSource (SourceType r)); simpl; auto.
Qed.

(** a request that reaches the atomic unit has type win or lose: the
    other types stop at the validation of the body *)
Lemma prepared_type (env : Env) (r : Request) (db : DB) (u : Z) (a : Account)
  (tr : Models.Transaction) :
  prepared env r db = Some (u, a, tr) ->
  Models.TransactionType tr = "win" \/ Models.TransactionType tr = "lose".
Proof.
  intros Hprep.
  apply prepared_inv in Hprep as (d & _ & _ & _ & Hv & _ & _ & _ & _ & ->).
  unfold ValidateBodyWithDetails in Hv.
  destruct (Decode _ _) as [d' [e |]]; [discriminate |].
  destruct (isEmptyStruct d'); [discriminate |].
  destruct (validate_Struct d') eqn:Hvs; [| discriminate].
  injection Hv as <-. unfold validate_Struct in Hvs.
  repeat (apply app_eq_nil in Hvs as [_ Hvs]).
  unfold validate_string in Hvs.
  destruct (String.eqb (Models.TransactionType d') EmptyString); [discriminate |].
  destruct (oneof _ _) eqn:Ho; [| discriminate].
  unfold oneof in Ho. simpl in Ho.
  rewrite orb_false_r, orb_true_iff, !String.eqb_eq in Ho. exact Ho.
Qed.

(** the end-to-end scenario of the spec (8): 50.00, then 30.00, then the
    rejection of the duplicate with the balance still 30.00 *)
Example scenario_end_to_end :
  map StatusCode (snd (serve scenario migrated)) = [200; 200; 409]
  /\ balance_of 1 (fst (serve (firstn 1 scenario) migrated)) = Some (F64.of_Z 50)
  /\ balance_of 1 (fst (serve (firstn 2 scenario) migrated)) = Some (F64.of_Z 30)
  /\ balance_of 1 (fst (serve scenario migrated)) = Some (F64.of_Z 30).
Proof. repeat split; vm_compute; reflexivity. Qed.

(** overdraft protection of the spec (8): balance 5.00, lose 10.00 *)
Example overdraft_rejected :
  CreateTransactionHandler quiet (post "7" "t1" "10.00" "lose") funded
  = (funded,
     RespondError StatusBadRequest "User balance is insufficient for this transaction").
Proof. vm_compute. reflexivity. Qed.

(** atomicity under failure of the spec (8): the ledger append succeeds
    and the balance update is made to fail; neither the ledger row nor the
    balance change is there afterwards *)
Example atomicity_under_failure :
  CreateTransactionHandler update_fails (post "7" "t1" "1.00" "win") funded
  = (funded, RespondError StatusServiceUnavailable "Database temporarily unavailable")
  /\ snd (snd (createTransactionInTx update_fails OnTx
                 (Models.mkTransaction "t1" 10 "1.00" (F64.of_Z 1) "game" "win" EmptyString)
                 (mkDB (committed funded) (Some (committed funded))))) = None.
Proof. split; vm_compute; reflexivity. Qed.

(** *** C1 *)

Lemma balance_of_inv (id : Z) (db : DB) (b : float64) :
  balance_of id db = Some b ->
  exists a, find_account id (committed db) = Some a /\ acc_Balance a = b.
Proof.
  unfold balance_of. destruct (find_account id (committed db)) as [a |]; [| discriminate].
  intros [= <-]. eauto.
Qed.

Lemma signed_win (x : float64) : signed "win" x = x.
Proof. reflexivity. Qed.

(** one request moves the balance of an account by the signed amount it
    commits against the account, and by nothing otherwise *)
Lemma handler_balance (env : Env) (r : Request) (db : DB) (id : Z) (b : float64) :
  balance_of id db = Some b ->
  not_negative b ->
  let b' := match committed_against id env r db with
            | Some x => F64.add b x
            | None => b
            end in
  balance_of id (fst (CreateTransactionHandler env r db)) = Some b' /\ not_negative b'.
Proof.
  intros Hb Hnn. unfold committed_against.
  destruct (handler_spec env r db) as [[Hfail Hsame] | (u & account & tr & Hprep & Hresp & Hboth)].
  - rewrite Hfail. simpl. split; [| assumption].
    unfold balance_of in *. now rewrite Hsame.
  - rewrite Hresp, Hprep. simpl.
    destruct Hboth as (_ & _ & Hty & before & Hbefore & Haccs & Hlose).
    apply balance_of_inv in Hb as (a0 & Ha0 & Hbal).
    assert (Hfind : find_account id (committed (fst (CreateTransactionHandler env r db)))
                    = option_map (set_balance (acc_ID account)
                        (F64.add (acc_Balance before)
                           (signed (Models.TransactionType tr) (Models.AmountFloat tr))))
                        (Some a0)).
    { unfold find_account in *. rewrite Haccs, find_set_balance. now rewrite Ha0. }
    unfold balance_of. rewrite Hfind. simpl.
    apply find_account_ID in Ha0 as Hid. unfold set_balance. rewrite Hid.
    destruct (acc_ID account =? id) eqn:Heq.
    + apply Z.eqb_eq in Heq. rewrite Z.eqb_sym, (proj2 (Z.eqb_eq _ _) Heq). simpl.
      rewrite Heq in Hbefore. rewrite Hbefore in Ha0. injection Ha0 as ->.
      rewrite Hbal in *. split; [reflexivity |].
      destruct Hty as [Hw | Hl]; [| auto].
      rewrite Hw, signed_win.
      apply not_negative_sign_clear, add_sign_clear.
      * now apply not_negative_sign_clear.
      * apply prepared_inv in Hprep as (decoded & _ & _ & _ & _ & Hamount & _).
        now apply ParseAmount_sign_clear in Hamount.
    + rewrite Z.eqb_sym, Heq. simpl. now rewrite Hbal.
Qed.

Lemma serve_cons (env : Env) (r : Request) (reqs : list (Env * Request)) (db : DB) :
  fst (serve ((env, r) :: reqs) db)
  = fst (serve reqs (fst (CreateTransactionHandler env r db))).
Proof.
  simpl. destruct (CreateTransactionHandler env r db) as [db1 resp]. simpl.
  now destruct (serve reqs db1).
Qed.

Lemma serve_balance (reqs : list (Env * Request)) :
  forall (db : DB) (id : Z) (initial : float64),
    balance_of id db = Some initial ->
    not_negative initial ->
    balance_of id (fst (serve reqs db))
    = Some (fold_left F64.add (committed_amounts id reqs db) initial)
    /\ not_negative (fold_left F64.add (committed_amounts id reqs db) initial).
Proof.
  induction reqs as [| [env r] reqs IH]; intros db id initial Hb Hnn.
  - simpl. auto.
  - rewrite serve_cons.
    destruct (handler_balance env r db id initial Hb Hnn) as [Hb' Hnn'].
    specialize (IH _ _ _ Hb' Hnn'). simpl committed_amounts.
    destruct (committed_against id env r db); exact IH.
Qed.



(** *** C2 *)

Lemma succeeded_RespondSuccess (message : string) (data : gmap string JSON) :
  succeeded (RespondSuccess message data) = true.
Proof. reflexivity. Qed.

(** C2.  Every apply of a transaction request either appends the ledger
    row and updates the balance, both, and answers with success, or does
    neither and answers with a failure.  A failure of any step of the
    atomic unit (the ledger append, the balance update, the commit, under
    any failure of the storage layer) leaves the committed tables exactly
    as they were; and while the unit runs, after the ledger append alone
    and after the whole function literal, the committed tables that other
    connections read are still those before the call. *)
Theorem C2_all_or_nothing (env : Env) (r : Request) (db : DB)
  (tr : Models.Transaction) (account : Account) :
  ((succeeded (snd (CreateTransactionHandler env r db)) = false
    /\ committed (fst (CreateTransactionHandler env r db)) = committed db)
   \/ (succeeded (snd (CreateTransactionHandler env r db)) = true
       /\ exists (userID : Z) (account : Account) (tr : Models.Transaction),
            prepared env r db = Some (userID, account, tr)
            /\ both_applied env tr account (committed db)
                 (committed (fst (CreateTransactionHandler env r db)))))
  /\ match runInTx env db (createAndUpdate env tr account) with
     | (db', Some _) => committed db' = committed db
     | (db', None) => both_applied env tr account (committed db) (committed db')
     end
  /\ committed (fst (createTransactionInTx env OnTx tr db)) = committed db
  /\ committed (fst (createAndUpdate env tr account OnTx db)) = committed db.
Proof.
  split; [| split; [| split]].
  - destruct (handler_spec env r db) as [H | (u & a & t & Hprep & Hresp & Hboth)].
    + now left.
    + right. rewrite Hresp. split; [reflexivity |]. eauto.
  - pose proof (unit_spec env tr account db) as H.
    now destruct (runInTx env db _) as [db' [err |]].
  - apply createTransactionInTx_committed.
  - apply createAndUpdate_committed.
Qed.

(** *** C3 *)

Lemma find_app_last {A : Type} (f : A -> bool) (l : list A) (x : A) :
  f x = true -> find f (l ++ [x]) <> None.
Proof.
  intros Hx. induction l as [| y l IH]; simpl.
  - now rewrite Hx.
  - now destruct (f y).
Qed.

Lemma find_app_old {A : Type} (f : A -> bool) (l l' : list A) (y : A) :
  find f l = Some y -> find f (l ++ l') = Some y.
Proof.
  induction l as [| z l IH]; simpl; [discriminate |].
  now destruct (f z).
Qed.

Lemma ValidateBodyWithDetails_decoded (b : RequestBody) (t d : Models.Transaction)
  (ok : bool) (errs : gmap string string) :
  ValidateBodyWithDetails b t = (ok, errs, d) -> d = fst (Decode b t).
Proof.
  unfold ValidateBodyWithDetails.
  destruct (Decode b t) as [d' [e |]]; simpl; [now intros [= _ _ <-] |].
  destruct (isEmptyStruct d'); [now intros [= _ _ <-] |].
  destruct (validate_Struct d'); now intros [= _ _ <-].
Qed.

Lemma validate_string_nil (field v : string) (allowed : option (string * list string)) :
  validate_string field v allowed = [] ->
  v <> EmptyString
  /\ match allowed with
     | Some (_, values) => oneof v values = true
     | None => True
     end.
Proof.
  unfold validate_string.
  destruct (String.eqb v EmptyString) eqn:Hv; [discriminate |].
  apply String.eqb_neq in Hv. intros H. split; [assumption |].
  destruct allowed as [[param values] |]; [| trivial].
  now destruct (oneof v values).
Qed.

Lemma ValidateBodyWithDetails_valid (b : RequestBody) (t d : Models.Transaction)
  (errs : gmap string string) :
  ValidateBodyWithDetails b t = (true, errs, d) ->
  Models.ID d <> EmptyString
  /\ Models.AccountID d <> 0
  /\ Models.Amount d <> EmptyString
  /\ oneof (Models.Source d) ["game"; "server"; "payment"] = true
  /\ oneof (Models.TransactionType d) ["win"; "lose"] = true.
Proof.
  intros H. pose proof (ValidateBodyWithDetails_decoded _ _ _ _ _ H) as Hd.
  unfold ValidateBodyWithDetails in H. rewrite (surjective_pairing (Decode b t)) in H.
  rewrite <- Hd in H.
  destruct (snd (Decode b t)); [discriminate |].
  destruct (isEmptyStruct d); [discriminate |].
  destruct (validate_Struct d) eqn:Hv; [| discriminate].
  unfold validate_Struct in Hv.
  apply app_eq_nil in Hv as [H1 Hv]. apply app_eq_nil in Hv as [H2 Hv].
  apply app_eq_nil in Hv as [H3 Hv]. apply app_eq_nil in Hv as [H4 H5].
  apply validate_string_nil in H1 as [H1 _], H3 as [H3 _], H4 as [_ H4], H5 as [_ H5].
  destruct (Models.AccountID d =? 0) eqn:Hz; [discriminate |].
  apply Z.eqb_neq in Hz. auto.
Qed.

(** the transaction id of a request does not depend on the state *)
Lemma prepared_ID (env env' : Env) (r : Request) (db db' : DB) (u u' : Z)
  (a a' : Account) (tr tr' : Models.Transaction) :
  prepared env r db = Some (u, a, tr) ->
  prepared env' r db' = Some (u', a', tr') ->
  Models.ID tr = Models.ID tr'.
Proof.
  intros H H'.
  apply prepared_inv in H as (d & _ & _ & _ & Hv & _ & -> & _).
  apply prepared_inv in H' as (d' & _ & _ & _ & Hv' & _ & -> & _).
  apply ValidateBodyWithDetails_decoded in Hv, Hv'. subst d d'.
  now destruct (body r).
Qed.

Lemma both_applied_in_ledger (env : Env) (tr : Models.Transaction) (a : Account)
  (t t' : Tables) :
  both_applied env tr a t t' -> find_transaction (Models.ID tr) t' <> None.
Proof.
  intros (_ & Hl & _). unfold find_transaction. rewrite Hl.
  apply find_app_last. simpl. apply String.eqb_refl.
Qed.

(** a request whose transaction id is in the ledger commits nothing *)
Lemma duplicate_fails (env : Env) (r : Request) (db : DB) :
  (forall u a tr, prepared env r db = Some (u, a, tr) ->
                  find_transaction (Models.ID tr) (committed db) <> None) ->
  succeeded (snd (CreateTransactionHandler env r db)) = false
  /\ committed (fst (CreateTransactionHandler env r db)) = committed db.
Proof.
  intros Hdup.
  destruct (handler_spec env r db) as [H | (u & a & tr & Hprep & _ & Hfresh & _)];
    [assumption |].
  now apply Hdup in Hprep.
Qed.

Lemma find_user_set_balance (u id : Z) (b : float64) (l : list Account) :
  find (fun a => acc_UserID a =? u) (map (set_balance id b) l)
  = option_map (set_balance id b) (find (fun a => acc_UserID a =? u) l).
Proof.
  induction l as [| a l IH]; simpl; [reflexivity |].
  replace (acc_UserID (set_balance id b a)) with (acc_UserID a)
    by (unfold set_balance; now destruct (acc_ID a =? id)).
  now destruct (acc_UserID a =? u).
Qed.

Lemma prefilled_set_balance (id : Z) (b : float64) (a : Account) (r : Request) :
  prefilled (set_balance id b a) r = prefilled a r.
Proof. unfold prefilled. now rewrite set_balance_ID. Qed.

Lemma duplicate_is_conflict (tail : string) :
  HandleDatabaseError (ForeignError (Error unique_violation +:+ tail)) "Transaction"
  = RespondError StatusConflict "Transaction already exists".
Proof. reflexivity. Qed.

Lemma HandleDatabaseError_unique (rollbackErr : option error) :
  HandleDatabaseError
    (match rollbackErr with
     | Some re => Join unique_violation re
     | None => unique_violation
     end) "Transaction"
  = RespondError StatusConflict "Transaction already exists".
Proof. destruct rollbackErr; reflexivity. Qed.

(** a valid request whose transaction id is in the ledger, when the
    storage layer lets it reach the ledger append *)
Lemma duplicate_conflict (env : Env) (r : Request) (db : DB) (u : Z) (a : Account)
  (tr : Models.Transaction) :
  prepared env r db = Some (u, a, tr) ->
  find_transaction (Models.ID tr) (committed db) <> None ->
  fail_Begin env = None ->
  fail_CreateTransaction env = None ->
  snd (CreateTransactionHandler env r db)
  = RespondError StatusConflict "Transaction already exists".
Proof.
  intros Hprep Hin Hf2 Hf3.
  rewrite (handler_prepared _ _ _ _ _ _ Hprep).
  apply prepared_inv in Hprep as (d & _ & _ & _ & Hv & _ & _ & _ & HSrc & HTy).
  apply ValidateBodyWithDetails_valid in Hv as (_ & _ & _ & Hsrc & Hty).
  unfold runInTx, Begin. rewrite Hf2.
  unfold createAndUpdate, createTransactionInTx, CreateTransaction, exec, WithTx.
  rewrite Hf3. unfold insert_transaction.
  cbn -[oneof find_transaction find_account Rollback HandleDatabaseError].
  rewrite HSrc, HTy, Hsrc, Hty.
  cbn -[oneof find_transaction find_account Rollback HandleDatabaseError].
  destruct (find_transaction (Models.ID tr) (committed db)); [| contradiction].
  cbn -[Rollback HandleDatabaseError].
  destruct (Rollback env _) as [db3 [re |]]; reflexivity.
Qed.

(** the transaction id of a valid request is the member transactionId of
    its body *)
Lemma prepared_request_id (env : Env) (r : Request) (db : DB) (u : Z) (a : Account)
  (tr : Models.Transaction) (o : TransactionJSON) (id : string) :
  prepared env r db = Some (u, a, tr) ->
  body r = Object o ->
  json_transactionId o = Some id ->
  Models.ID tr = id.
Proof.
  intros Hprep Hbody Hid.
  apply prepared_inv in Hprep as (d & _ & _ & _ & Hv & _ & -> & _).
  apply ValidateBodyWithDetails_decoded in Hv. subst d.
  rewrite Hbody. simpl. now rewrite Hid.
Qed.

(** the ledger is append-only under every request *)
Lemma ledger_append_only (env : Env) (r : Request) (db : DB) :
  exists appended : list Transaction,
    transactions (committed (fst (CreateTransactionHandler env r db)))
    = (transactions (committed db) ++ appended)%list.
Proof.
  destruct (handler_spec env r db) as [[_ H] | (u & a & tr & _ & _ & _ & Hl & _)].
  - exists []. now rewrite H, app_nil_r.
  - eauto.
Qed.

(** C3.  For every transaction id already in the ledger, a submission
    with that id, under any conditions, is answered with a failure and
    leaves the committed tables as they were, so that the balance reflects
    the first application only; when the request is valid and the storage
    layer lets it reach the ledger append, the answer is the duplicate
    rejection, 409 "Transaction already exists".  A request that was
    committed has its id in the ledger, so its second submission is such a
    submission.  The ledger is write-once per id: every request leaves the
    rows of the ledger in place and at most appends after them. *)
Theorem C3_duplicate_submission_rejected (env : Env) (r : Request) (db : DB)
  (o : TransactionJSON) (id : string) (row : Transaction) :
  body r = Object o ->
  json_transactionId o = Some id ->
  find_transaction id (committed db) = Some row ->
  succeeded (snd (CreateTransactionHandler env r db)) = false
  /\ committed (fst (CreateTransactionHandler env r db)) = committed db
  /\ (forall u a tr,
        prepared env r db = Some (u, a, tr) ->
        fail_Begin env = None ->
        fail_CreateTransaction env = None ->
        snd (CreateTransactionHandler env r db)
        = RespondError StatusConflict "Transaction already exists")
  /\ (forall env0 db0,
        succeeded (snd (CreateTransactionHandler env0 r db0)) = true ->
        find_transaction id (committed (fst (CreateTransactionHandler env0 r db0))) <> None)
  /\ (forall env0 r0,
        exists appended : list Transaction,
          transactions (committed (fst (CreateTransactionHandler env0 r0 db)))
          = (transactions (committed db) ++ appended)%list).
Proof.
  intros Hbody Hid Hrow.
  assert (Hdup : forall u a tr, prepared env r db = Some (u, a, tr) ->
                                find_transaction (Models.ID tr) (committed db) <> None).
  { intros u a tr Hprep. rewrite (prepared_request_id _ _ _ _ _ _ _ _ Hprep Hbody Hid).
    now rewrite Hrow. }
  destruct (duplicate_fails env r db Hdup) as [Hfail Hsame].
  split; [assumption |]. split; [assumption |]. split; [| split].
  - intros u a tr Hprep. apply (duplicate_conflict env r db u a tr Hprep).
    now apply (Hdup u a tr).
  - intros env0 db0 Hok.
    destruct (handler_spec env0 r db0) as [[H _] | (u & a & tr & Hprep & _ & Hboth)];
      [congruence |].
    rewrite <- (prepared_request_id _ _ _ _ _ _ _ _ Hprep Hbody Hid).
    now apply both_applied_in_ledger in Hboth.
  - intros env0 r0. apply ledger_append_only.
Qed.

Lemma C3_witness :
  succeeded (snd (CreateTransactionHandler quiet (post "1" "A" "50.00" "win")
                    (fst (serve (firstn 2 scenario) migrated)))) = false
  /\ committed (fst (CreateTransactionHandler quiet (post "1" "A" "50.00" "win")
                       (fst (serve (firstn 2 scenario) migrated))))
     = committed (fst (serve (firstn 2 scenario) migrated)).
Proof.
  destruct (C3_duplicate_submission_rejected quiet (post "1" "A" "50.00" "win")
              (fst (serve (firstn 2 scenario) migrated))
              (mkTransactionJSON (Some "A") None (Some "50.00") None None (Some "win") None)
              "A"
              (mkTransactionRow "A" 1 (F64.of_Z 50) "game" "win" 1700000000))
    as (H1 & H2 & _); [reflexivity | reflexivity | vm_compute; reflexivity |].
  split; assumption.
Defined.

(** *** C4, C5: the balance step *)

Lemma exec_run {A : Type} (q : Queries) (zero : A)
  (stmt : Tables -> Tables * (A * option error)) (db : DB) (t : Tables) :
  tables_of q db = Some t ->
  exec q None zero stmt db = (with_tables q db (fst (stmt t)), snd (stmt t)).
Proof.
  unfold exec. destruct q; simpl.
  - intros [= <-]. now destruct (stmt (committed db)).
  - intros ->. now destruct (stmt t).
Qed.

(** [updateBalanceInTx] once the account is read: the switch on the type,
    then the update *)
Lemma updateBalanceInTx_read (env : Env) (q : Queries) (id : Z) (amount : float64)
  (ty : string) (db : DB) (t : Tables) (before : Account) :
  fail_GetAccount env = None ->
  tables_of q db = Some t ->
  find_account id t = Some before ->
  updateBalanceInTx env q id amount ty db =
  match
    (if String.eqb ty "win" || String.eqb ty "deposit" then
       (F64.add (acc_Balance before) amount, None)
     else if String.eqb ty "lose" || String.eqb ty "withdrawal" then
       if F64.ltb (F64.sub (acc_Balance before) amount) F64.zero
       then (F64.sub (acc_Balance before) amount, Some ErrInsufficientBalance)
       else (F64.sub (acc_Balance before) amount, None)
     else (F64.zero, Some ErrInvalidTransactionType))
  with
  | (_, Some err) => (db, (zeroAccount, Some err))
  | (newBalance, None) =>
      match fail_UpdateAccount env with
      | Some err => (db, (zeroAccount, Some err))
      | None =>
          (with_tables q db
             (mkTables (map (set_balance id newBalance) (accounts t)) (transactions t)),
           (set_balance id newBalance before, None))
      end
  end.
Proof.
  intros Hf Ht Hacc. unfold updateBalanceInTx, GetAccount. rewrite Hf.
  rewrite (exec_run _ _ _ _ _ Ht). unfold select_account. rewrite Hacc. simpl fst. simpl snd.
  rewrite (with_tables_same _ _ _ Ht). cbv zeta.
  match goal with
  | |- match ?c with _ => _ end = match ?c with _ => _ end => destruct c as [nb [e |]]
  end; [reflexivity |].
  unfold UpdateAccount. destruct (fail_UpdateAccount env); [reflexivity |].
  rewrite (exec_run _ _ _ _ _ Ht). unfold update_account. simpl uap_ID. rewrite Hacc.
  reflexivity.
Qed.

Lemma find_account_updated (id : Z) (nb : float64) (t : Tables) (before : Account) :
  find_account id t = Some before ->
  find_account id (mkTables (map (set_balance id nb) (accounts t)) (transactions t))
  = Some (set_balance id nb before)
  /\ acc_Balance (set_balance id nb before) = nb.
Proof.
  intros H. unfold find_account in *. simpl. rewrite find_set_balance, H. simpl.
  split; [reflexivity |].
  apply find_some in H as [_ H]. unfold set_balance. now rewrite H.
Qed.

(** a finite balance minus itself is +0: a lose of the whole balance is
    not an overdraft *)
Lemma sub_self (b : float64) :
  match b with
  | S754_zero _ | S754_finite _ _ _ => F64.sub b b = F64.zero
  | _ => True
  end.
Proof.
  destruct b as [s | s | | s m e]; trivial.
  - now destruct s.
  - unfold F64.sub, SFsub. rewrite Z.sub_diag. reflexivity.
Qed.

(** C4.  For an account with balance b and a lose (or withdrawal) of
    amount a, where b - a is the float64 difference the code computes: if
    b - a < 0 the balance step fails with ErrInsufficientBalance and the
    database is exactly as before (the balance remains b), and the atomic
    unit around it fails and leaves the committed tables; if b - a >= 0
    (b - a = 0 included) the step persists, and the balance of the account
    is b - a. *)
Theorem C4_overdraft_protection (env : Env) (q : Queries) (id : Z) (amount : float64)
  (ty : string) (db : DB) (t : Tables) (before : Account) :
  ty = "lose" \/ ty = "withdrawal" ->
  fail_GetAccount env = None ->
  tables_of q db = Some t ->
  find_account id t = Some before ->
  (F64.ltb (F64.sub (acc_Balance before) amount) F64.zero = true ->
   updateBalanceInTx env q id amount ty db = (db, (zeroAccount, Some ErrInsufficientBalance)))
  /\ (F64.leb F64.zero (F64.sub (acc_Balance before) amount) = true ->
      fail_UpdateAccount env = None ->
      exists (db' : DB) (updated : Account) (t' : Tables),
        updateBalanceInTx env q id amount ty db = (db', (updated, None))
        /\ tables_of q db' = Some t'
        /\ find_account id t' = Some updated
        /\ acc_Balance updated = F64.sub (acc_Balance before) amount)
  /\ (forall (tr : Models.Transaction) (account : Account) (db0 : DB) (b0 : Account),
        Models.TransactionType tr = "lose" ->
        find_account (acc_ID account) (committed db0) = Some b0 ->
        F64.ltb (F64.sub (acc_Balance b0) (Models.AmountFloat tr)) F64.zero = true ->
        snd (runInTx env db0 (createAndUpdate env tr account)) <> None
        /\ committed (fst (runInTx env db0 (createAndUpdate env tr account))) = committed db0).
Proof.
  intros Hty Hf Ht Hacc.
  rewrite (updateBalanceInTx_read _ _ _ _ _ _ _ _ Hf Ht Hacc).
  assert (Hsw : String.eqb ty "win" || String.eqb ty "deposit" = false
                /\ String.eqb ty "lose" || String.eqb ty "withdrawal" = true)
    by (destruct Hty as [-> | ->]; split; reflexivity).
  destruct Hsw as [-> ->].
  split; [| split].
  - now intros ->.
  - intros Hle Hu. apply le_zero_not_negative in Hle. unfold not_negative in Hle.
    rewrite Hle, Hu.
    destruct (find_account_updated id (F64.sub (acc_Balance before) amount) t before Hacc)
      as [Hfind Hbal].
    eexists _, _, _. split; [reflexivity |]. split; [apply tables_of_with_tables |]. auto.
  - intros tr account db0 b0 Hlose Hb0 Hlt.
    pose proof (unit_spec env tr account db0) as Hunit.
    destruct (runInTx env db0 _) as [db' [err |]]; simpl; [split; [discriminate | assumption] |].
    exfalso. destruct Hunit as (_ & _ & _ & b1 & Hb1 & _ & Hnn).
    rewrite Hb0 in Hb1. injection Hb1 as <-.
    specialize (Hnn Hlose). rewrite Hlose in Hnn. unfold not_negative in Hnn.
    change (signed "lose" (Models.AmountFloat tr)) with (F64.neg (Models.AmountFloat tr)) in Hnn.
    rewrite <- sub_add_neg in Hnn. congruence.
Qed.

Lemma C4_witness :
  updateBalanceInTx quiet OnPool 10 ten "lose" funded
  = (funded, (zeroAccount, Some ErrInsufficientBalance))
  /\ exists (db' : DB) (updated : Account) (t' : Tables),
       updateBalanceInTx quiet OnPool 10 five "lose" funded = (db', (updated, None))
       /\ tables_of OnPool db' = Some t'
       /\ find_account 10 t' = Some updated
       /\ acc_Balance updated = F64.sub five five.
Proof.
  split.
  - apply (C4_overdraft_protection quiet OnPool 10 ten "lose" funded (committed funded)
             (account_of 10 7 five)); try reflexivity.
    left; reflexivity.
  - apply (C4_overdraft_protection quiet OnPool 10 five "lose" funded (committed funded)
             (account_of 10 7 five)); try reflexivity.
    left; reflexivity.
Defined.

(** overdraft through the handler: a valid lose request with a fresh id,
    served without failure of the storage layer, on a balance smaller than
    its amount, is answered 400 and commits nothing *)
Lemma overdraft_answer (env : Env) (r : Request) (db : DB) (u : Z) (a : Account)
  (tr : Models.Transaction) (before target : Account) :
  prepared env r db = Some (u, a, tr) ->
  Models.TransactionType tr = "lose" ->
  find_account (acc_ID a) (committed db) = Some before ->
  F64.ltb (F64.sub (acc_Balance before) (Models.AmountFloat tr)) F64.zero = true ->
  find_transaction (Models.ID tr) (committed db) = None ->
  find_account (Models.AccountID tr) (committed db) = Some target ->
  fail_Begin env = None -> fail_CreateTransaction env = None ->
  fail_GetAccount env = None -> fail_Rollback env = None ->
  CreateTransactionHandler env r db
  = (mkDB (committed db) None,
     RespondError StatusBadRequest "User balance is insufficient for this transaction").
Proof.
  intros Hprep Hlose Hbefore Hlt Hfresh Htarget Hf1 Hf2 Hf3 Hf4.
  rewrite (handler_prepared _ _ _ _ _ _ Hprep).
  apply prepared_inv in Hprep as (d & _ & _ & _ & Hv & _ & _ & _ & HSrc & HTy).
  apply ValidateBodyWithDetails_valid in Hv as (_ & _ & _ & Hsrc & Hty).
  unfold runInTx, Begin. rewrite Hf1.
  unfold createAndUpdate, createTransactionInTx, CreateTransaction, exec, WithTx.
  rewrite Hf2. unfold insert_transaction.
  cbn -[oneof find_transaction find_account Rollback HandleDatabaseError updateBalanceInTx].
  rewrite HSrc, HTy, Hsrc, Hty, Hfresh, Htarget.
  cbn -[oneof find_transaction find_account Rollback HandleDatabaseError updateBalanceInTx].
  erewrite updateBalanceInTx_read; [| exact Hf3 | reflexivity | exact Hbefore].
  rewrite <- HTy, Hlose. cbn -[Rollback HandleDatabaseError F64.ltb F64.sub].
  rewrite Hlt. unfold Rollback. rewrite Hf4. reflexivity.
Qed.

(** C5, as amended.  The signed delta the balance step applies is +amount
    for win and deposit and -amount for lose and withdrawal (the latter
    when the result is not negative); for every type outside
    {win, deposit, lose, withdrawal} the step fails with
    ErrInvalidTransactionType and the database is exactly as before. *)
Theorem C5_signed_delta (env : Env) (q : Queries) (id : Z) (amount : float64)
  (ty : string) (db : DB) (t : Tables) (before : Account) :
  fail_GetAccount env = None ->
  tables_of q db = Some t ->
  find_account id t = Some before ->
  (ty = "win" \/ ty = "deposit" ->
   fail_UpdateAccount env = None ->
   updateBalanceInTx env q id amount ty db
   = (with_tables q db
        (mkTables (map (set_balance id (F64.add (acc_Balance before) amount)) (accounts t))
                  (transactions t)),
      (set_balance id (F64.add (acc_Balance before) amount) before, None)))
  /\ (ty = "lose" \/ ty = "withdrawal" ->
      fail_UpdateAccount env = None ->
      F64.ltb (F64.add (acc_Balance before) (F64.neg amount)) F64.zero = false ->
      updateBalanceInTx env q id amount ty db
      = (with_tables q db
           (mkTables (map (set_balance id (F64.add (acc_Balance before) (F64.neg amount)))
                          (accounts t))
                     (transactions t)),
         (set_balance id (F64.add (acc_Balance before) (F64.neg amount)) before, None)))
  /\ (ty <> "win" -> ty <> "deposit" -> ty <> "lose" -> ty <> "withdrawal" ->
      updateBalanceInTx env q id amount ty db
      = (db, (zeroAccount, Some ErrInvalidTransactionType))).
Proof.
  intros Hf Ht Hacc.
  rewrite (updateBalanceInTx_read _ _ _ _ _ _ _ _ Hf Ht Hacc).
  split; [| split].
  - intros Hty Hu.
    replace (String.eqb ty "win" || String.eqb ty "deposit") with true
      by (destruct Hty as [-> | ->]; reflexivity).
    now rewrite Hu.
  - intros Hty Hu Hnn. rewrite <- sub_add_neg in *.
    replace (String.eqb ty "win" || String.eqb ty "deposit") with false
      by (destruct Hty as [-> | ->]; reflexivity).
    replace (String.eqb ty "lose" || String.eqb ty "withdrawal") with true
      by (destruct Hty as [-> | ->]; reflexivity).
    now rewrite Hnn, Hu.
  - intros H1 H2 H3 H4.
    apply String.eqb_neq in H1, H2, H3, H4. now rewrite H1, H2, H3, H4.
Qed.

Lemma C5_witness :
  updateBalanceInTx quiet OnPool 10 ten "bonus" funded
  = (funded, (zeroAccount, Some ErrInvalidTransactionType)).
Proof.
  apply (C5_signed_delta quiet OnPool 10 ten "bonus" funded (committed funded)
           (account_of 10 7 five)); try reflexivity; discriminate.
Defined.

(** C5, counterexample.  The type deposit is outside {win, lose}, and the
    balance step does not fail on it: it adds the amount, 5.00 + 10.00. *)
Lemma C5_counterexample :
  "deposit" <> "win" /\ "deposit" <> "lose"
  /\ snd (snd (updateBalanceInTx quiet OnPool 10 ten "deposit" funded)) = None
  /\ balance_of 10 (fst (updateBalanceInTx quiet OnPool 10 ten "deposit" funded))
     = Some fifteen.
Proof. repeat split; try discriminate; vm_compute; reflexivity. Qed.

(** *** C6 *)

Lemma responseData_lookup (userID : Z) (tr : Models.Transaction) (k : string) (v : JSON) :
  responseData userID tr !! k = Some v <->
  (k = "user_account_id" /\ v = JInt userID)
  \/ (k = "transaction_id" /\ v = JString (Models.ID tr))
  \/ (k = "amount" /\ v = JFloat (Models.AmountFloat tr))
  \/ (k = "type" /\ v = JString (Models.TransactionType tr))
  \/ (k = "source" /\ v = JString (Models.Source tr)).
Proof.
  unfold responseData. rewrite !lookup_insert_Some, lookup_empty. split.
  - intros H. repeat destruct H as [[<- <-] | [_ H]]; auto 10. discriminate.
  - intros [[-> ->] | [[-> ->] | [[-> ->] | [[-> ->] | [-> ->]]]]]; auto 20.
Qed.

(** C6, as amended.  The success output of the handler is the payload
    {user_account_id, transaction_id, amount, type, source}, exactly these
    five members: the user id of the URL, the transaction id, the
    normalized amount, the type and the source of the committed
    transaction; it has no member for the new balance. *)
Theorem C6_success_payload (env : Env) (r : Request) (db : DB) :
  succeeded (snd (CreateTransactionHandler env r db)) = true ->
  exists (userID : Z) (account : Account) (tr : Models.Transaction),
    prepared env r db = Some (userID, account, tr)
    /\ snd (CreateTransactionHandler env r db)
       = mkResponse StatusOK (Data (responseData userID tr))
    /\ forall (k : string) (v : JSON),
         responseData userID tr !! k = Some v <->
         (k = "user_account_id" /\ v = JInt userID)
         \/ (k = "transaction_id" /\ v = JString (Models.ID tr))
         \/ (k = "amount" /\ v = JFloat (Models.AmountFloat tr))
         \/ (k = "type" /\ v = JString (Models.TransactionType tr))
         \/ (k = "source" /\ v = JString (Models.Source tr)).
Proof.
  intros Hok.
  destruct (handler_spec env r db) as [[H _] | (u & a & tr & Hprep & Hresp & _)];
    [congruence |].
  exists u, a, tr. split; [assumption |]. split; [assumption |].
  apply responseData_lookup.
Qed.

Lemma C6_witness :
  exists (userID : Z) (account : Account) (tr : Models.Transaction),
    prepared quiet (post "7" "t1" "10.00" "win") funded = Some (userID, account, tr)
    /\ snd (CreateTransactionHandler quiet (post "7" "t1" "10.00" "win") funded)
       = mkResponse StatusOK (Data (responseData userID tr)).
Proof.
  destruct (C6_success_payload quiet (post "7" "t1" "10.00" "win") funded)
    as (u & a & tr & H1 & H2 & _); [vm_compute; reflexivity |].
  exists u, a, tr. auto.
Defined.

(** C6, counterexample.  User 7, account 10, balance 5.00, win 10.00: the
    apply succeeds and the new balance is 15.00; the payload has the user
    id under user_account_id, and no member carries the new balance. *)
Lemma C6_counterexample :
  snd (CreateTransactionHandler quiet (post "7" "t1" "10.00" "win") funded)
  = mkResponse StatusOK
      (Data (<[ "user_account_id" := JInt 7 ]>
            (<[ "transaction_id" := JString "t1" ]>
            (<[ "amount" := JFloat ten ]>
            (<[ "type" := JString "win" ]>
            (<[ "source" := JString "game" ]> ∅))))))
  /\ balance_of 10 (fst (CreateTransactionHandler quiet (post "7" "t1" "10.00" "win") funded))
     = Some fifteen
  /\ forall k : string,
       (<[ "user_account_id" := JInt 7 ]>
       (<[ "transaction_id" := JString "t1" ]>
       (<[ "amount" := JFloat ten ]>
       (<[ "type" := JString "win" ]>
       (<[ "source" := JString "game" ]> (∅ : gmap string JSON)))))) !! k
       <> Some (JFloat fifteen).
Proof.
  split; [vm_compute; reflexivity |]. split; [vm_compute; reflexivity |].
  intros k. rewrite !lookup_insert_Some, lookup_empty.
  intros H. repeat destruct H as [[_ H] | [_ H]]; discriminate.
Qed.

(** *** C7 *)

(** the recognizer of base-10 numbers on some strings *)
Example base10_number_examples :
  map base10_number ["10.15"; "-3"; "+.5"; "5."; "1e5"; "2.5E-3"]
  = [true; true; true; true; true; true]
  /\ map base10_number [EmptyString; "abc"; "."; "1e"; "1.2.3"; "0x1p4"; "NaN"; "Inf"]
     = [false; false; false; false; false; false; false; false].
Proof. split; reflexivity. Qed.

Lemma lt_zero_not_le (f : float64) : F64.ltb F64.zero f = true -> F64.leb f F64.zero = false.
Proof.
  unfold F64.ltb, F64.leb, SFltb, SFleb, F64.zero.
  destruct f as [s | s | | s m e]; simpl; try discriminate; destruct s; simpl; congruence.
Qed.

(** C7, as amended.  For every input string, ParseAmount fails with
    ErrInvalidAmount when the string is empty or strconv.ParseFloat returns
    an error for it, fails with ErrAmountMustBePositive when the parsed
    value is <= 0, and when the parsed value is > 0 returns
    round(value * 100) / 100 in float64 arithmetic (math.Round: half away
    from zero); an error comes with the value 0, and a value that is
    returned is not negative. *)
Theorem C7_ParseAmount (s : string) :
  (s = EmptyString -> ParseAmount s = (F64.zero, Some ErrInvalidAmount))
  /\ (forall f e, Strconv.ParseFloat s = (f, Some e) ->
                  ParseAmount s = (F64.zero, Some ErrInvalidAmount))
  /\ (forall f, s <> EmptyString -> Strconv.ParseFloat s = (f, None) ->
                F64.leb f F64.zero = true ->
                ParseAmount s = (F64.zero, Some ErrAmountMustBePositive))
  /\ (forall f, s <> EmptyString -> Strconv.ParseFloat s = (f, None) ->
                F64.ltb F64.zero f = true ->
                ParseAmount s = (F64.div (F64.Round (F64.mul f hundred)) hundred, None))
  /\ (forall a e, ParseAmount s = (a, Some e) ->
                  a = F64.zero /\ (e = ErrInvalidAmount \/ e = ErrAmountMustBePositive))
  /\ (forall a, ParseAmount s = (a, None) -> not_negative a).
Proof.
  split; [| split; [| split; [| split; [| split]]]].
  - unfold ParseAmount. now intros ->.
  - unfold ParseAmount. intros f e ->. now destruct (String.eqb s EmptyString).
  - unfold ParseAmount. intros f Hs -> ->. apply String.eqb_neq in Hs. now rewrite Hs.
  - unfold ParseAmount. intros f Hs -> Hlt. apply String.eqb_neq in Hs.
    now rewrite Hs, (lt_zero_not_le _ Hlt).
  - unfold ParseAmount. intros a e.
    destruct (String.eqb s EmptyString); [intros [= <- <-]; auto |].
    destruct (Strconv.ParseFloat s) as [f [e' |]]; [intros [= <- <-]; auto |].
    destruct (F64.leb f F64.zero); [intros [= <- <-]; auto | discriminate].
  - intros a Ha. apply not_negative_sign_clear. exact (ParseAmount_sign_clear s a Ha).
Qed.

Lemma C7_witness :
  ParseAmount "10.155"
  = (F64.div (F64.Round (F64.mul (fst (Strconv.ParseFloat "10.155")) hundred)) hundred, None).
Proof.
  apply (C7_ParseAmount "10.155"); [discriminate | reflexivity | reflexivity].
Defined.

(** C7, counterexample.  0x1p4 is not a base-10 number, and ParseAmount
    does not fail on it: it returns 16. *)
Lemma C7_counterexample :
  base10_number "0x1p4" = false /\ ParseAmount "0x1p4" = (sixteen, None).
Proof. split; vm_compute; reflexivity. Qed.

(** *** C8 *)

(** the account id of the ledger row of a request is the member
    account_id of its body when it has one, and the id of the account of
    the user otherwise; the balance that moves is always that of the
    account of the user *)
Lemma ledger_row_account (env : Env) (r : Request) (db : DB) (u : Z) (a : Account)
  (tr : Models.Transaction) (o : TransactionJSON) :
  prepared env r db = Some (u, a, tr) ->
  body r = Object o ->
  txn_AccountID (ledger_row env tr) = assign (json_account_id o) (acc_ID a).
Proof.
  intros Hprep Hbody.
  apply prepared_inv in Hprep as (d & _ & _ & _ & Hv & _ & _ & HAcc & _).
  apply ValidateBodyWithDetails_decoded in Hv. subst d.
  unfold ledger_row. simpl. rewrite HAcc, Hbody. reflexivity.
Qed.

(** C8, at the failing input.  On the tables of the migration, the
    request to the URL of user 1 whose body names account 2 succeeds: the
    ledger row it appends has account_id 2, and the balance it updates is
    that of account 1. *)
Theorem C8_ledger_row_of_another_account :
  succeeded (snd (CreateTransactionHandler quiet misdirected migrated)) = true
  /\ map txn_AccountID
         (transactions (committed (fst (CreateTransactionHandler quiet misdirected migrated))))
     = [2]
  /\ balance_of 1 (fst (CreateTransactionHandler quiet misdirected migrated)) = Some ten
  /\ balance_of 2 (fst (CreateTransactionHandler quiet misdirected migrated))
     = Some F64.zero.
Proof. repeat split; vm_compute; reflexivity. Qed.

(** *** C9 *)

Lemma handler_invalid_id (env : Env) (r : Request) (db : DB) (z : Z) (err : error) :
  ValidateID (userId r) = (z, Some err) ->
  CreateTransactionHandler env r db = (db, HandleAPIError err).
Proof. unfold CreateTransactionHandler. now intros ->. Qed.

Lemma handler_no_account (env : Env) (r : Request) (db db1 : DB) (userID : Z)
  (acct : Account) (err : error) :
  ValidateID (userId r) = (userID, None) ->
  GetAccountByUser env userID db = (db1, (acct, Some err)) ->
  CreateTransactionHandler env r db = (db, HandleDatabaseError err "Account").
Proof.
  unfold CreateTransactionHandler. intros -> H.
  pose proof (GetAccountByUser_db env userID db) as Hdb. rewrite H in *. simpl in Hdb.
  now subst db1.
Qed.

Lemma handler_invalid_body (env : Env) (r : Request) (db db1 : DB) (userID : Z)
  (account : Account) (errs : gmap string string) (d : Models.Transaction) :
  ValidateID (userId r) = (userID, None) ->
  GetAccountByUser env userID db = (db1, (account, None)) ->
  ValidateBodyWithDetails (body r) (prefilled account r) = (false, errs, d) ->
  CreateTransactionHandler env r db = (db, RespondValidationError errs).
Proof.
  unfold CreateTransactionHandler, prefilled. intros -> H Hv.
  pose proof (GetAccountByUser_db env userID db) as Hdb. rewrite H in *. simpl in Hdb.
  subst db1. now rewrite Hv.
Qed.

Lemma handler_invalid_amount (env : Env) (r : Request) (db db1 : DB) (userID : Z)
  (account : Account) (errs : gmap string string) (d z : Models.Transaction) (err : error) :
  ValidateID (userId r) = (userID, None) ->
  GetAccountByUser env userID db = (db1, (account, None)) ->
  ValidateBodyWithDetails (body r) (prefilled account r) = (true, errs, d) ->
  validateAndParseTransactionAmount d = (z, Some err) ->
  CreateTransactionHandler env r db = (db, HandleAPIError err).
Proof.
  unfold CreateTransactionHandler, prefilled. intros -> H Hv Ha.
  pose proof (GetAccountByUser_db env userID db) as Hdb. rewrite H in *. simpl in Hdb.
  subst db1. now rewrite Hv, Ha.
Qed.

Lemma unit_append_first (env : Env) (tr : Models.Transaction) (account : Account)
  (db db1 : DB) (row : Transaction) (err : error) :
  fail_Begin env = None ->
  createTransactionInTx env OnTx tr (mkDB (committed db) (Some (committed db)))
  = (db1, (row, Some err)) ->
  snd (runInTx env db (createAndUpdate env tr account)) = Some err
  \/ exists rollbackErr,
       snd (runInTx env db (createAndUpdate env tr account)) = Some (Join err rollbackErr).
Proof.
  intros Hb Hc. unfold runInTx, Begin. rewrite Hb. unfold createAndUpdate, WithTx.
  rewrite Hc. destruct (Rollback env db1) as [db3 [re |]]; simpl; eauto.
Qed.

Lemma handler_account_not_found (env : Env) (r : Request) (db : DB) (userID : Z) :
  ValidateID (userId r) = (userID, None) ->
  fail_GetAccountByUser env = None ->
  find (fun a => acc_UserID a =? userID) (accounts (committed db)) = None ->
  CreateTransactionHandler env r db = (db, RespondError StatusNotFound "Account not found").
Proof.
  intros Hid Hf Hfind.
  apply (handler_no_account env r db db userID zeroAccount ErrNoRows Hid).
  unfold GetAccountByUser, Database.GetAccountByUser, exec, select_account_by_user.
  rewrite Hf. simpl. rewrite Hfind. now destruct db.
Qed.

(** C9, as amended.  The handler takes its steps in this order, and the
    first step that fails decides the answer: it validates the user id of
    the URL; loads the account of the user from the account store;
    decodes and validates the body; normalizes the amount; then runs the
    atomic unit, in which the ledger append comes before the balance is
    read, checked and updated.  In particular a request for a user without
    an account is answered 404 "Account not found" whatever its body is,
    also when its amount does not parse. *)
Theorem C9_order_of_steps (env : Env) (r : Request) (db : DB) :
  (forall z err, ValidateID (userId r) = (z, Some err) ->
     CreateTransactionHandler env r db = (db, HandleAPIError err))
  /\ (forall userID db1 acct err,
        ValidateID (userId r) = (userID, None) ->
        GetAccountByUser env userID db = (db1, (acct, Some err)) ->
        CreateTransactionHandler env r db = (db, HandleDatabaseError err "Account"))
  /\ (forall userID db1 account errs d,
        ValidateID (userId r) = (userID, None) ->
        GetAccountByUser env userID db = (db1, (account, None)) ->
        ValidateBodyWithDetails (body r) (prefilled account r) = (false, errs, d) ->
        CreateTransactionHandler env r db = (db, RespondValidationError errs))
  /\ (forall userID db1 account errs d z err,
        ValidateID (userId r) = (userID, None) ->
        GetAccountByUser env userID db = (db1, (account, None)) ->
        ValidateBodyWithDetails (body r) (prefilled account r) = (true, errs, d) ->
        validateAndParseTransactionAmount d = (z, Some err) ->
        CreateTransactionHandler env r db = (db, HandleAPIError err))
  /\ (forall userID account tr,
        prepared env r db = Some (userID, account, tr) ->
        CreateTransactionHandler env r db =
        match runInTx env db (createAndUpdate env tr account) with
        | (db2, Some err) => (db2, HandleDatabaseError err "Transaction")
        | (db2, None) =>
            (db2, RespondSuccess "Transaction created successfully" (responseData userID tr))
        end)
  /\ (forall tr account db1 row err,
        fail_Begin env = None ->
        createTransactionInTx env OnTx tr (mkDB (committed db) (Some (committed db)))
        = (db1, (row, Some err)) ->
        snd (runInTx env db (createAndUpdate env tr account)) = Some err
        \/ exists rollbackErr,
             snd (runInTx env db (createAndUpdate env tr account))
             = Some (Join err rollbackErr))
  /\ (forall userID,
        ValidateID (userId r) = (userID, None) ->
        fail_GetAccountByUser env = None ->
        find (fun a => acc_UserID a =? userID) (accounts (committed db)) = None ->
        CreateTransactionHandler env r db
        = (db, RespondError StatusNotFound "Account not found")).
Proof.
  repeat split.
  - intros z err. apply handler_invalid_id.
  - intros userID db1 acct err. apply handler_no_account.
  - intros userID db1 account errs d. apply handler_invalid_body.
  - intros userID db1 account errs d z err. apply handler_invalid_amount.
  - intros userID account tr. apply handler_prepared.
  - intros tr account db1 row err. apply unit_append_first.
  - intros userID. apply handler_account_not_found.
Qed.

Lemma C9_witness :
  CreateTransactionHandler quiet (post "99" "t1" "abc" "win") migrated
  = (migrated, RespondError StatusNotFound "Account not found").
Proof.
  destruct (C9_order_of_steps quiet (post "99" "t1" "abc" "win") migrated)
    as (_ & _ & _ & _ & _ & _ & H).
  apply (H 99); reflexivity.
Defined.

(** C9, counterexample.  User 99 has no account and the amount abc does
    not parse: the answer is the failure of the account lookup, 404, not
    that of the amount normalizer, 400. *)
Lemma C9_counterexample :
  snd (ParseAmount "abc") = Some ErrInvalidAmount
  /\ snd (CreateTransactionHandler quiet (post "99" "t1" "abc" "win") migrated)
     = RespondError StatusNotFound "Account not found"
  /\ snd (CreateTransactionHandler quiet (post "99" "t1" "abc" "win") migrated)
     <> HandleAPIError ErrInvalidAmount.
Proof. repeat split; try (vm_compute; reflexivity). vm_compute. discriminate. Qed.

(** *** C10 *)

Lemma same_but_balance_refl (a : Account) : same_but_balance a a.
Proof. unfold same_but_balance. auto. Qed.

Lemma same_but_balance_set (id : Z) (b : float64) (a : Account) :
  same_but_balance a (set_balance id b a).
Proof. unfold same_but_balance, set_balance. destruct (acc_ID a =? id); simpl; auto. Qed.

Lemma Forall2_same_refl (l : list Account) : Forall2 same_but_balance l l.
Proof. induction l; constructor; auto using same_but_balance_refl. Qed.

Lemma Forall2_same_set (id : Z) (b : float64) (l : list Account) :
  Forall2 same_but_balance l (map (set_balance id b) l).
Proof. induction l; simpl; constructor; auto using same_but_balance_set. Qed.

(** a statement that fails leaves the database as it was *)
Lemma exec_failed {A : Type} (q : Queries) (failure : option error) (zero : A)
  (stmt : Tables -> Tables * (A * option error)) (db db' : DB) (v : A) (err : error) :
  (forall t t' v' e, stmt t = (t', (v', Some e)) -> t' = t) ->
  exec q failure zero stmt db = (db', (v, Some err)) -> db' = db.
Proof.
  intros Hstmt. unfold exec. destruct failure; [now intros [= <-] |].
  destruct db as [c p], q; simpl.
  - destruct (stmt c) as [t' [v' oe]] eqn:Hs. intros [= <- -> ->].
    now rewrite (Hstmt _ _ _ _ Hs).
  - destruct p as [w |]; [| now intros [= <-]].
    destruct (stmt w) as [t' [v' oe]] eqn:Hs. intros [= <- -> ->].
    now rewrite (Hstmt _ _ _ _ Hs).
Qed.

Lemma GetAccount_db (env : Env) (q : Queries) (id : Z) (db : DB) :
  fst (GetAccount env q id db) = db.
Proof.
  unfold GetAccount, exec, select_account.
  destruct (fail_GetAccount env); [reflexivity |].
  destruct db as [c p], q; simpl.
  - now destruct (find_account id c).
  - destruct p as [w |]; [| reflexivity]. now destruct (find_account id w).
Qed.

Lemma UpdateAccount_failed (env : Env) (q : Queries) (arg : UpdateAccountParams)
  (db db' : DB) (v : Account) (err : error) :
  UpdateAccount env q arg db = (db', (v, Some err)) -> db' = db.
Proof.
  apply exec_failed. intros t t' v' e. unfold update_account.
  destruct (find_account (uap_ID arg) t); [discriminate | now intros [= <-]].
Qed.

Lemma updateBalanceInTx_failed (env : Env) (q : Queries) (id : Z) (amount : float64)
  (ty : string) (db db' : DB) (acct : Account) (err : error) :
  updateBalanceInTx env q id amount ty db = (db', (acct, Some err)) -> db' = db.
Proof.
  unfold updateBalanceInTx. cbv zeta.
  pose proof (GetAccount_db env q id db) as Hdb.
  destruct (GetAccount env q id db) as [db1 [account oe]]. simpl in Hdb. subst db1.
  destruct oe as [e |]; [now intros [= <-] |].
  match goal with
  | |- context [match (if ?b then ?x else ?y) with _ => _ end] =>
      destruct (if b then x else y) as [nb [e |]]
  end; [now intros [= <-] |].
  destruct (UpdateAccount env q _ db) as [db2 [updated oe]] eqn:Hu.
  destruct oe as [e |]; [| discriminate].
  intros [= <- _ _]. now apply UpdateAccount_failed in Hu.
Qed.

(** C10.  Every apply, successful or not, leaves the id, the user id, the
    currency, the status and the creation time of every account as they
    were: the handler, and the balance step on its own, change at most the
    balance column. *)
Theorem C10_only_the_balance_changes (env : Env) (r : Request) (db : DB)
  (q : Queries) (id : Z) (amount : float64) (ty : string) :
  Forall2 same_but_balance
    (accounts (committed db))
    (accounts (committed (fst (CreateTransactionHandler env r db))))
  /\ match updateBalanceInTx env q id amount ty db with
     | (db', (_, Some _)) => db' = db
     | (db', (updated, None)) =>
         exists (t t' : Tables) (before : Account),
           tables_of q db = Some t /\ tables_of q db' = Some t'
           /\ Forall2 same_but_balance (accounts t) (accounts t')
           /\ transactions t' = transactions t
           /\ find_account id t = Some before
           /\ same_but_balance before updated
     end.
Proof.
  split.
  - destruct (handler_spec env r db)
      as [[_ H] | (u & a & tr & _ & _ & _ & _ & _ & before & _ & Haccs & _)].
    + rewrite H. apply Forall2_same_refl.
    + rewrite Haccs. apply Forall2_same_set.
  - destruct (updateBalanceInTx env q id amount ty db) as [db' [updated [err |]]] eqn:H.
    + now apply updateBalanceInTx_failed in H.
    + apply updateBalanceInTx_ok in H as (t & before & nb & Ht & Hacc & _ & -> & ->).
      eexists t, _, before. split; [assumption |].
      split; [apply tables_of_with_tables |]. simpl.
      split; [apply Forall2_same_set |]. split; [reflexivity |].
      split; [assumption | apply same_but_balance_set].
Qed.

(** ** Further properties of the code *)

Import Terms.

(** *** ValidateID *)

Lemma is_digit_range (c : ascii) :
  Strconv.is_digit c = true <-> 0 <= Strconv.byte_of c - Strconv.byte_of "0" <= 9.
Proof.
  unfold Strconv.is_digit. rewrite andb_true_iff, !Z.leb_le.
  change (Strconv.byte_of "0") with 48. change (Strconv.byte_of "9") with 57. lia.
Qed.

Lemma is_digit_not_sign (c : ascii) :
  Strconv.is_digit c = true -> Strconv.is_sign c = false.
Proof.
  intros H. apply is_digit_range in H. unfold Strconv.is_sign.
  change (Strconv.byte_of "0") with 48 in H.
  change (Strconv.byte_of "+") with 43. change (Strconv.byte_of "-") with 45.
  rewrite orb_false_iff, !Z.eqb_neq. lia.
Qed.

Lemma digits_from_ge (ds : list ascii) (n : Z) :
  forallb Strconv.is_digit ds = true -> 0 <= n -> n <= digits_from n ds.
Proof.
  revert n. induction ds as [| c ds IH]; simpl; intros n Hd Hn; [unfold digits_from; simpl; lia |].
  apply andb_true_iff in Hd as [Hc Hd]. apply is_digit_range in Hc.
  specialize (IH (n * 10 + (Strconv.byte_of c - Strconv.byte_of "0")) Hd).
  change (digits_from n (c :: ds))
    with (digits_from (n * 10 + (Strconv.byte_of c - Strconv.byte_of "0")) ds). lia.
Qed.

(** the loop of ParseUint on a string of digits: the number read, or the
    range error when it does not fit 64 bits *)
Lemma parse_uint_digits (ds : list ascii) (n : Z) :
  forallb Strconv.is_digit ds = true -> 0 <= n <= Strconv.maxUint64 ->
  Strconv.parse_uint n ds
  = if digits_from n ds <=? Strconv.maxUint64 then (digits_from n ds, None)
    else (Strconv.maxUint64, Some Strconv.ErrRange).
Proof.
  revert n. induction ds as [| c ds IH]; intros n Hd Hn.
  - unfold digits_from. simpl. destruct (Z.leb_spec n Strconv.maxUint64); [reflexivity | lia].
  - simpl in Hd. apply andb_true_iff in Hd as [Hc Hd].
    cbn [Strconv.parse_uint]. rewrite Hc.
    pose proof (proj1 (is_digit_range c) Hc) as Hr.
    change (digits_from n (c :: ds))
      with (digits_from (n * 10 + (Strconv.byte_of c - Strconv.byte_of "0")) ds).
    set (n1 := n * 10 + (Strconv.byte_of c - Strconv.byte_of "0")) in *.
    assert (Hn1 : 0 <= n1) by (unfold n1; lia).
    pose proof (digits_from_ge ds n1 Hd Hn1) as Hge.
    destruct (Strconv.maxUint64 / 10 + 1 <=? n) eqn:Hcut.
    + apply Z.leb_le in Hcut.
      assert (Strconv.maxUint64 < n1).
      { unfold n1. change Strconv.maxUint64 with 18446744073709551615 in *.
        change (18446744073709551615 / 10 + 1) with 1844674407370955162 in Hcut. lia. }
      destruct (Z.leb_spec (digits_from n1 ds) Strconv.maxUint64); [lia | reflexivity].
    + destruct (Strconv.maxUint64 <? n1) eqn:Hov.
      * apply Z.ltb_lt in Hov.
        destruct (Z.leb_spec (digits_from n1 ds) Strconv.maxUint64); [lia | reflexivity].
      * apply Z.ltb_ge in Hov. apply IH; [assumption | lia].
Qed.

(** the loop reports no error only on a string of digits *)
Lemma parse_uint_None (s : list ascii) (n v : Z) :
  Strconv.parse_uint n s = (v, None) -> forallb Strconv.is_digit s = true.
Proof.
  revert n. induction s as [| c s IH]; intros n; [reflexivity |].
  cbn [Strconv.parse_uint forallb].
  destruct (Strconv.is_digit c); [| discriminate].
  destruct (_ <=? n); [discriminate |].
  destruct (_ <? _); [discriminate |]. apply IH.
Qed.

Lemma ParseUint_None (s : list ascii) (v : Z) :
  Strconv.ParseUint s = (v, None) <->
  s <> [] /\ forallb Strconv.is_digit s = true
  /\ decimal_value s = v /\ v <= Strconv.maxUint64.
Proof.
  unfold Strconv.ParseUint, decimal_value. destruct s as [| c s]; [easy |].
  split.
  - intros H. pose proof (parse_uint_None _ _ _ H) as Hd.
    rewrite parse_uint_digits in H by (try assumption; unfold Strconv.maxUint64; lia).
    destruct (Z.leb_spec (digits_from 0 (c :: s)) Strconv.maxUint64); [| discriminate].
    injection H as <-. easy.
  - intros (_ & Hd & <- & Hv).
    rewrite parse_uint_digits by (try assumption; unfold Strconv.maxUint64; lia).
    destruct (Z.leb_spec (digits_from 0 (c :: s)) Strconv.maxUint64); [reflexivity | lia].
Qed.

Lemma ParseUint_range (s : list ascii) (v : Z) :
  Strconv.ParseUint s = (v, Some Strconv.ErrRange) -> v = Strconv.maxUint64.
Proof.
  unfold Strconv.ParseUint. destruct s as [| c s]; [discriminate |].
  generalize (c :: s) 0. clear. intros s. induction s as [| c s IH]; intros n; [discriminate |].
  cbn [Strconv.parse_uint]. destruct (Strconv.is_digit c); [| discriminate].
  destruct (_ <=? n); [now intros [= <-] |].
  destruct (_ <? _); [now intros [= <-] |]. apply IH.
Qed.

Lemma decimal_value_nonneg (ds : list ascii) :
  forallb Strconv.is_digit ds = true -> 0 <= decimal_value ds.
Proof. intros H. now apply digits_from_ge. Qed.

(** [ParseInt] without error, on a positive result *)
Lemma ParseInt_positive (s : string) (n : Z) :
  0 < n ->
  Strconv.ParseInt s = (n, None) <->
  exists ds : list ascii,
    (list_ascii_of_string s = ds \/ list_ascii_of_string s = "+"%char :: ds)
    /\ ds <> [] /\ forallb Strconv.is_digit ds = true
    /\ decimal_value ds = n /\ n < 2 ^ 63.
Proof.
  intros Hpos. unfold Strconv.ParseInt.
  destruct (list_ascii_of_string s) as [| c s'] eqn:Hs.
  { split; [discriminate |]. intros (ds & [<- | [=]] & Hne & _); congruence. }
  split.
  - destruct (Strconv.ParseUint (if Strconv.is_sign c then s' else c :: s'))
      as [un [[] |]] eqn:Hu; [discriminate | |].
    + apply ParseUint_range in Hu. subst un.
      destruct (Strconv.byte_of c =? Strconv.byte_of "-"); simpl; discriminate.
    + apply ParseUint_None in Hu as (Hne & Hd & Hv & Hmax).
      pose proof (decimal_value_nonneg _ Hd) as H0. rewrite Hv in H0.
      destruct (Strconv.byte_of c =? Strconv.byte_of "-") eqn:Hneg; simpl.
      * destruct (2 ^ 63 <? un); [discriminate |]. intros [= <-]. lia.
      * destruct (Z.leb_spec (2 ^ 63) un); [discriminate |]. intros [= <-].
        exists (if Strconv.is_sign c then s' else c :: s').
        split; [| auto].
        destruct (Strconv.is_sign c) eqn:Hsign; [| now left]. right.
        unfold Strconv.is_sign in Hsign. rewrite Hneg, orb_false_r in Hsign.
        apply Z.eqb_eq in Hsign. f_equal.
        unfold Strconv.byte_of in Hsign. apply N2Z.inj in Hsign.
        rewrite <- (ascii_N_embedding c), Hsign. reflexivity.
  - intros (ds & Hshape & Hne & Hd & Hv & Hlt).
    assert (Hu : Strconv.ParseUint ds = (n, None)).
    { apply ParseUint_None. unfold Strconv.maxUint64. repeat split; try assumption. lia. }
    destruct Hshape as [<- | [= -> <-]].
    + simpl in Hd. apply andb_true_iff in Hd as [Hc _].
      rewrite (is_digit_not_sign c Hc), Hu.
      assert ((Strconv.byte_of c =? Strconv.byte_of "-") = false) as ->.
      { apply is_digit_range in Hc. change (Strconv.byte_of "0") with 48 in Hc.
        change (Strconv.byte_of "-") with 45. apply Z.eqb_neq. lia. }
      simpl. destruct (Z.leb_spec (2 ^ 63) n); [lia | reflexivity].
    + change (Strconv.is_sign "+") with true. cbv iota. rewrite Hu.
      change (Strconv.byte_of "+" =? Strconv.byte_of "-") with false.
      simpl. destruct (Z.leb_spec (2 ^ 63) n); [lia | reflexivity].
Qed.

(** X1.  [ValidateID] returns either a positive id that fits an int64,
    without error, or the id 0 with [ErrInvalidID]: there is no other
    error, and no id comes with an error. *)
Theorem ValidateID_positive_or_ErrInvalidID (userIDStr : string) :
  (exists userID : Z,
     ValidateID userIDStr = (userID, None) /\ 0 < userID <= 2 ^ 63 - 1)
  \/ ValidateID userIDStr = (0, Some ErrInvalidID).
Proof.
  unfold ValidateID.
  destruct (String.eqb userIDStr EmptyString); [now right |].
  destruct (Strconv.ParseInt userIDStr) as [userID [e |]] eqn:Hp; [now right |].
  destruct (Z.leb_spec userID 0); [now right |].
  left. exists userID. split; [reflexivity |].
  apply ParseInt_positive in Hp as (ds & _ & _ & _ & _ & Hlt); lia.
Qed.

(** X2.  The strings that [ValidateID] accepts are the strings of decimal
    digits, with an optional leading plus sign, that write a number between
    1 and 2^63 - 1; the id returned is that number.  Leading zeros are
    accepted; a minus sign, a space, an underscore, a base prefix are not. *)
Theorem ValidateID_accepts_decimal_digits (userIDStr : string) (userID : Z) :
  ValidateID userIDStr = (userID, None)
  <-> exists ds : list ascii,
        (list_ascii_of_string userIDStr = ds
         \/ list_ascii_of_string userIDStr = "+"%char :: ds)
        /\ ds <> [] /\ forallb Strconv.is_digit ds = true
        /\ decimal_value ds = userID /\ 0 < userID < 2 ^ 63.
Proof.
  unfold ValidateID. split.
  - destruct (String.eqb userIDStr EmptyString); [discriminate |].
    destruct (Strconv.ParseInt userIDStr) as [n [e |]] eqn:Hp; [discriminate |].
    destruct (Z.leb_spec n 0); [discriminate |]. intros [= <-].
    apply ParseInt_positive in Hp as (ds & Hshape & Hne & Hd & Hv & Hlt); [| assumption].
    exists ds. repeat split; assumption.
  - intros (ds & Hshape & Hne & Hd & Hv & Hpos & Hlt).
    assert (Hp : Strconv.ParseInt userIDStr = (userID, None)).
    { apply ParseInt_positive; [assumption |]. exists ds. repeat split; assumption. }
    destruct (String.eqb_spec userIDStr EmptyString) as [-> | _].
    { destruct Hshape as [<- | [=]]. now contradiction Hne. }
    rewrite Hp. destruct (Z.leb_spec userID 0); [lia | reflexivity].
Qed.

(** *** HandleDatabaseError and errors.Join *)

Lemma ToLower_app (a b : string) : ToLower (a +:+ b) = ToLower a +:+ ToLower b.
Proof. induction a as [| c a IH]; simpl; [reflexivity | now rewrite IH]. Qed.

(** a string without the line feed *)
Fixpoint one_line (p : string) : bool :=
  match p with
  | EmptyString => true
  | String c p' => negb (Ascii.eqb c (ascii_of_nat 10)) && one_line p'
  end.

Lemma prefix_before_newline (p a b : string) :
  one_line p = true ->
  String.prefix p (a +:+ newline +:+ b) = String.prefix p a.
Proof.
  revert a. induction p as [| c p IH]; intros a Hp; [now destruct a |].
  simpl in Hp. apply andb_true_iff in Hp as [Hc Hp].
  destruct a as [| d a]; simpl.
  - destruct (ascii_dec c (ascii_of_nat 10)) as [-> | Hne]; [discriminate |].
    destruct (ascii_dec c "010") as [-> | _]; [discriminate | reflexivity].
  - destruct (ascii_dec c d); [now apply IH | reflexivity].
Qed.

Lemma Contains_nil (p : string) : Contains EmptyString p = String.prefix p EmptyString.
Proof. simpl. now rewrite orb_false_r. Qed.

(** a keyword on one line is in the message of a joined error when it is
    in the message of one of the two errors *)
Lemma Contains_join (p a b : string) :
  one_line p = true -> p <> EmptyString ->
  Contains (a +:+ newline +:+ b) p = Contains a p || Contains b p.
Proof.
  intros Hp Hne. induction a as [| d a IH].
  - destruct p as [| c p]; [congruence |].
    simpl in Hp. apply andb_true_iff in Hp as [Hc _].
    change (EmptyString +:+ newline +:+ b) with (String "010" b).
    cbn [Contains String.prefix].
    destruct (ascii_dec c "010") as [-> | _]; [discriminate |]. reflexivity.
  - change (String d a +:+ newline +:+ b) with (String d (a +:+ newline +:+ b)).
    cbn [Contains]. rewrite IH.
    change (String d (a +:+ newline +:+ b)) with (String d a +:+ newline +:+ b).
    rewrite prefix_before_newline by assumption.
    now rewrite orb_assoc.
Qed.

Ltac split_keywords :=
  repeat match goal with
         | |- context [Contains ?s ?p] =>
             let H := fresh in destruct (Contains s p) eqn:H; cbn [orb]; cbv iota;
             try solve [auto | discriminate]
         end.

(** X3.  The answer to the joined error that [runInTx] returns when the
    rollback fails too is the answer to one of the two errors, and it is
    the answer to the first error whenever the rollback error alone would
    get the default answer. *)
Theorem HandleDatabaseError_Join (err rollbackErr : error) (entityType : string) :
  (HandleDatabaseError (Join err rollbackErr) entityType = HandleDatabaseError err entityType
   \/ HandleDatabaseError (Join err rollbackErr) entityType
      = HandleDatabaseError rollbackErr entityType)
  /\ (HandleDatabaseError rollbackErr entityType
      = RespondError StatusInternalServerError "Database operation failed"
      -> HandleDatabaseError (Join err rollbackErr) entityType
         = HandleDatabaseError err entityType).
Proof.
  unfold HandleDatabaseError. cbn [Error]. rewrite !ToLower_app.
  change (ToLower newline) with newline.
  rewrite !Contains_join by easy.
  generalize (ToLower (Error err)) (ToLower (Error rollbackErr)). intros a b.
  split.
  - split_keywords.
  - unfold RespondError. split_keywords.
Qed.

(** *** ValidateBodyWithDetails *)

Lemma validation_errors_field_errors (d : Models.Transaction) :
  validation_errors (validate_Struct d) = field_errors d.
Proof.
  unfold validate_Struct, field_errors, validate_string, entry_if.
  destruct (String.eqb (Models.ID d) EmptyString),
           (Models.AccountID d =? 0),
           (String.eqb (Models.Amount d) EmptyString),
           (String.eqb (Models.Source d) EmptyString),
           (oneof (Models.Source d) ["game"; "server"; "payment"]),
           (String.eqb (Models.TransactionType d) EmptyString),
           (oneof (Models.TransactionType d) ["win"; "lose"]);
    reflexivity.
Qed.

Lemma lookup_entry_if (failed : bool) (jsonName message k : string)
  (errors : gmap string string) :
  entry_if failed jsonName message errors !! k
  = if failed && String.eqb jsonName k then Some message else errors !! k.
Proof.
  unfold entry_if. destruct failed; simpl; [| reflexivity].
  destruct (String.eqb_spec jsonName k) as [-> | Hne].
  - apply lookup_insert_eq.
  - now apply lookup_insert_ne.
Qed.

Lemma validation_errors_nonempty (e : FieldError) (l : list FieldError) :
  validation_errors (e :: l) <> ∅.
Proof.
  unfold validation_errors. simpl.
  generalize (insert_non_empty (M := gmap string) (∅ : gmap string string)
                (getJSONFieldName (StructField e))
                (generateValidationErrorMessage (getJSONFieldName (StructField e)) e)).
  generalize (<[getJSONFieldName (StructField e) :=
                generateValidationErrorMessage (getJSONFieldName (StructField e)) e]>
              (∅ : gmap string string)).
  induction l as [| e' l IH]; intros m Hm; simpl; [assumption |].
  apply IH, insert_non_empty.
Qed.

Lemma validate_Struct_nil (d : Models.Transaction) :
  validate_Struct d = []
  <-> Models.ID d <> EmptyString
      /\ Models.AccountID d <> 0
      /\ Models.Amount d <> EmptyString
      /\ oneof (Models.Source d) ["game"; "server"; "payment"] = true
      /\ oneof (Models.TransactionType d) ["win"; "lose"] = true.
Proof.
  unfold validate_Struct, validate_string.
  destruct (String.eqb_spec (Models.ID d) EmptyString) as [-> | H1];
    [split; [discriminate | intros [[] _]; reflexivity] |].
  destruct (Z.eqb_spec (Models.AccountID d) 0) as [H2 | H2];
    [split; [discriminate | intros (_ & [] & _); assumption] |].
  destruct (String.eqb_spec (Models.Amount d) EmptyString) as [H3 | H3];
    [split; [discriminate | intros (_ & _ & [] & _); assumption] |].
  destruct (String.eqb_spec (Models.Source d) EmptyString) as [H4 | H4].
  { split; [discriminate |]. intros (_ & _ & _ & H & _). now rewrite H4 in H. }
  destruct (oneof (Models.Source d) _);
    [| split; [discriminate | intros (_ & _ & _ & [=] & _)]].
  destruct (String.eqb_spec (Models.TransactionType d) EmptyString) as [H5 | H5].
  { split; [discriminate |]. intros (_ & _ & _ & _ & H). now rewrite H5 in H. }
  destruct (oneof (Models.TransactionType d) _);
    [| split; [discriminate | intros (_ & _ & _ & _ & [=])]].
  simpl. tauto.
Qed.

(** X4.  [ValidateBodyWithDetails] at [models.Transaction] returns true
    exactly when the body is a JSON object that decodes and, in the struct
    after the decoding (the fields the handler filled in before, overwritten
    by the members of the body), the transaction id, the account id and the
    amount are not the zero value, the source is game, server or payment
    and the type is win or lose; the map of errors is then empty. *)
Theorem ValidateBodyWithDetails_accepts (body : RequestBody) (reqData decoded : Models.Transaction)
  (errors : gmap string string) :
  ValidateBodyWithDetails body reqData = (true, errors, decoded)
  <-> (exists members, body = Object members)
      /\ decoded = fst (Decode body reqData)
      /\ errors = ∅
      /\ Models.ID decoded <> EmptyString
      /\ Models.AccountID decoded <> 0
      /\ Models.Amount decoded <> EmptyString
      /\ oneof (Models.Source decoded) ["game"; "server"; "payment"] = true
      /\ oneof (Models.TransactionType decoded) ["win"; "lose"] = true.
Proof.
  unfold ValidateBodyWithDetails. destruct body as [err | members].
  { simpl. split; [discriminate | intros ([m [=]] & _)]. }
  cbn [Decode]. set (d := Models.mkTransaction _ _ _ _ _ _ _). cbn [fst].
  split.
  - destruct (isEmptyStruct d); [discriminate |].
    destruct (validate_Struct d) eqn:Hv; [| discriminate].
    intros [= <- <-]. apply validate_Struct_nil in Hv. eauto 10.
  - intros (_ & -> & -> & Hvalid).
    assert (isEmptyStruct d = false) as ->.
    { unfold isEmptyStruct. destruct Hvalid as [H _].
      destruct (String.eqb_spec (Models.ID d) EmptyString); [contradiction | reflexivity]. }
    apply validate_Struct_nil in Hvalid. now rewrite Hvalid.
Qed.

(** the boolean, the map of errors and the struct, case by case *)
Lemma validation_outcome (body : RequestBody) (reqData : Models.Transaction) :
  let '(ok, errors, decoded) := ValidateBodyWithDetails body reqData in
  (ok = true <-> errors = ∅)
  /\ match body with
     | Undecodable err => errors = {[ "body" := "Invalid JSON format: " +:+ err ]}
     | Object _ =>
         if isEmptyStruct decoded
         then errors = {[ "body" := "Request body cannot be empty" ]}
         else
           errors !! "transactionId"
           = (if String.eqb (Models.ID decoded) EmptyString
              then Some "The transactionId field is required" else None)
           /\ errors !! "account_id"
              = (if Models.AccountID decoded =? 0
                 then Some "The account_id field is required" else None)
           /\ errors !! "amount"
              = (if String.eqb (Models.Amount decoded) EmptyString
                 then Some "The amount field is required" else None)
           /\ errors !! "source"
              = (if String.eqb (Models.Source decoded) EmptyString
                 then Some "The source field is required"
                 else if oneof (Models.Source decoded) ["game"; "server"; "payment"]
                      then None
                      else Some "The source must be one of: game server payment")
           /\ errors !! "state"
              = (if String.eqb (Models.TransactionType decoded) EmptyString
                 then Some "The state field is required"
                 else if oneof (Models.TransactionType decoded) ["win"; "lose"]
                      then None
                      else Some "The state must be one of: win lose")
           /\ forall k : string,
                errors !! k <> None ->
                In k ["transactionId"; "account_id"; "amount"; "source"; "state"]
     end.
Proof.
  unfold ValidateBodyWithDetails. destruct body as [err | members].
  { simpl. split; [| reflexivity]. split; [discriminate |].
    intros H. now apply (map_non_empty_singleton (M := gmap string)) in H. }
  cbn [Decode]. set (d := Models.mkTransaction _ _ _ _ _ _ _).
  destruct (isEmptyStruct d) eqn:Hempty.
  { rewrite Hempty. split; [| reflexivity]. split; [discriminate |].
    intros H. now apply (map_non_empty_singleton (M := gmap string)) in H. }
  pose proof (validation_errors_field_errors d) as Hmap.
  assert (Hlookups :
    field_errors d !! "transactionId"
    = (if String.eqb (Models.ID d) EmptyString
       then Some "The transactionId field is required" else None)
    /\ field_errors d !! "account_id"
       = (if Models.AccountID d =? 0
          then Some "The account_id field is required" else None)
    /\ field_errors d !! "amount"
       = (if String.eqb (Models.Amount d) EmptyString
          then Some "The amount field is required" else None)
    /\ field_errors d !! "source"
       = (if String.eqb (Models.Source d) EmptyString
          then Some "The source field is required"
          else if oneof (Models.Source d) ["game"; "server"; "payment"]
               then None
               else Some "The source must be one of: game server payment")
    /\ field_errors d !! "state"
       = (if String.eqb (Models.TransactionType d) EmptyString
          then Some "The state field is required"
          else if oneof (Models.TransactionType d) ["win"; "lose"]
               then None
               else Some "The state must be one of: win lose")
    /\ forall k : string,
         field_errors d !! k <> None ->
         In k ["transactionId"; "account_id"; "amount"; "source"; "state"]).
  { clear. unfold field_errors. cbv zeta.
    generalize (String.eqb (Models.ID d) EmptyString) (Models.AccountID d =? 0)
               (String.eqb (Models.Amount d) EmptyString)
               (String.eqb (Models.Source d) EmptyString)
               (oneof (Models.Source d) ["game"; "server"; "payment"])
               (String.eqb (Models.TransactionType d) EmptyString)
               (oneof (Models.TransactionType d) ["win"; "lose"]).
    intros b1 b2 b3 b4 b5 b6 b7.
    repeat split.
    1-5: rewrite !lookup_entry_if;
         destruct b1, b2, b3, b4, b5, b6, b7; reflexivity.
    intros k. rewrite !lookup_entry_if, lookup_empty.
    destruct (String.eqb_spec "state" k) as [<- | _]; [intros _; simpl; tauto |].
    destruct (String.eqb_spec "source" k) as [<- | _]; [intros _; simpl; tauto |].
    destruct (String.eqb_spec "amount" k) as [<- | _]; [intros _; simpl; tauto |].
    destruct (String.eqb_spec "account_id" k) as [<- | _]; [intros _; simpl; tauto |].
    destruct (String.eqb_spec "transactionId" k) as [<- | _]; [intros _; simpl; tauto |].
    rewrite !andb_false_r. cbv iota. congruence. }
  destruct (validate_Struct d) as [| e l] eqn:Hv; rewrite Hempty.
  - change (validation_errors []) with (∅ : gmap string string) in Hmap.
    rewrite Hmap. split; [tauto | exact Hlookups].
  - rewrite Hmap. split; [| exact Hlookups]. split; [discriminate |].
    intros H. rewrite <- Hmap in H. now apply validation_errors_nonempty in H.
Qed.

(** X5.  The map of errors of [ValidateBodyWithDetails] at
    [models.Transaction]: it is empty exactly when the boolean is true; a
    body that does not decode and a struct that is empty after the decoding
    get the one entry body; otherwise each field that fails gets one entry
    under its JSON name (transactionId, account_id, amount, source, state)
    with the message of the first tag that fails, and there is no other
    entry. *)
Theorem ValidateBodyWithDetails_errors (body : RequestBody) (reqData : Models.Transaction) :
  let '(ok, errors, decoded) := ValidateBodyWithDetails body reqData in
  (ok = true <-> errors = ∅)
  /\ match body with
     | Undecodable err => errors = {[ "body" := "Invalid JSON format: " +:+ err ]}
     | Object _ =>
         if isEmptyStruct decoded
         then errors = {[ "body" := "Request body cannot be empty" ]}
         else
           errors !! "transactionId"
           = (if String.eqb (Models.ID decoded) EmptyString
              then Some "The transactionId field is required" else None)
           /\ errors !! "account_id"
              = (if Models.AccountID decoded =? 0
                 then Some "The account_id field is required" else None)
           /\ errors !! "amount"
              = (if String.eqb (Models.Amount decoded) EmptyString
                 then Some "The amount field is required" else None)
           /\ errors !! "source"
              = (if String.eqb (Models.Source decoded) EmptyString
                 then Some "The source field is required"
                 else if oneof (Models.Source decoded) ["game"; "server"; "payment"]
                      then None
                      else Some "The source must be one of: game server payment")
           /\ errors !! "state"
              = (if String.eqb (Models.TransactionType decoded) EmptyString
                 then Some "The state field is required"
                 else if oneof (Models.TransactionType decoded) ["win"; "lose"]
                      then None
                      else Some "The state must be one of: win lose")
           /\ forall k : string,
                errors !! k <> None ->
                In k ["transactionId"; "account_id"; "amount"; "source"; "state"]
     end.
Proof. exact (validation_outcome body reqData). Qed.

(** *** The outcome of the handler *)

Lemma find_exists {A : Type} (f : A -> bool) (l : list A) (x : A) :
  In x l -> f x = true -> exists y, find f l = Some y.
Proof.
  intros Hin Hf. destruct (find f l) as [y |] eqn:H; [eauto |].
  now rewrite (find_none _ _ H x Hin) in Hf.
Qed.

Lemma account_of_user_by_id (u : Z) (a : Account) (t : Tables) :
  find (fun a => acc_UserID a =? u) (accounts t) = Some a ->
  exists before, find_account (acc_ID a) t = Some before.
Proof.
  intros H. apply find_some in H as [Hin _].
  apply (find_exists _ _ a Hin). apply Z.eqb_refl.
Qed.

(** X6.  The outcome of a valid request when no call to the storage layer
    fails, decided in this order: a transaction id already in the ledger is
    answered 409; an account id (of the body, or of the user's account when
    the body has none) that names no account is answered 400 as a
    constraint violation; a win is applied; a lose that would make the
    balance of the user's account negative is answered 400; any other lose
    is applied.  An applied transaction is answered 200 and commits the
    ledger row and the new balance; every other answer commits nothing. *)
Theorem CreateTransactionHandler_outcome (env : Env) (r : Request) (db : DB) (userID : Z)
  (account : Account) (transaction : Models.Transaction) :
  no_storage_failure env ->
  prepared env r db = Some (userID, account, transaction) ->
  exists before : Account,
    find_account (acc_ID account) (committed db) = Some before
    /\ CreateTransactionHandler env r db
       = match find_transaction (Models.ID transaction) (committed db) with
         | Some _ =>
             (mkDB (committed db) None,
              RespondError StatusConflict "Transaction already exists")
         | None =>
             match find_account (Models.AccountID transaction) (committed db) with
             | None =>
                 (mkDB (committed db) None,
                  RespondError StatusBadRequest "Invalid reference or constraint violation")
             | Some _ =>
                 let success :=
                   RespondSuccess "Transaction created successfully"
                                  (responseData userID transaction) in
                 let amount := Models.AmountFloat transaction in
                 if String.eqb (Models.TransactionType transaction) "win" then
                   (mkDB (applied env transaction (acc_ID account)
                            (F64.add (acc_Balance before) amount) (committed db)) None,
                    success)
                 else if F64.ltb (F64.sub (acc_Balance before) amount) F64.zero then
                   (mkDB (committed db) None,
                    RespondError StatusBadRequest
                      "User balance is insufficient for this transaction")
                 else
                   (mkDB (applied env transaction (acc_ID account)
                            (F64.sub (acc_Balance before) amount) (committed db)) None,
                    success)
             end
         end.
Proof.
  intros (_ & Hf1 & Hf2 & Hf3 & Hf4 & Hf5 & Hf6) Hprep.
  pose proof (prepared_type _ _ _ _ _ _ Hprep) as Htype.
  rewrite (handler_prepared _ _ _ _ _ _ Hprep).
  apply prepared_inv in Hprep as (d & _ & _ & Hacc & Hv & _ & _ & _ & HSrc & HTy).
  apply ValidateBodyWithDetails_valid in Hv as (_ & _ & _ & Hsrc & Hty).
  destruct (account_of_user_by_id _ _ _ Hacc) as [before Hbefore].
  exists before. split; [assumption |].
  unfold applied, ledger_row, runInTx, Begin. rewrite Hf1.
  unfold createAndUpdate, createTransactionInTx, CreateTransaction, exec, WithTx.
  rewrite Hf2. unfold insert_transaction.
  cbn -[oneof find_transaction find_account Rollback Commit HandleDatabaseError
        updateBalanceInTx].
  rewrite HSrc, HTy, Hsrc, Hty.
  cbn -[oneof find_transaction find_account Rollback Commit HandleDatabaseError
        updateBalanceInTx].
  destruct (find_transaction (Models.ID transaction) (committed db)).
  { cbn -[HandleDatabaseError]. unfold Rollback. rewrite Hf6. reflexivity. }
  destruct (find_account (Models.AccountID transaction) (committed db)).
  2: { cbn -[HandleDatabaseError]. unfold Rollback. rewrite Hf6. reflexivity. }
  cbn -[Rollback Commit HandleDatabaseError updateBalanceInTx].
  erewrite updateBalanceInTx_read; [| exact Hf3 | reflexivity | exact Hbefore].
  rewrite Hf4. rewrite <- HTy.
  destruct Htype as [-> | ->].
  - cbn -[Rollback Commit HandleDatabaseError F64.add]. unfold Commit. rewrite Hf5.
    reflexivity.
  - cbn -[Rollback Commit HandleDatabaseError F64.ltb F64.sub].
    destruct (F64.ltb _ F64.zero).
    + unfold Rollback. rewrite Hf6. reflexivity.
    + cbn -[Rollback Commit HandleDatabaseError F64.ltb F64.sub]. unfold Commit. rewrite Hf5.
      reflexivity.
Qed.

Lemma CreateTransactionHandler_outcome_witness :
  exists before : Account,
    find_account 1 (committed migrated) = Some before
    /\ CreateTransactionHandler quiet (post "1" "A" "50.00" "win") migrated
       = (mkDB (applied quiet
                  (Models.mkTransaction "A" 1 "50.00" (F64.of_Z 50) "game" "win" EmptyString)
                  1 (F64.add (acc_Balance before) (F64.of_Z 50)) (committed migrated)) None,
          RespondSuccess "Transaction created successfully"
            (responseData 1
               (Models.mkTransaction "A" 1 "50.00" (F64.of_Z 50) "game" "win" EmptyString))).
Proof.
  apply (CreateTransactionHandler_outcome quiet (post "1" "A" "50.00" "win") migrated 1
           (account_of 1 1 F64.zero)
           (Models.mkTransaction "A" 1 "50.00" (F64.of_Z 50) "game" "win" EmptyString)).
  - repeat split.
  - vm_compute. reflexivity.
Defined.

(** *** The constraints of the tables *)

Lemma runInTx_ok (env : Env) (db db' : DB) (fn : Queries -> DB -> DB * option error) :
  runInTx env db fn = (db', None) ->
  exists db2 : DB,
    fn WithTx (mkDB (committed db) (Some (committed db))) = (db2, None)
    /\ pending db2 = Some (committed db') /\ pending db' = None.
Proof.
  unfold runInTx.
  destruct (Begin_spec env db) as [-> | [err ->]]; [| discriminate].
  destruct (fn WithTx _) as [db2 [err |]].
  - destruct (Rollback env db2) as [db3 [re |]]; discriminate.
  - intros H. exists db2. split; [reflexivity |]. now apply Commit_ok in H.
Qed.

Lemma applied_account_exists (env : Env) (tr : Models.Transaction) (a : Account)
  (db db' : DB) :
  runInTx env db (createAndUpdate env tr a) = (db', None) ->
  exists target, find_account (Models.AccountID tr) (committed db) = Some target.
Proof.
  intros H. apply runInTx_ok in H as (db2 & H & _).
  unfold createAndUpdate in H.
  destruct (createTransactionInTx env WithTx tr _) as [db1 [row [e |]]] eqn:H1;
    [discriminate |].
  apply createTransactionInTx_ok in H1 as (t & Ht & _ & _ & _ & Hfk & _).
  simpl in Ht. now injection Ht as <-.
Qed.

Lemma find_none_not_in (id : string) (l : list Transaction) :
  find (fun r => String.eqb (txn_ID r) id) l = None -> ~ In id (map txn_ID l).
Proof.
  intros H Hin. apply in_map_iff in Hin as (row & <- & Hin).
  pose proof (find_none _ _ H row Hin) as Hrow. simpl in Hrow.
  now rewrite String.eqb_refl in Hrow.
Qed.

Lemma map_ID_set_balance (id : Z) (b : float64) (l : list Account) :
  map acc_ID (map (set_balance id b) l) = map acc_ID l.
Proof.
  rewrite map_map. apply map_ext. intros a. apply set_balance_ID.
Qed.

Lemma integrity_applied (env : Env) (tr : Models.Transaction) (a : Account) (t t' : Tables) :
  integrity t ->
  both_applied env tr a t t' ->
  (exists target, find_account (Models.AccountID tr) t = Some target) ->
  oneof (Models.Source tr) ["game"; "server"; "payment"] = true ->
  integrity t'.
Proof.
  intros (Hpk & Hids & Hrows) (Hfresh & Hledger & Htype & before & Hbefore & Haccounts & _)
         [target Htarget] Hsource.
  assert (Hfind : forall id acct, find_account id t = Some acct ->
                                  exists acct', find_account id t' = Some acct').
  { intros id acct H. unfold find_account in *. rewrite Haccounts, find_set_balance, H.
    simpl. eauto. }
  unfold integrity. rewrite Haccounts, Hledger, map_ID_set_balance, map_app.
  split; [assumption |]. split.
  - apply NoDup_app. split; [assumption |]. split; [| apply NoDup_singleton].
    intros id Hin Hnew. apply list_elem_of_singleton in Hnew. subst id.
    apply find_none_not_in in Hfresh. apply Hfresh. now apply list_elem_of_In.
  - apply Forall_app. split.
    + eapply Forall_impl; [exact Hrows |]. intros row ([acct Hacct] & Hs & Hty).
      split; [eapply Hfind; eassumption | auto].
    + apply Forall_singleton. unfold ledger_row. simpl.
      split; [eapply Hfind; eassumption |]. split; [assumption |].
      destruct Htype as [-> | ->]; reflexivity.
Qed.

Lemma integrity_handler (env : Env) (r : Request) (db : DB) :
  integrity (committed db) ->
  integrity (committed (fst (CreateTransactionHandler env r db))).
Proof.
  intros Hint.
  destruct (handler_spec env r db) as [[_ ->] | (u & a & tr & Hprep & Hresp & Hboth)];
    [assumption |].
  eapply integrity_applied; [exact Hint | exact Hboth | |].
  - rewrite (handler_prepared _ _ _ _ _ _ Hprep) in Hboth.
    destruct (runInTx env db (createAndUpdate env tr a)) as [db' [err |]] eqn:Hrun.
    + exfalso. rewrite (handler_prepared _ _ _ _ _ _ Hprep), Hrun in Hresp.
      simpl in Hresp.
      pose proof (HandleDatabaseError_failed err "Transaction") as Hfail.
      rewrite Hresp in Hfail. discriminate.
    + eapply applied_account_exists. exact Hrun.
  - apply prepared_inv in Hprep as (d & _ & _ & _ & Hv & _ & _ & _ & -> & _).
    now apply ValidateBodyWithDetails_valid in Hv as (_ & _ & _ & Hsrc & _).
Qed.

(** X7.  The constraints of the migrations are an invariant of the
    handler: when the committed tables satisfy the primary keys of accounts
    and of transactions, the foreign key of the ledger rows and the CHECKs
    on source and type, they still do after any sequence of requests, each
    served under any conditions of the storage layer. *)
Theorem serve_keeps_integrity (reqs : list (Env * Request)) (db : DB) :
  integrity (committed db) -> integrity (committed (fst (serve reqs db))).
Proof.
  revert db. induction reqs as [| [env r] reqs IH]; intros db Hint; [assumption |].
  rewrite serve_cons. apply IH. now apply integrity_handler.
Qed.

Lemma serve_keeps_integrity_witness :
  integrity (committed (fst (serve scenario migrated))).
Proof.
  apply (serve_keeps_integrity scenario migrated).
  unfold integrity. simpl. split; [| split; constructor].
  apply (bool_decide_unpack _). vm_compute. exact I.
Defined.

(** *** runInTx *)

(** X8.  [runInTx] with any function [fn] whose statements run on the
    transaction it is given (they leave the committed tables alone): when
    it returns an error the committed tables are as before, whether the
    error is that of Begin, of [fn] (then the transaction is rolled back,
    and a failing rollback is joined to the error), or of Commit; when it
    returns nil, [fn] returned nil on a transaction opened on the committed
    tables and the tables [fn] left in the transaction are the committed
    ones.  When Begin succeeds no transaction is left open. *)
Theorem runInTx_commits_all_or_nothing (env : Env) (db : DB)
  (fn : Queries -> DB -> DB * option error) :
  (forall d : DB, committed (fst (fn WithTx d)) = committed d) ->
  match runInTx env db fn with
  | (db', Some err) =>
      committed db' = committed db
      /\ (fail_Begin env = None -> pending db' = None)
      /\ (forall db2 fnErr,
            fail_Begin env = None ->
            fn WithTx (mkDB (committed db) (Some (committed db))) = (db2, Some fnErr) ->
            err = match snd (Rollback env db2) with
                  | Some rollbackErr => Join fnErr rollbackErr
                  | None => fnErr
                  end)
  | (db', None) =>
      exists db2 : DB,
        fn WithTx (mkDB (committed db) (Some (committed db))) = (db2, None)
        /\ pending db2 = Some (committed db')
        /\ pending db' = None
  end.
Proof.
  intros Hfn. destruct (runInTx env db fn) as [db' [err |]] eqn:Hrun;
    [| now apply runInTx_ok in Hrun].
  unfold runInTx, Begin in Hrun.
  destruct (fail_Begin env) as [e |] eqn:HBegin.
  { injection Hrun as <- <-. repeat split; discriminate. }
  pose proof (Hfn (mkDB (committed db) (Some (committed db)))) as Hc.
  destruct (fn WithTx _) as [db2 [fnErr |]]; simpl in Hc.
  - pose proof (Rollback_committed env db2) as Hr.
    assert (Hp : pending (fst (Rollback env db2)) = None
                 \/ fst (Rollback env db2) = db2 /\ pending db2 = None).
    { unfold Rollback. destruct (fail_Rollback env); [now left |].
      destruct (pending db2) eqn:Hp2; [now left | now right]. }
    destruct (Rollback env db2) as [db3 [rollbackErr |]] eqn:HR; simpl in *;
      injection Hrun as <- <-.
    all: split; [congruence |]; split;
      [intros _; destruct Hp as [Hp | [-> Hp]]; exact Hp
      | intros d2 e2 _ [= <- <-]; now rewrite HR].
  - unfold Commit in Hrun. destruct (fail_Commit env).
    + injection Hrun as <- <-. simpl.
      split; [assumption |]. split; [reflexivity | discriminate].
    + destruct (pending db2) eqn:Hp2; [discriminate |]. injection Hrun as <- <-.
      split; [assumption |]. split; [intros _; assumption | discriminate].
Qed.

Lemma runInTx_commits_all_or_nothing_witness :
  (forall d : DB,
     committed (fst (createAndUpdate update_fails
                       (Models.mkTransaction "t1" 10 "1.00" (F64.of_Z 1) "game" "win"
                                             EmptyString)
                       (account_of 10 7 five) WithTx d)) = committed d)
  /\ committed (fst (runInTx update_fails funded
                       (createAndUpdate update_fails
                          (Models.mkTransaction "t1" 10 "1.00" (F64.of_Z 1) "game" "win"
                                                EmptyString)
                          (account_of 10 7 five))))
     = committed funded.
Proof.
  assert (Hfn : forall d : DB,
             committed (fst (createAndUpdate update_fails
                               (Models.mkTransaction "t1" 10 "1.00" (F64.of_Z 1) "game" "win"
                                                     EmptyString)
                               (account_of 10 7 five) WithTx d)) = committed d)
    by (intros d; apply createAndUpdate_committed).
  split; [exact Hfn |].
  pose proof (runInTx_commits_all_or_nothing update_fails funded _ Hfn) as H.
  destruct (runInTx update_fails funded _) as [db' [err |]] eqn:Hrun.
  - apply H.
  - vm_compute in Hrun. discriminate.
Defined.

(** *** The answers of the route *)

Lemma HandleAPIError_status (err : error) :
  In (StatusCode (HandleAPIError err)) [400; 404; 409; 500].
Proof. destruct err; simpl; tauto. Qed.

Lemma HandleDatabaseError_status (err : error) (entityType : string) :
  In (StatusCode (HandleDatabaseError err entityType)) [400; 404; 409; 500; 503].
Proof.
  unfold HandleDatabaseError.
  repeat match goal with |- context [if ?b then _ else _] => destruct b end; simpl; tauto.
Qed.

Lemma CreateTransactionHandler_status (env : Env) (r : Request) (db : DB) :
  In (StatusCode (snd (CreateTransactionHandler env r db))) [200; 400; 404; 409; 422; 500; 503].
Proof.
  assert (Hapi : forall err, In (StatusCode (HandleAPIError err))
                                [200; 400; 404; 409; 422; 500; 503]).
  { intros err. pose proof (HandleAPIError_status err) as H. simpl in *. tauto. }
  assert (Hdb : forall err e, In (StatusCode (HandleDatabaseError err e))
                                 [200; 400; 404; 409; 422; 500; 503]).
  { intros err e. pose proof (HandleDatabaseError_status err e) as H. simpl in *. tauto. }
  unfold CreateTransactionHandler.
  destruct (ValidateID (userId r)) as [userID [e |]]; [apply Hapi |].
  destruct (GetAccountByUser env userID db) as [db1 [account [e |]]]; [apply Hdb |].
  destruct (ValidateBodyWithDetails _ _) as [[[|] errs] tr]; [| simpl; tauto].
  destruct (validateAndParseTransactionAmount tr) as [tr' [e |]]; [apply Hapi |].
  destruct (runInTx env db1 _) as [db2 [e |]]; [apply Hdb | simpl; tauto].
Qed.

(** X9.  The answers of the route POST /user/{userId}/transaction: the
    status is one of 200, 400, 403, 404, 409, 422, 500, 503; it is 403
    exactly when the header Source-Type is not game, server or payment, and
    then the database is as before and the body is the plain text of
    http.Error; it is 200 only with the JSON payload of a success. *)
Theorem serveTransaction_answers (env : Env) (r : Request) (db : DB) :
  In (StatusCode (snd (serveTransaction env r db))) [200; 400; 403; 404; 409; 422; 500; 503]
  /\ (StatusCode (snd (serveTransaction env r db)) = StatusForbidden
      <-> IsValidSource (SourceType r) = false)
  /\ (IsValidSource (SourceType r) = false ->
      serveTransaction env r db
      = (db, mkResponse StatusForbidden (PlainText ("Source type is invalid" +:+ newline))))
  /\ (StatusCode (snd (serveTransaction env r db)) = StatusOK ->
      exists data, Body (snd (serveTransaction env r db)) = Data data).
Proof.
  pose proof (CreateTransactionHandler_status env r db) as Hstatus.
  unfold serveTransaction, SourceHeaderMatcher.
  destruct (IsValidSource (SourceType r)); simpl negb; cbv iota.
  - split; [simpl in *; tauto |]. split; [| split; [discriminate |]].
    + split; [| discriminate]. intros H. rewrite H in Hstatus. simpl in Hstatus.
      unfold StatusForbidden in Hstatus. intuition discriminate.
    + destruct (handler_spec env r db) as [[Hfail _] | (u & a & tr & _ & -> & _)].
      * unfold succeeded in Hfail. intros H. rewrite H in Hfail. discriminate.
      * intros _. simpl. eauto.
  - simpl. split; [tauto |]. split; [tauto |]. split; [reflexivity | discriminate].
Qed.

(** *** ParseAmount *)

(** X10.  [ParseAmount] never returns a negative amount (on an error the
    amount is 0).  The test amount > 0 comes before the rounding to two
    decimals, so an accepted amount can be zero: 0.001 is accepted and
    normalized to 0. *)
Theorem ParseAmount_not_negative (amountStr : string) :
  not_negative (fst (ParseAmount amountStr))
  /\ ParseAmount "0.001" = (F64.zero, None).
Proof.
  split; [| vm_compute; reflexivity].
  destruct (ParseAmount amountStr) as [amount [err |]] eqn:H.
  - unfold ParseAmount in H.
    destruct (String.eqb amountStr EmptyString); [now injection H as <- |].
    destruct (Strconv.ParseFloat amountStr) as [f [e |]]; [now injection H as <- |].
    destruct (F64.leb f F64.zero); [now injection H as <- | discriminate].
  - apply not_negative_sign_clear. now apply ParseAmount_sign_clear in H.
Qed.

(** *** FormatFloat and the balance of a user *)

Import Ftoa Accounts.

Lemma digits_of_digit (fuel : nat) (v : Z) (acc : list Z) :
  Forall digit_byte acc -> Forall digit_byte (digits_of fuel v acc).
Proof.
  revert v acc. induction fuel as [| fuel IH]; intros v acc Hacc; simpl; [assumption |].
  destruct (0 <? v); [| assumption]. apply IH. constructor; [| assumption].
  unfold digit_byte. change (byte "0") with 48. change (byte "9") with 57.
  pose proof (Z.mod_pos_bound v 10). lia.
Qed.

Lemma digits_digit (v : Z) : Forall digit_byte (digits v).
Proof. apply digits_of_digit. constructor. Qed.

Lemma trim_zeros_Forall (P : Z -> Prop) (l : list Z) :
  Forall P l -> Forall P (trim_zeros l).
Proof.
  induction 1 as [| c l Hc Hl IH]; simpl; [constructor |].
  destruct (c =? byte "0"); [assumption | now constructor].
Qed.

Lemma trim_digit (a : decimal) : Forall digit_byte (d a) -> Forall digit_byte (d (trim a)).
Proof.
  intros H. unfold trim.
  assert (Ht : Forall digit_byte (rev (trim_zeros (rev (d a))))).
  { apply Forall_rev, trim_zeros_Forall, Forall_rev, H. }
  destruct (rev (trim_zeros (rev (d a)))); simpl; [constructor | assumption].
Qed.

Lemma Assign_digit (v : Z) : Forall digit_byte (d (Assign v)).
Proof. apply trim_digit, digits_digit. Qed.

Lemma Shift_digit (a : decimal) (k : Z) :
  Forall digit_byte (d a) -> Forall digit_byte (d (Shift a k)).
Proof.
  intros H. unfold Shift. destruct (d a) eqn:Hd; [now rewrite Hd |].
  destruct (0 <=? k); apply trim_digit, digits_digit.
Qed.

Lemma round_up_digit (l : list Z) :
  Forall digit_byte l -> forall ds, round_up l = Some ds -> Forall digit_byte ds.
Proof.
  induction 1 as [| c l Hc Hl IH]; intros ds; cbn [round_up]; [discriminate |].
  destruct (Z.ltb_spec c (byte "9")); [| apply IH].
  intros [= <-]. apply Forall_app. split; [now apply Forall_rev |].
  constructor; [| constructor]. unfold digit_byte in *. lia.
Qed.

Lemma Round_digit (a : decimal) (n : Z) :
  Forall digit_byte (d a) -> Forall digit_byte (d (Round a n)).
Proof.
  intros H. unfold Round, RoundUp, RoundDown.
  destruct ((n <? 0) || (nd a <=? n)); [assumption |].
  assert (Hfirst : Forall digit_byte (firstn (Z.to_nat n) (d a))) by now apply Forall_take.
  destruct (shouldRoundUp a n).
  - destruct (round_up _) as [ds |] eqn:Hup; simpl.
    + eapply round_up_digit; [| exact Hup]. now apply Forall_rev.
    + constructor; [| constructor]. unfold digit_byte. change (byte "0") with 48.
      change (byte "1") with 49. change (byte "9") with 57. lia.
  - now apply trim_digit.
Qed.

Lemma string_of_bytes_app (l k : list Z) :
  string_of_bytes (l ++ k) = string_of_bytes l +:+ string_of_bytes k.
Proof.
  unfold string_of_bytes. rewrite map_app.
  induction (map _ l) as [| c s IH]; simpl; [reflexivity | now rewrite IH].
Qed.

Lemma digit_byte_is_digit (c : Z) :
  digit_byte c -> Strconv.is_digit (ascii_of_N (Z.to_N c)) = true.
Proof.
  unfold digit_byte. change (byte "0") with 48. change (byte "9") with 57. intros H.
  apply is_digit_range. unfold Strconv.byte_of.
  rewrite N_ascii_embedding by lia. change (Z.of_N (N_of_ascii "0")) with 48. lia.
Qed.

Lemma string_of_bytes_digits (l : list Z) :
  Forall digit_byte l ->
  forallb Strconv.is_digit (list_ascii_of_string (string_of_bytes l)) = true.
Proof.
  unfold string_of_bytes. rewrite list_ascii_of_string_of_list_ascii.
  induction 1 as [| c l Hc Hl IH]; simpl; [reflexivity |].
  now rewrite (digit_byte_is_digit c Hc).
Qed.

Lemma string_of_bytes_length (l : list Z) :
  String.length (string_of_bytes l) = length l.
Proof.
  unfold string_of_bytes. induction l as [| c l IH]; simpl; [reflexivity | now rewrite IH].
Qed.

Lemma string_of_bytes_nonempty (l : list Z) :
  l <> [] -> string_of_bytes l <> EmptyString.
Proof. destruct l; [congruence | discriminate]. Qed.

Lemma digit_at_digit (a : decimal) (i : Z) :
  Forall digit_byte (d a) -> digit_byte (digit_at a i).
Proof.
  intros H. unfold digit_at.
  destruct (nth_in_or_default (Z.to_nat i) (d a) (byte "0")) as [Hin | ->].
  - rewrite Forall_forall in H. apply H. now apply list_elem_of_In.
  - unfold digit_byte. change (byte "0") with 48. change (byte "9") with 57. lia.
Qed.

(** the shape of [%f] with two digits after the point *)
Lemma fmtF_two_decimals (neg : bool) (a : decimal) :
  Forall digit_byte (d a) -> two_decimals (fmtF neg a 2).
Proof.
  intros H. unfold fmtF. cbv zeta.
  change (0 <? 2) with true. cbv iota.
  set (integer := if 0 <? dp a then _ else _).
  set (fraction := map _ (seqZ 0 2)).
  assert (Hzero : digit_byte (byte "0")).
  { unfold digit_byte. change (byte "0") with 48. change (byte "9") with 57. lia. }
  assert (Hint : Forall digit_byte integer /\ integer <> []).
  { unfold integer. destruct (Z.ltb_spec 0 (dp a)).
    - split.
      + apply Forall_app. split; [now apply Forall_take |].
        apply Forall_forall. intros c Hc. apply list_elem_of_In, repeat_spec in Hc.
        now subst c.
      + destruct (d a) as [| c l] eqn:Hd.
        * unfold nd. rewrite Hd. simpl. rewrite Z.min_l by lia.
          rewrite Z.sub_0_r. destruct (Z.to_nat (dp a)) eqn:Hn; [lia | discriminate].
        * unfold nd. rewrite Hd.
          destruct (Z.to_nat (Z.min (Z.of_nat (length (c :: l))) (dp a))) eqn:Hn;
            [simpl length in Hn; lia | discriminate].
    - split; [now repeat constructor | discriminate]. }
  assert (Hfrac : Forall digit_byte fraction /\ length fraction = 2%nat).
  { unfold fraction. split; [| reflexivity].
    apply Forall_forall. intros c Hc. apply list_elem_of_In, in_map_iff in Hc as (i & <- & _).
    destruct ((0 <=? dp a + i) && (dp a + i <? nd a)); [now apply digit_at_digit | assumption]. }
  exists neg, (string_of_bytes integer), (string_of_bytes fraction).
  split.
  - rewrite string_of_bytes_app.
    change (byte "." :: fraction) with ([byte "."] ++ fraction)%list.
    rewrite !string_of_bytes_app. now destruct neg.
  - destruct Hint as [Hint Hne], Hfrac as [Hfrac Hlen].
    split; [split; [now apply string_of_bytes_nonempty | now apply string_of_bytes_digits] |].
    split; [| now rewrite string_of_bytes_length].
    split; [| now apply string_of_bytes_digits].
    apply string_of_bytes_nonempty. destruct fraction; [discriminate | congruence].
Qed.

Lemma FormatFloat_two_decimals (f : float64) :
  two_decimals (FormatFloat f 2)
  \/ In (FormatFloat f 2) ["NaN"; "+Inf"; "-Inf"].
Proof.
  destruct f as [neg | neg | | neg m e]; simpl.
  - left. apply fmtF_two_decimals, Round_digit, Shift_digit, Assign_digit.
  - right. destruct neg; simpl; tauto.
  - right. simpl; tauto.
  - left. apply fmtF_two_decimals, Round_digit, Shift_digit, Assign_digit.
Qed.

Lemma GetAccountByUser_found (env : Env) (userID : Z) (db : DB) :
  GetAccountByUser env userID db
  = (db,
     match fail_GetAccountByUser env with
     | Some err => (zeroAccount, Some err)
     | None =>
         match find (fun a => acc_UserID a =? userID) (accounts (committed db)) with
         | Some a => (a, None)
         | None => (zeroAccount, Some ErrNoRows)
         end
     end).
Proof.
  unfold GetAccountByUser, Database.GetAccountByUser, exec, select_account_by_user.
  destruct (fail_GetAccountByUser env); [reflexivity |].
  destruct db as [c p]. simpl. now destruct (find _ _).
Qed.

Lemma ValidateID_error (userIDStr : string) (userID : Z) (err : error) :
  ValidateID userIDStr = (userID, Some err) -> err = ErrInvalidID.
Proof.
  unfold ValidateID.
  destruct (String.eqb userIDStr EmptyString); [now intros [= _ <-] |].
  destruct (Strconv.ParseInt userIDStr) as [n [e |]]; [now intros [= _ <-] |].
  destruct (n <=? 0); [now intros [= _ <-] | discriminate].
Qed.

(** X11.  GET /user/{userId}/balance reads and never writes.  An invalid
    user id is answered 400, a user without account 404; the answer 200
    carries the validated user id and the balance of the first account of
    the user, written by FormatFloat with two decimals: an optional minus
    sign, digits, the point and two digits (NaN, +Inf or -Inf for a balance
    that is no number). *)
Theorem GetBalanceHandler_answer (env : Env) (r : Request) (db : DB) :
  fst (GetBalanceHandler env r db) = db
  /\ (snd (ValidateID (userId r)) <> None ->
      snd (GetBalanceHandler env r db) = RespondError StatusBadRequest "Invalid ID format")
  /\ (forall userID : Z,
        ValidateID (userId r) = (userID, None) ->
        fail_GetAccountByUser env = None ->
        find (fun a => acc_UserID a =? userID) (accounts (committed db)) = None ->
        snd (GetBalanceHandler env r db) = RespondError StatusNotFound "Account not found")
  /\ (StatusCode (snd (GetBalanceHandler env r db)) = StatusOK ->
      exists (userID : Z) (account : Account),
        ValidateID (userId r) = (userID, None)
        /\ find (fun a => acc_UserID a =? userID) (accounts (committed db)) = Some account
        /\ snd (GetBalanceHandler env r db)
           = RespondSuccess "Balance retrieved successfully"
               (UserBalance userID (FormatFloat (acc_Balance account) 2))
        /\ (two_decimals (FormatFloat (acc_Balance account) 2)
            \/ In (FormatFloat (acc_Balance account) 2) ["NaN"; "+Inf"; "-Inf"])).
Proof.
  unfold GetBalanceHandler.
  destruct (ValidateID (userId r)) as [userID [err |]] eqn:Hid.
  - apply ValidateID_error in Hid as ->. simpl.
    split; [reflexivity |]. split; [reflexivity |]. split; [discriminate | discriminate].
  - rewrite GetAccountByUser_found.
    destruct (fail_GetAccountByUser env) as [err |] eqn:Hfail.
    + simpl. split; [reflexivity |]. split; [congruence |]. split; [discriminate |].
      intros H. pose proof (HandleDatabaseError_failed err "Account") as Hf.
      unfold succeeded in Hf. rewrite H in Hf. discriminate.
    + destruct (find _ _) as [account |] eqn:Hfind; simpl.
      * split; [reflexivity |]. split; [congruence |].
        split; [intros u [= <-]; congruence |].
        intros _. exists userID, account. repeat split; try assumption.
        apply FormatFloat_two_decimals.
      * split; [reflexivity |]. split; [congruence |].
        split; [reflexivity | discriminate].
Qed.

Lemma GetBalanceHandler_committed (env : Env) (r : Request) (db1 db2 : DB) :
  committed db1 = committed db2 ->
  snd (GetBalanceHandler env r db1) = snd (GetBalanceHandler env r db2).
Proof.
  intros H. unfold GetBalanceHandler.
  destruct (ValidateID (userId r)) as [userID [err |]]; [reflexivity |].
  rewrite !GetAccountByUser_found, H.
  destruct (fail_GetAccountByUser env); [reflexivity |]. now destruct (find _ _).
Qed.

Lemma NoDup_ID_eq (l : list Account) (a b : Account) :
  NoDup (map acc_ID l) -> In a l -> In b l -> acc_ID a = acc_ID b -> a = b.
Proof.
  induction l as [| c l IH]; simpl; [tauto |].
  intros Hnd [-> | Ha] [-> | Hb] Heq; try reflexivity.
  - apply NoDup_cons in Hnd as [Hc _]. exfalso. apply Hc.
    rewrite Heq. apply list_elem_of_In, in_map, Hb.
  - apply NoDup_cons in Hnd as [Hc _]. exfalso. apply Hc.
    rewrite <- Heq. apply list_elem_of_In, in_map, Ha.
  - apply NoDup_cons in Hnd as [_ Hnd]. now apply IH.
Qed.

(** X12.  A balance request reads the write of a committed transaction:
    after a request of a user is answered 200, GET balance of this user,
    when its read does not fail, shows the balance the account of the user
    had before plus the signed amount of the transaction, with two
    decimals.  The ids of the accounts are unique (the primary key). *)
Theorem balance_after_transaction (env env' : Env) (r : Request) (db : DB) (userID : Z)
  (account : Account) (transaction : Models.Transaction) :
  NoDup (map acc_ID (accounts (committed db))) ->
  prepared env r db = Some (userID, account, transaction) ->
  succeeded (snd (CreateTransactionHandler env r db)) = true ->
  fail_GetAccountByUser env' = None ->
  snd (GetBalanceHandler env' r (fst (CreateTransactionHandler env r db)))
  = RespondSuccess "Balance retrieved successfully"
      (UserBalance userID
         (FormatFloat (F64.add (acc_Balance account)
                         (signed (Models.TransactionType transaction)
                                 (Models.AmountFloat transaction))) 2)).
Proof.
  intros Hpk Hprep Hok Hread.
  destruct (handler_spec env r db) as [[Hfail _] | (u & a & tr & Hprep' & _ & Hboth)];
    [congruence |].
  rewrite Hprep in Hprep'. injection Hprep' as <- <- <-.
  destruct Hboth as (_ & _ & _ & before & Hbefore & Haccounts & _).
  apply prepared_inv in Hprep as (_ & Hid & _ & Hfind & _).
  assert (before = account) as ->.
  { apply (NoDup_ID_eq (accounts (committed db))); [assumption | | |].
    - unfold find_account in Hbefore. now apply find_some in Hbefore as [H _].
    - now apply find_some in Hfind as [H _].
    - now apply find_account_ID in Hbefore. }
  unfold GetBalanceHandler. rewrite Hid, GetAccountByUser_found, Hread, Haccounts.
  rewrite find_user_set_balance, Hfind. simpl.
  unfold set_balance. now rewrite Z.eqb_refl.
Qed.

Lemma balance_after_transaction_witness :
  snd (GetBalanceHandler quiet (post "1" "A" "50.00" "win")
         (fst (CreateTransactionHandler quiet (post "1" "A" "50.00" "win") migrated)))
  = RespondSuccess "Balance retrieved successfully" (UserBalance 1 "50.00").
Proof.
  apply (balance_after_transaction quiet quiet (post "1" "A" "50.00" "win") migrated 1
           (account_of 1 1 F64.zero)
           (Models.mkTransaction "A" 1 "50.00" (F64.of_Z 50) "game" "win" EmptyString)).
  - apply (bool_decide_unpack _). vm_compute. exact I.
  - vm_compute. reflexivity.
  - vm_compute. reflexivity.
  - reflexivity.
Defined.

(** X13.  A request that is not answered 200 changes no balance that GET
    balance shows: the answer to any balance request is the same after it
    as before it. *)
Theorem balance_unchanged_by_rejected_transaction (env env' : Env) (r r' : Request) (db : DB) :
  succeeded (snd (CreateTransactionHandler env r db)) = false ->
  snd (GetBalanceHandler env' r' (fst (CreateTransactionHandler env r db)))
  = snd (GetBalanceHandler env' r' db).
Proof.
  intros Hfail. apply GetBalanceHandler_committed.
  destruct (handler_spec env r db) as [[_ H] | (u & a & tr & _ & Hresp & _)]; [exact H |].
  rewrite Hresp in Hfail. discriminate.
Qed.

Lemma balance_unchanged_by_rejected_transaction_witness :
  snd (GetBalanceHandler quiet (post "7" "t0" "0" "win")
         (fst (CreateTransactionHandler quiet (post "7" "t1" "10.00" "lose") funded)))
  = snd (GetBalanceHandler quiet (post "7" "t0" "0" "win") funded).
Proof.
  apply (balance_unchanged_by_rejected_transaction quiet quiet
           (post "7" "t1" "10.00" "lose") (post "7" "t0" "0" "win") funded).
  vm_compute. reflexivity.
Defined.

(** *** The queries on the ledger *)

Import LedgerQueries.

Lemma find_app_new {A : Type} (f : A -> bool) (l : list A) (x : A) :
  find f l = None -> f x = true -> find f (l ++ [x]) = Some x.
Proof.
  intros Hl Hx. induction l as [| y l IH]; simpl in *; [now rewrite Hx |].
  destruct (f y); [discriminate | now apply IH].
Qed.



(** *** Pages *)

Section Pages.

Variable id_le : string -> string -> bool.

Lemma insert_by_id_In (row r : Transaction) (l : list Transaction) :
  In r (insert_by_id id_le row l) <-> r = row \/ In r l.
Proof.
  induction l as [| c l IH]; simpl; [intuition congruence |].
  destruct (id_le _ _); simpl; [intuition congruence |]. rewrite IH. tauto.
Qed.

Lemma order_by_id_In (r : Transaction) (l : list Transaction) :
  In r (order_by_id id_le l) <-> In r l.
Proof.
  induction l as [| c l IH]; simpl; [tauto |].
  rewrite insert_by_id_In, IH. intuition congruence.
Qed.

Lemma insert_by_id_Permutation (row : Transaction) (l : list Transaction) :
  Permutation (insert_by_id id_le row l) (row :: l).
Proof.
  induction l as [| c l IH]; simpl; [reflexivity |].
  destruct (id_le _ _); [reflexivity |]. rewrite IH. apply perm_swap.
Qed.

Lemma order_by_id_Permutation (l : list Transaction) :
  Permutation (order_by_id id_le l) l.
Proof.
  induction l as [| c l IH]; simpl; [reflexivity |].
  now rewrite insert_by_id_Permutation, IH.
Qed.

Lemma page_In (n m : nat) (l : list Transaction) (row : Transaction) :
  In row (firstn n (skipn m l)) -> In row l.
Proof.
  intros H. rewrite <- (firstn_skipn m l). apply in_or_app. right.
  rewrite <- (firstn_skipn n (skipn m l)). apply in_or_app. now left.
Qed.

Lemma firstn_add (a b : nat) (l : list Transaction) :
  firstn (a + b) l = (firstn a l ++ firstn b (skipn a l))%list.
Proof.
  revert l. induction a as [| a IH]; intros l; [reflexivity |].
  destruct l as [| c l]; simpl; [now destruct b | now rewrite IH].
Qed.

Lemma skipn_add (a b : nat) (l : list Transaction) :
  skipn (a + b) l = skipn b (skipn a l).
Proof.
  revert l. induction a as [| a IH]; intros l; [reflexivity |].
  destruct l as [| c l]; simpl; [now destruct b | apply IH].
Qed.

Lemma limit_offset_add (limit1 limit2 offset : Z) (rows : list Transaction) :
  0 <= limit1 -> 0 <= limit2 -> 0 <= offset ->
  fst (limit_offset (limit1 + limit2) offset rows)
  = (fst (limit_offset limit1 offset rows)
     ++ fst (limit_offset limit2 (offset + limit1) rows))%list.
Proof.
  intros H1 H2 Ho. unfold limit_offset.
  destruct (Z.ltb_spec offset 0); [lia |].
  destruct (Z.ltb_spec (limit1 + limit2) 0); [lia |].
  destruct (Z.ltb_spec limit1 0); [lia |].
  destruct (Z.ltb_spec (offset + limit1) 0); [lia |].
  destruct (Z.ltb_spec limit2 0); [lia |]. simpl.
  rewrite !Z2Nat.inj_add by assumption. now rewrite firstn_add, skipn_add.
Qed.

Lemma exec_rows (q : Queries) (db : DB)
  (stmt : Tables -> Tables * (list Transaction * option error)) :
  (forall t, fst (stmt t) = t) ->
  fst (snd (exec q None [] stmt db))
  = match tables_of q db with
    | Some t => fst (snd (stmt t))
    | None => []
    end.
Proof.
  intros Hstmt. unfold exec. destruct q; simpl.
  - now destruct (stmt (committed db)).
  - destruct (pending db) as [w |]; [| reflexivity]. now destruct (stmt w).
Qed.

(** X15.  The pages of ListTransactions and of ListTransactionsByAccount
    compose: with no failure of the storage layer, the page of
    limit1 + limit2 rows at an offset is the page of limit1 rows at this
    offset followed by the page of limit2 rows at offset + limit1; limits
    and offset are not negative. *)
Theorem pages_compose (queries : Queries) (db : DB) (account_id limit1 limit2 offset : Z) :
  0 <= limit1 -> 0 <= limit2 -> 0 <= offset ->
  fst (snd (ListTransactions id_le None queries (limit1 + limit2) offset db))
  = (fst (snd (ListTransactions id_le None queries limit1 offset db))
     ++ fst (snd (ListTransactions id_le None queries limit2 (offset + limit1) db)))%list
  /\ fst (snd (ListTransactionsByAccount id_le None queries account_id
                 (limit1 + limit2) offset db))
     = (fst (snd (ListTransactionsByAccount id_le None queries account_id limit1 offset db))
        ++ fst (snd (ListTransactionsByAccount id_le None queries account_id limit2
                       (offset + limit1) db)))%list.
Proof.
  intros H1 H2 Ho. unfold ListTransactions, ListTransactionsByAccount.
  rewrite !exec_rows by reflexivity.
  destruct (tables_of queries db) as [t |]; [| split; reflexivity].
  split; apply limit_offset_add; assumption.
Qed.

Hypothesis id_le_total : forall a b : string, id_le a b = true \/ id_le b a = true.

Lemma insert_by_id_ordered (row : Transaction) (l : list Transaction) :
  ordered_by_id id_le l -> ordered_by_id id_le (insert_by_id id_le row l).
Proof.
  unfold ordered_by_id. induction l as [| c l IH]; intros Hs; simpl.
  - repeat constructor.
  - destruct (id_le (txn_ID row) (txn_ID c)) eqn:Hle.
    + constructor; [assumption |]. now constructor.
    + apply Sorted_inv in Hs as [Hs Hhd]. constructor; [now apply IH |].
      destruct l as [| c' l]; simpl.
      * constructor. destruct (id_le_total (txn_ID row) (txn_ID c)); congruence.
      * apply HdRel_inv in Hhd. destruct (id_le (txn_ID row) (txn_ID c')).
        -- constructor. destruct (id_le_total (txn_ID row) (txn_ID c)); congruence.
        -- now constructor.
Qed.

Lemma order_by_id_ordered (l : list Transaction) : ordered_by_id id_le (order_by_id id_le l).
Proof.
  induction l as [| c l IH]; simpl; [constructor | now apply insert_by_id_ordered].
Qed.

Lemma ordered_skipn (n : nat) (l : list Transaction) :
  ordered_by_id id_le l -> ordered_by_id id_le (skipn n l).
Proof.
  unfold ordered_by_id. revert l. induction n as [| n IH]; intros l Hs; [assumption |].
  destruct l as [| c l]; [assumption |]. simpl. apply IH. now apply Sorted_inv in Hs.
Qed.

Lemma ordered_firstn (n : nat) (l : list Transaction) :
  ordered_by_id id_le l -> ordered_by_id id_le (firstn n l).
Proof.
  unfold ordered_by_id. revert l. induction n as [| n IH]; intros l Hs; [constructor |].
  destruct l as [| c l]; [constructor |]. simpl.
  apply Sorted_inv in Hs as [Hs Hhd]. constructor; [now apply IH |].
  destruct l as [| c' l]; [destruct n; constructor |].
  apply HdRel_inv in Hhd. destruct n; simpl; now constructor.
Qed.

(** X16.  A page of ListTransactionsByAccount, with no failure of the
    storage layer: its rows are rows of the ledger with the account id
    asked for, at most [limit] of them, in the order of their ids (for a
    collation that compares any two ids); the page at offset 0 with a limit
    that is at least the number of rows of the account has every row of the
    account, once each. *)
Theorem ListTransactionsByAccount_page (queries : Queries) (db : DB) (t : Tables)
  (account_id limit offset : Z) (rows : list Transaction) :
  tables_of queries db = Some t ->
  ListTransactionsByAccount id_le None queries account_id limit offset db
  = (db, (rows, None)) ->
  (forall row, In row rows -> In row (transactions t) /\ txn_AccountID row = account_id)
  /\ Z.of_nat (length rows) <= limit
  /\ ordered_by_id id_le rows
  /\ (offset = 0 ->
      Z.of_nat (length (List.filter (fun r => txn_AccountID r =? account_id)
                                     (transactions t))) <= limit ->
      Permutation rows
        (List.filter (fun r => txn_AccountID r =? account_id) (transactions t))).
Proof.
  intros Ht. unfold ListTransactionsByAccount. rewrite (exec_run _ _ _ _ _ Ht).
  unfold select_transactions_by_account. cbn [fst snd].
  set (mine := List.filter _ (transactions t)).
  unfold limit_offset.
  destruct (Z.ltb_spec offset 0); [discriminate |].
  destruct (Z.ltb_spec limit 0); [discriminate |].
  intros [= _ <-]. split; [| split; [| split]].
  - intros row Hrow. apply page_In in Hrow.
    apply order_by_id_In, filter_In in Hrow as [Hin Hacc].
    split; [assumption | lia].
  - rewrite length_firstn. lia.
  - apply ordered_firstn, ordered_skipn, order_by_id_ordered.
  - intros -> Hall. change (Z.to_nat 0) with O. rewrite skipn_0.
    rewrite firstn_all2; [apply order_by_id_Permutation |].
    pose proof (Permutation_length (order_by_id_Permutation mine)) as Hlen.
    rewrite Hlen. apply Nat2Z.inj_le. rewrite Z2Nat.id by assumption. exact Hall.
Qed.

End Pages.

Lemma ListTransactionsByAccount_page_witness :
  ordered_by_id String.leb
    [mkTransactionRow "A" 1 (F64.of_Z 50) "game" "win" 1700000000;
     mkTransactionRow "B" 1 (F64.of_Z 20) "game" "lose" 1700000000].
Proof.
  destruct (ListTransactionsByAccount_page String.leb String.leb_total OnPool
              (fst (serve scenario migrated)) (committed (fst (serve scenario migrated)))
              1 2 0
              [mkTransactionRow "A" 1 (F64.of_Z 50) "game" "win" 1700000000;
               mkTransactionRow "B" 1 (F64.of_Z 20) "game" "lose" 1700000000])
    as (_ & _ & H & _); [reflexivity | vm_compute; reflexivity | exact H].
Defined.

Lemma pages_compose_witness :
  fst (snd (ListTransactions String.leb None OnPool (1 + 1) 0 (fst (serve scenario migrated))))
  = (fst (snd (ListTransactions String.leb None OnPool 1 0 (fst (serve scenario migrated))))
     ++ fst (snd (ListTransactions String.leb None OnPool 1 (0 + 1)
                    (fst (serve scenario migrated)))))%list.
Proof.
  apply (pages_compose String.leb OnPool (fst (serve scenario migrated)) 1 1 1 0); lia.
Defined.

(** *** The ledger row of a request *)

(** X17.  The ledger row of a request that is answered 200, in terms of
    the request: the id, the type and the amount (normalized) are those of
    the body; the source is the member source of the body when it has one
    and the header Source-Type otherwise; the account id is the member
    account_id of the body when it has one and the id of the account of the
    user otherwise; the time is that of the database server.  The row is the
    last of the ledger. *)
Theorem ledger_row_of_request (env : Env) (r : Request) (db : DB) (members : TransactionJSON) :
  body r = Object members ->
  succeeded (snd (CreateTransactionHandler env r db)) = true ->
  exists (userID : Z) (account : Account) (id amountStr state : string) (amount : float64),
    ValidateID (userId r) = (userID, None)
    /\ find (fun a => acc_UserID a =? userID) (accounts (committed db)) = Some account
    /\ json_transactionId members = Some id
    /\ json_amount members = Some amountStr
    /\ json_state members = Some state
    /\ ParseAmount amountStr = (amount, None)
    /\ transactions (committed (fst (CreateTransactionHandler env r db)))
       = (transactions (committed db)
          ++ [mkTransactionRow id
                (match json_account_id members with
                 | Some account_id => account_id
                 | None => acc_ID account
                 end)
                amount
                (match json_source members with
                 | Some source => source
                 | None => SourceType r
                 end)
                state (now env)])%list.
Proof.
  intros Hbody Hok.
  destruct (handler_spec env r db) as [[Hfail _] | (u & a & tr & Hprep & _ & Hboth)];
    [congruence |].
  destruct Hboth as (_ & Hledger & _).
  apply prepared_inv in Hprep as (d & Hid & _ & Hfind & Hv & Hamount & HID & HAcc & HSrc & HTy).
  pose proof (ValidateBodyWithDetails_decoded _ _ _ _ _ Hv) as Hd.
  apply ValidateBodyWithDetails_valid in Hv as (Hne1 & _ & Hne3 & _ & Hty).
  rewrite Hbody in Hd. cbn [Decode fst prefilled] in Hd.
  rewrite Hd in HID, HAcc, HSrc, HTy, Hamount, Hne1, Hne3, Hty. cbn in HID, HAcc, HSrc, HTy.
  cbn [Models.Amount Models.ID Models.TransactionType] in Hamount, Hne1, Hne3, Hty.
  destruct (json_transactionId members) as [id |] eqn:H1; [| now contradiction Hne1].
  destruct (json_amount members) as [amountStr |] eqn:H3; [| now contradiction Hne3].
  destruct (json_state members) as [state |] eqn:H5; [| discriminate].
  exists u, a, id, amountStr, state, (Models.AmountFloat tr).
  repeat split; try assumption.
  rewrite Hledger. unfold ledger_row. rewrite HID, HAcc, HSrc, HTy. reflexivity.
Qed.

Lemma ledger_row_of_request_witness :
  exists (userID : Z) (account : Account) (id amountStr state : string) (amount : float64),
    ValidateID "1" = (userID, None)
    /\ find (fun a => acc_UserID a =? userID) (accounts (committed migrated)) = Some account
    /\ Some "t1" = Some id
    /\ Some "10.00" = Some amountStr
    /\ Some "win" = Some state
    /\ ParseAmount amountStr = (amount, None)
    /\ transactions (committed (fst (CreateTransactionHandler quiet misdirected migrated)))
       = (transactions (committed migrated)
          ++ [mkTransactionRow id 2 amount "game" state (now quiet)])%list.
Proof.
  apply (ledger_row_of_request quiet misdirected migrated
           (mkTransactionJSON (Some "t1") (Some 2) (Some "10.00") None None (Some "win") None)).
  - reflexivity.
  - vm_compute. reflexivity.
Defined.

(** *** The empty body *)

(** X18.  On the route, the answer "Request body cannot be empty" is
    given only to a body that is a JSON object with a member source that is
    the empty string: the handler has put the header Source-Type in the
    struct before the decoding, and the middleware has checked that it is
    game, server or payment, so that a body without the member source never
    leaves the struct empty.  The empty object {} of a user with an account
    is answered with the three fields that are required and missing. *)
Theorem empty_body_answer (env : Env) (r : Request) (db : DB) :
  (snd (serveTransaction env r db)
   = RespondValidationError {[ "body" := "Request body cannot be empty" ]} ->
   exists members, body r = Object members /\ json_source members = Some EmptyString)
  /\ (forall (userID : Z) (account : Account),
        IsValidSource (SourceType r) = true ->
        body r = Object (mkTransactionJSON None None None None None None None) ->
        ValidateID (userId r) = (userID, None) ->
        fail_GetAccountByUser env = None ->
        find (fun a => acc_UserID a =? userID) (accounts (committed db)) = Some account ->
        acc_ID account <> 0 ->
        serveTransaction env r db
        = (db, RespondValidationError
                 (<[ "state" := "The state field is required" ]>
                 (<[ "amount" := "The amount field is required" ]>
                 (<[ "transactionId" := "The transactionId field is required" ]> ∅))))).
Proof.
  split.
  - unfold serveTransaction, SourceHeaderMatcher.
    destruct (IsValidSource (SourceType r)) eqn:Hsrc; [| discriminate]. simpl negb. cbv iota.
    unfold CreateTransactionHandler.
    destruct (ValidateID (userId r)) as [userID [e |]].
    { destruct e; discriminate. }
    destruct (GetAccountByUser env userID db) as [db1 [account [e |]]].
    { simpl. unfold HandleDatabaseError.
      repeat match goal with |- context [if ?b then _ else _] => destruct b end;
        discriminate. }
    pose proof (validation_outcome (body r)
                  (Models.mkTransaction EmptyString (acc_ID account) EmptyString F64.zero
                     (SourceType r) EmptyString EmptyString)) as Herr.
    destruct (ValidateBodyWithDetails _ _) as [[[|] errs] d] eqn:Hv.
    { destruct (validateAndParseTransactionAmount d) as [tr [e |]].
      - destruct e; discriminate.
      - destruct (runInTx env db1 _) as [db2 [e |]]; [| discriminate].
        simpl. unfold HandleDatabaseError.
        repeat match goal with |- context [if ?b then _ else _] => destruct b end;
          discriminate. }
    simpl. intros [= Herrs]. destruct Herr as [_ Herr].
    destruct (body r) as [err | members] eqn:Hbody.
    { rewrite Herrs in Herr. exfalso.
      assert (H : ({[ "body" := "Request body cannot be empty" ]} : gmap string string)
                  !! "body" = Some ("Invalid JSON format: " +:+ err))
        by (rewrite Herr; apply lookup_singleton_eq).
      rewrite lookup_singleton_eq in H. discriminate. }
    exists members. split; [reflexivity |].
    pose proof (ValidateBodyWithDetails_decoded _ _ _ _ _ Hv) as Hd.
    cbn [Decode fst] in Hd.
    destruct (isEmptyStruct d) eqn:Hempty.
    + unfold isEmptyStruct in Hempty. rewrite !andb_true_iff in Hempty.
      destruct Hempty as [[[[[[_ _] _] _] Hs] _] _]. apply String.eqb_eq in Hs.
      rewrite Hd in Hs. cbn [Models.Source] in Hs. unfold assign in Hs.
      destruct (json_source members) as [s |]; [now rewrite Hs |].
      rewrite Hs in Hsrc. discriminate.
    + exfalso. destruct Herr as (_ & _ & _ & _ & _ & Hkeys).
      specialize (Hkeys "body"). rewrite Herrs, lookup_singleton_eq in Hkeys.
      specialize (Hkeys ltac:(discriminate)). simpl in Hkeys.
      intuition discriminate.
  - intros userID account Hsrc Hbody Hid Hfail Hfind Hne.
    unfold serveTransaction, SourceHeaderMatcher. rewrite Hsrc. simpl negb. cbv iota.
    unfold CreateTransactionHandler. rewrite Hid, GetAccountByUser_found, Hfail, Hfind, Hbody.
    unfold ValidateBodyWithDetails. cbn [Decode assign json_transactionId json_account_id
      json_amount json_AmountFloat json_source json_state json_inserted_at Models.ID
      Models.AccountID Models.Amount Models.AmountFloat Models.Source Models.TransactionType
      Models.InsertedAt].
    unfold isEmptyStruct, validate_Struct, validate_string.
    cbn [Models.ID Models.AccountID Models.Amount Models.AmountFloat Models.Source
         Models.TransactionType Models.InsertedAt].
    destruct (Z.eqb_spec (acc_ID account) 0) as [| _]; [contradiction |].
    assert (Hs : String.eqb (SourceType r) EmptyString = false).
    { destruct (String.eqb_spec (SourceType r) EmptyString) as [H |]; [| reflexivity].
      rewrite H in Hsrc. discriminate. }
    assert (Ho : oneof (SourceType r) ["game"; "server"; "payment"] = true).
    { unfold oneof. simpl. unfold IsValidSource in Hsrc. now rewrite orb_false_r, orb_assoc. }
    rewrite Hs, Ho. reflexivity.
Qed.

(** *** Sequences of requests *)

Lemma serve_cons_responses (env : Env) (r : Request) (reqs : list (Env * Request)) (db : DB) :
  snd (serve ((env, r) :: reqs) db)
  = snd (CreateTransactionHandler env r db)
    :: snd (serve reqs (fst (CreateTransactionHandler env r db))).
Proof.
  simpl. destruct (CreateTransactionHandler env r db) as [db1 resp]. simpl.
  now destruct (serve reqs db1).
Qed.

Lemma handler_step (env : Env) (r : Request) (db : DB) :
  map acc_ID (accounts (committed (fst (CreateTransactionHandler env r db))))
  = map acc_ID (accounts (committed db))
  /\ map acc_UserID (accounts (committed (fst (CreateTransactionHandler env r db))))
     = map acc_UserID (accounts (committed db))
  /\ exists appended : list Transaction,
       transactions (committed (fst (CreateTransactionHandler env r db)))
       = (transactions (committed db) ++ appended)%list
       /\ length appended
          = (if succeeded (snd (CreateTransactionHandler env r db)) then 1 else 0)%nat.
Proof.
  destruct (handler_spec env r db) as [[Hfail Hsame] | (u & a & tr & _ & Hresp & Hboth)].
  - rewrite Hsame, Hfail. repeat split. exists []. now rewrite app_nil_r.
  - rewrite Hresp. destruct Hboth as (_ & Hledger & _ & before & _ & Haccounts & _).
    rewrite Haccounts, Hledger, map_ID_set_balance. split; [reflexivity |]. split.
    + rewrite map_map. apply map_ext. intros c. unfold set_balance.
      now destruct (acc_ID c =? acc_ID a).
    + eexists. split; reflexivity.
Qed.

(** X19.  After any sequence of requests, each served under any
    conditions of the storage layer, the ledger is the ledger before
    followed by exactly one row for each request that was answered 200, and
    the accounts are the same accounts: the same ids and the same user ids,
    in the same order. *)
Theorem serve_appends_one_row_per_success (reqs : list (Env * Request)) (db : DB) :
  (exists appended : list Transaction,
     transactions (committed (fst (serve reqs db)))
     = (transactions (committed db) ++ appended)%list
     /\ length appended = length (List.filter succeeded (snd (serve reqs db))))
  /\ map acc_ID (accounts (committed (fst (serve reqs db))))
     = map acc_ID (accounts (committed db))
  /\ map acc_UserID (accounts (committed (fst (serve reqs db))))
     = map acc_UserID (accounts (committed db)).
Proof.
  revert db. induction reqs as [| [env r] reqs IH]; intros db.
  - simpl. repeat split. exists []. now rewrite app_nil_r.
  - rewrite serve_cons, serve_cons_responses.
    destruct (IH (fst (CreateTransactionHandler env r db))) as ((rest & Hrest & Hlen) & Hid & Hu).
    destruct (handler_step env r db) as (Hid1 & Hu1 & first & Hfirst & Hlen1).
    split; [| split; congruence].
    exists (first ++ rest)%list. rewrite Hrest, Hfirst, <- app_assoc. split; [reflexivity |].
    rewrite length_app, Hlen, Hlen1. simpl.
    now destruct (succeeded (snd (CreateTransactionHandler env r db))).
Qed.

(** X20.  A request changes the balance of one account at most: the
    account of the user of the URL, and only when it is answered 200.  The
    balance of every other account, as every connection reads it, is the
    same after the request as before. *)
Theorem other_balances_unchanged (env : Env) (r : Request) (db : DB) (id : Z) :
  balance_of id (fst (CreateTransactionHandler env r db)) = balance_of id db
  \/ (succeeded (snd (CreateTransactionHandler env r db)) = true
      /\ exists (userID : Z) (account : Account),
           ValidateID (userId r) = (userID, None)
           /\ find (fun a => acc_UserID a =? userID) (accounts (committed db)) = Some account
           /\ acc_ID account = id).
Proof.
  destruct (handler_spec env r db) as [[_ Hsame] | (u & a & tr & Hprep & Hresp & Hboth)].
  - left. unfold balance_of. now rewrite Hsame.
  - destruct (Z.eq_dec (acc_ID a) id) as [Heq | Hne].
    + right. rewrite Hresp. split; [reflexivity |].
      apply prepared_inv in Hprep as (_ & Hid & _ & Hfind & _). eauto.
    + left. destruct Hboth as (_ & _ & _ & before & _ & Haccounts & _).
      unfold balance_of, find_account. rewrite Haccounts, find_set_balance.
      destruct (find _ (accounts (committed db))) as [c |] eqn:Hc; [| reflexivity].
      simpl. f_equal. unfold set_balance.
      apply find_some in Hc as [_ Hc]. apply Z.eqb_eq in Hc.
      destruct (Z.eqb_spec (acc_ID c) (acc_ID a)); [congruence | reflexivity].
Qed.

(** *** ValidateBodyWithDetails by reflection *)

Lemma of_Transaction_Decode (o : TransactionJSON) (reqData : Models.Transaction) :
  Reflect.assign_members
    [option_map Reflect.String_ (json_transactionId o);
     option_map Reflect.Int64 (json_account_id o);
     option_map Reflect.String_ (json_amount o);
     option_map Reflect.Float64 (json_AmountFloat o);
     option_map Reflect.String_ (json_source o);
     option_map Reflect.String_ (json_state o);
     option_map Reflect.String_ (json_inserted_at o)]
    (Reflect.of_Transaction reqData)
  = Reflect.of_Transaction (fst (Decode (Object o) reqData)).
Proof.
  destruct o as [[?|] [?|] [?|] [?|] [?|] [?|] [?|]]; reflexivity.
Qed.

Lemma of_Transaction_isEmptyStruct (d : Models.Transaction) :
  Reflect.isEmptyStruct (Reflect.of_Transaction d) = isEmptyStruct d.
Proof.
  unfold Reflect.isEmptyStruct, isEmptyStruct. simpl.
  now rewrite andb_true_r, !andb_assoc.
Qed.

Lemma of_Transaction_validate_Struct (isEmail : string -> bool) (d : Models.Transaction) :
  Reflect.validate_Struct isEmail Reflect.Transaction (Reflect.of_Transaction d)
  = validate_Struct d.
Proof.
  unfold validate_Struct, validate_string, oneof.
  cbn [Reflect.validate_Struct Reflect.Transaction Reflect.of_Transaction
       Reflect.validate_field Reflect.passes Reflect.Name Reflect.validate Reflect.tag_of
       fst snd].
  change (Reflect.words "game server payment") with ["game"; "server"; "payment"].
  change (Reflect.words "win lose") with ["win"; "lose"].
  destruct (String.eqb (Models.ID d) EmptyString),
           (Models.AccountID d =? 0),
           (String.eqb (Models.Amount d) EmptyString),
           (String.eqb (Models.Source d) EmptyString),
           (existsb (String.eqb (Models.Source d)) ["game"; "server"; "payment"]),
           (String.eqb (Models.TransactionType d) EmptyString),
           (existsb (String.eqb (Models.TransactionType d)) ["win"; "lose"]);
    reflexivity.
Qed.

Lemma of_Transaction_validation_errors (d : Models.Transaction) :
  Reflect.validation_errors Reflect.Transaction (validate_Struct d)
  = validation_errors (validate_Struct d).
Proof.
  unfold validate_Struct, validate_string.
  destruct (String.eqb (Models.ID d) EmptyString),
           (Models.AccountID d =? 0),
           (String.eqb (Models.Amount d) EmptyString),
           (String.eqb (Models.Source d) EmptyString),
           (oneof (Models.Source d) ["game"; "server"; "payment"]),
           (String.eqb (Models.TransactionType d) EmptyString),
           (oneof (Models.TransactionType d) ["win"; "lose"]);
    reflexivity.
Qed.

(** X21.  The validation of the body at [models.Transaction], written out
    field by field for the handler, is [ValidateBodyWithDetails] of
    helpers.go run by reflection on the fields and the tags of
    [models.Transaction]: the same boolean, the same map of errors, the
    same struct after the call, for every body and every struct given. *)
Theorem ValidateBodyWithDetails_by_reflection (isEmail : string -> bool)
  (body : RequestBody) (reqData : Models.Transaction) :
  Reflect.ValidateBodyWithDetails isEmail Reflect.Transaction
    (Reflect.of_body body) (Reflect.of_Transaction reqData)
  = let '(ok, errors, decoded) := ValidateBodyWithDetails body reqData in
    (ok, errors, Reflect.of_Transaction decoded).
Proof.
  unfold Reflect.ValidateBodyWithDetails, ValidateBodyWithDetails.
  destruct body as [err | o]; [reflexivity |].
  unfold Reflect.of_body, Reflect.Decode. rewrite of_Transaction_Decode.
  cbn [Decode fst]. set (d := Models.mkTransaction _ _ _ _ _ _ _).
  rewrite of_Transaction_isEmptyStruct.
  destruct (isEmptyStruct d); [reflexivity |].
  rewrite of_Transaction_validate_Struct.
  pose proof (of_Transaction_validation_errors d) as Hmap.
  destruct (validate_Struct d); [reflexivity | now rewrite Hmap].
Qed.

Section Reflection.

Variable isEmail : string -> bool.
Variable structType : Reflect.StructType.

Lemma validate_field_nil (fieldName : string) (rules : list Reflect.Rule)
  (value : Reflect.Value) :
  Reflect.validate_field isEmail fieldName rules value = []
  <-> forallb (fun rule => Reflect.passes isEmail rule value) rules = true.
Proof.
  induction rules as [| rule rules IH]; simpl; [tauto |].
  destruct (Reflect.passes isEmail rule value); simpl; [assumption |].
  split; discriminate.
Qed.

Lemma validate_field_In (fieldName : string) (rules : list Reflect.Rule)
  (value : Reflect.Value) (e : FieldError) :
  In e (Reflect.validate_field isEmail fieldName rules value) ->
  StructField e = fieldName /\ rules <> [].
Proof.
  induction rules as [| rule rules IH]; simpl; [tauto |].
  destruct (Reflect.passes isEmail rule value).
  - intros H. split; [now apply IH | discriminate].
  - intros [<- | []]. split; [reflexivity | discriminate].
Qed.

Lemma validate_Struct_In (ty : Reflect.StructType) (v : Reflect.Struct) (e : FieldError) :
  In e (Reflect.validate_Struct isEmail ty v) ->
  exists field, In field ty /\ Reflect.validate field <> [] /\ StructField e = Reflect.Name field.
Proof.
  revert v. induction ty as [| field ty IH]; intros v; simpl; [tauto |].
  destruct v as [| value v]; [intros [] |].
  intros H. apply in_app_or in H as [H | H].
  - apply validate_field_In in H as [H1 H2]. exists field. auto.
  - destruct (IH v H) as (f & Hin & Hf). exists f. auto.
Qed.

Lemma validate_Struct_passes (ty : Reflect.StructType) (v : Reflect.Struct) :
  Reflect.validate_Struct isEmail ty v = []
  <-> Forall (fun fv => forallb (fun rule => Reflect.passes isEmail rule (snd fv))
                                (Reflect.validate (fst fv)) = true)
             (combine ty v).
Proof.
  revert v. induction ty as [| field ty IH]; intros v; simpl; [split; constructor |].
  destruct v as [| value v]; [split; constructor |]. simpl.
  split.
  - intros H. apply app_eq_nil in H as [H1 H2]. constructor.
    + now apply validate_field_nil in H1.
    + now apply IH.
  - intros H. apply Forall_cons_iff in H as [H1 H2]. simpl in H1.
    apply (validate_field_nil (Reflect.Name field)) in H1. apply IH in H2.
    now rewrite H1, H2.
Qed.

Lemma reflect_errors_keys (errs : list FieldError) (k : string) :
  Reflect.validation_errors structType errs !! k <> None ->
  exists e, In e errs /\ k = Reflect.getJSONFieldName structType (StructField e).
Proof.
  unfold Reflect.validation_errors.
  assert (H : forall m : gmap string string,
             fold_left
               (fun (errors : gmap string string) validationErr =>
                  <[Reflect.getJSONFieldName structType (StructField validationErr) :=
                    generateValidationErrorMessage
                      (Reflect.getJSONFieldName structType (StructField validationErr))
                      validationErr]> errors) errs m !! k <> None ->
             m !! k <> None
             \/ exists e, In e errs
                          /\ k = Reflect.getJSONFieldName structType (StructField e)).
  { induction errs as [| e errs IH]; intros m; simpl; [tauto |].
    intros Hk. apply IH in Hk as [Hk | (e' & Hin & Hk)]; [| right; eauto].
    destruct (String.eqb_spec (Reflect.getJSONFieldName structType (StructField e)) k)
      as [Heq | Hne].
    - right. exists e. auto.
    - rewrite lookup_insert_ne in Hk by assumption. now left. }
  intros Hk. apply H in Hk as [Hk | Hk]; [| assumption].
  now rewrite lookup_empty in Hk.
Qed.

Lemma reflect_errors_nonempty (e : FieldError) (errs : list FieldError) :
  Reflect.validation_errors structType (e :: errs) <> ∅.
Proof.
  unfold Reflect.validation_errors. simpl.
  generalize (insert_non_empty (M := gmap string) (∅ : gmap string string)
                (Reflect.getJSONFieldName structType (StructField e))
                (generateValidationErrorMessage
                   (Reflect.getJSONFieldName structType (StructField e)) e)).
  generalize (<[Reflect.getJSONFieldName structType (StructField e) :=
                generateValidationErrorMessage
                  (Reflect.getJSONFieldName structType (StructField e)) e]>
              (∅ : gmap string string)).
  induction errs as [| e' errs IH]; intros m Hm; simpl; [assumption |].
  apply IH, insert_non_empty.
Qed.

(** X22.  [ValidateBodyWithDetails] on any struct of the models, for any
    test of the tag email: the boolean is true exactly when the map of
    errors is empty, and exactly when the body decodes, the struct after the
    decoding is not empty and every field passes every item of its validate
    tag; a key of the map of errors is body, or the JSON name of a field
    that has a validate tag. *)
Theorem ValidateBodyWithDetails_reflective (body : Reflect.RequestBody)
  (reqData : Reflect.Struct) :
  let '(ok, errors, decoded) :=
    Reflect.ValidateBodyWithDetails isEmail structType body reqData in
  (ok = true <-> errors = ∅)
  /\ (ok = true
      <-> (exists members, body = Reflect.Object members)
          /\ Reflect.isEmptyStruct decoded = false
          /\ Forall (fun fv => forallb (fun rule => Reflect.passes isEmail rule (snd fv))
                                       (Reflect.validate (fst fv)) = true)
                    (combine structType decoded))
  /\ (forall k : string,
        errors !! k <> None ->
        k = "body"
        \/ exists field,
             In field structType /\ Reflect.validate field <> []
             /\ k = Reflect.getJSONFieldName structType (Reflect.Name field)).
Proof.
  unfold Reflect.ValidateBodyWithDetails.
  assert (Hbody : forall (message : string) (k : string),
             ({[ "body" := message ]} : gmap string string) !! k <> None -> k = "body").
  { intros message k Hk. destruct (String.eqb_spec "body" k) as [<- | Hne]; [reflexivity |].
    now rewrite lookup_singleton_ne in Hk. }
  destruct body as [err | members]; cbn [Reflect.Decode].
  { split; [| split].
    - split; [discriminate |]. intros H.
      now apply (map_non_empty_singleton (M := gmap string)) in H.
    - split; [discriminate | intros ([m [=]] & _)].
    - intros k Hk. left. eapply Hbody, Hk. }
  set (d := Reflect.assign_members members reqData).
  destruct (Reflect.isEmptyStruct d) eqn:Hempty.
  { split; [| split].
    - split; [discriminate |]. intros H.
      now apply (map_non_empty_singleton (M := gmap string)) in H.
    - split; [discriminate | intros (_ & H & _); congruence].
    - intros k Hk. left. eapply Hbody, Hk. }
  destruct (Reflect.validate_Struct isEmail structType d) as [| e errs] eqn:Hv.
  - split; [tauto |]. split.
    + split; [| reflexivity]. intros _. split; [eauto |]. split; [exact Hempty |].
      now apply validate_Struct_passes.
    + intros k Hk. now rewrite lookup_empty in Hk.
  - split; [| split].
    + split; [discriminate |]. intros H. now apply reflect_errors_nonempty in H.
    + split; [discriminate |]. intros (_ & _ & H).
      apply validate_Struct_passes in H. congruence.
    + intros k Hk. right. apply reflect_errors_keys in Hk as (e' & Hin & ->).
      rewrite <- Hv in Hin. apply validate_Struct_In in Hin as (field & Hf & Hrules & ->).
      eauto.
Qed.

End Reflection.

Lemma existsb_eqb_In (v : string) (allowed : list string) :
  existsb (String.eqb v) allowed = true <-> In v allowed.
Proof.
  rewrite existsb_exists. split.
  - intros (x & Hin & Heq). apply String.eqb_eq in Heq. now subst x.
  - intros Hin. exists v. split; [assumption | apply String.eqb_refl].
Qed.

(** X23.  The validation of a body at [models.Account], as
    CreateAccountHandler and the tests of the api run it: with the fields
    id, user_id, balance, currency, status of the struct after the decoding,
    it returns true exactly when user_id is not empty, balance is not 0 and
    currency is USD, EUR or GBP.  The tag required rejects the balance 0
    under the key balance, and the tag default of the field Currency is not
    applied: an empty currency is answered under the key currency as
    required. *)
Theorem Account_validation (isEmail : string -> bool) (body : Reflect.RequestBody)
  (reqData : Reflect.Struct) (id : Z) (user_id : string) (balance : float64)
  (currency status : string) :
  Reflect.Decode body reqData
  = ([Reflect.Int64 id; Reflect.String_ user_id; Reflect.Float64 balance;
      Reflect.String_ currency; Reflect.String_ status], None) ->
  let '(ok, errors, _) :=
    Reflect.ValidateBodyWithDetails isEmail Reflect.Account body reqData in
  (ok = true
   <-> user_id <> EmptyString /\ F64.neqb balance F64.zero = true
       /\ In currency ["USD"; "EUR"; "GBP"])
  /\ (user_id <> EmptyString -> F64.neqb balance F64.zero = false ->
      errors !! "balance" = Some "The balance field is required")
  /\ (user_id <> EmptyString -> currency = EmptyString ->
      errors !! "currency" = Some "The currency field is required").
Proof.
  intros Hdecode. unfold Reflect.ValidateBodyWithDetails. rewrite Hdecode.
  cbn [Reflect.isEmptyStruct forallb].
  cbn [Reflect.validate_Struct Reflect.Account Reflect.validate_field Reflect.passes
       Reflect.Name Reflect.validate Reflect.tag_of fst snd].
  change (Reflect.words "USD EUR GBP") with ["USD"; "EUR"; "GBP"].
  pose proof (existsb_eqb_In currency ["USD"; "EUR"; "GBP"]) as Hin.
  destruct (String.eqb_spec user_id EmptyString) as [Hu | Hu].
  { cbn [negb andb app].
    destruct (_ && _); [split; [split; [discriminate | tauto] | tauto] |].
    split; [| tauto]. split; [| tauto].
    destruct (F64.neqb balance F64.zero);
      destruct (negb (String.eqb currency EmptyString));
      try destruct (existsb _ _); discriminate. }
  cbn [negb andb app].
  destruct (F64.neqb balance F64.zero) eqn:Hb;
    destruct (String.eqb_spec currency EmptyString) as [Hc | Hc];
    cbn [negb app];
    destruct (existsb (String.eqb currency) ["USD"; "EUR"; "GBP"]) eqn:Hcur;
    cbn [app].
  all: try (subst currency; simpl in Hcur; discriminate Hcur).
  all: rewrite andb_false_r.
  all: split; [split; [try discriminate; intuition congruence
                      | intros (_ & H1 & H2); try discriminate; try reflexivity;
                        apply Hin in H2; discriminate]
              | split; intros; try discriminate; try congruence; try reflexivity].
Qed.

Lemma Account_validation_witness :
  let '(ok, errors, _) :=
    Reflect.ValidateBodyWithDetails (fun _ => false) Reflect.Account
      (Reflect.Object [Some (Reflect.Int64 0); Some (Reflect.String_ "123");
                       Some (Reflect.Float64 (F64.of_Z 100));
                       Some (Reflect.String_ "USD"); Some (Reflect.String_ EmptyString)])
      Reflect.zeroAccount in
  (ok = true
   <-> "123" <> EmptyString /\ F64.neqb (F64.of_Z 100) F64.zero = true
       /\ In "USD" ["USD"; "EUR"; "GBP"])
  /\ ("123" <> EmptyString -> F64.neqb (F64.of_Z 100) F64.zero = false ->
      errors !! "balance" = Some "The balance field is required")
  /\ ("123" <> EmptyString -> "USD" = EmptyString ->
      errors !! "currency" = Some "The currency field is required").
Proof.
  apply (Account_validation (fun _ => false)
           (Reflect.Object [Some (Reflect.Int64 0); Some (Reflect.String_ "123");
                            Some (Reflect.Float64 (F64.of_Z 100));
                            Some (Reflect.String_ "USD");
                            Some (Reflect.String_ EmptyString)])
           Reflect.zeroAccount 0 "123" (F64.of_Z 100) "USD" EmptyString).
  reflexivity.
Defined.

(** X24.  The validation of a body at [models.User], as CreateUserHandler
    runs it: with the fields id, username, full_name, email of the struct
    after the decoding, it returns true exactly when username and full_name
    are not empty and email is not empty and passes the test of the tag
    email; an email that is not empty and fails that test is answered under
    the key email. *)
Theorem User_validation (isEmail : string -> bool) (body : Reflect.RequestBody)
  (reqData : Reflect.Struct) (id : Z) (username full_name email : string) :
  Reflect.Decode body reqData
  = ([Reflect.Int64 id; Reflect.String_ username; Reflect.String_ full_name;
      Reflect.String_ email], None) ->
  let '(ok, errors, _) :=
    Reflect.ValidateBodyWithDetails isEmail Reflect.User body reqData in
  (ok = true
   <-> username <> EmptyString /\ full_name <> EmptyString
       /\ email <> EmptyString /\ isEmail email = true)
  /\ (email <> EmptyString -> isEmail email = false ->
      errors !! "email" = Some "The email must be a valid email address").
Proof.
  intros Hdecode. unfold Reflect.ValidateBodyWithDetails. rewrite Hdecode.
  cbn [Reflect.isEmptyStruct forallb].
  cbn [Reflect.validate_Struct Reflect.User Reflect.validate_field Reflect.passes
       Reflect.Name Reflect.validate Reflect.tag_of fst snd].
  destruct (String.eqb_spec email EmptyString) as [He | He].
  { cbn [negb andb app].
    destruct (_ && _); [split; [split; [discriminate | tauto] | tauto] |].
    destruct (negb (String.eqb username EmptyString));
      destruct (negb (String.eqb full_name EmptyString)); cbn [app];
      (split; [split; [discriminate | tauto] | tauto]). }
  cbn [negb andb app]. rewrite !andb_false_r.
  destruct (String.eqb_spec username EmptyString) as [Hu | Hu];
    destruct (String.eqb_spec full_name EmptyString) as [Hf | Hf];
    destruct (isEmail email) eqn:Hmail; cbn [negb andb app].
  all: split; [split; [try discriminate; tauto | intros (? & ? & ? & ?); try discriminate;
                                                 try reflexivity; try contradiction]
              | intros; try discriminate; try congruence; try reflexivity].
Qed.

Lemma User_validation_witness :
  let '(ok, errors, _) :=
    Reflect.ValidateBodyWithDetails (fun _ => false) Reflect.User
      (Reflect.Object [None; Some (Reflect.String_ "testuser");
                       Some (Reflect.String_ "Test User");
                       Some (Reflect.String_ "invalid-email")])
      Reflect.zeroUser in
  (ok = true
   <-> "testuser" <> EmptyString /\ "Test User" <> EmptyString
       /\ "invalid-email" <> EmptyString /\ false = true)
  /\ ("invalid-email" <> EmptyString -> false = false ->
      errors !! "email" = Some "The email must be a valid email address").
Proof.
  apply (User_validation (fun _ => false)
           (Reflect.Object [None; Some (Reflect.String_ "testuser");
                            Some (Reflect.String_ "Test User");
                            Some (Reflect.String_ "invalid-email")])
           Reflect.zeroUser 0 "testuser" "Test User" "invalid-email").
  reflexivity.
Defined.

(** *** FormatFloat writes the nearest number of hundredths *)

Lemma digits_from_value (ds : list Z) (n : Z) :
  fold_left (fun n c => n * 10 + (c - byte "0")) ds n
  = n * 10 ^ Z.of_nat (length ds) + digits_value ds.
Proof.
  unfold digits_value. revert n. induction ds as [| c ds IH]; intros n.
  - simpl. lia.
  - cbn [fold_left length]. rewrite IH, (IH (0 * 10 + (c - byte "0"))).
    rewrite Nat2Z.inj_succ, Z.pow_succ_r by lia. lia.
Qed.

Lemma digits_value_app (l k : list Z) :
  digits_value (l ++ k) = digits_value l * 10 ^ Z.of_nat (length k) + digits_value k.
Proof.
  unfold digits_value at 1. rewrite fold_left_app. fold (digits_value l).
  apply digits_from_value.
Qed.

Lemma digits_value_cons (c : Z) (ds : list Z) :
  digits_value (c :: ds) = (c - byte "0") * 10 ^ Z.of_nat (length ds) + digits_value ds.
Proof.
  change (c :: ds) with ([c] ++ ds)%list. rewrite digits_value_app.
  unfold digits_value at 1. simpl. lia.
Qed.

Lemma digits_value_bound (ds : list Z) :
  Forall digit_byte ds -> 0 <= digits_value ds < 10 ^ Z.of_nat (length ds).
Proof.
  induction 1 as [| c ds Hc Hds IH].
  - unfold digits_value. simpl. lia.
  - rewrite digits_value_cons. cbn [length]. rewrite Nat2Z.inj_succ, Z.pow_succ_r by lia.
    unfold digit_byte in Hc. change (byte "0") with 48 in *. change (byte "9") with 57 in *.
    nia.
Qed.

Lemma digits_value_repeat_zero (n : nat) : digits_value (repeat (byte "0") n) = 0.
Proof.
  induction n as [| n IH]; [reflexivity |].
  cbn [repeat]. rewrite digits_value_cons, IH. lia.
Qed.

(** the loop of Assign writes the number *)
Lemma digits_of_spec (fuel : nat) (v : Z) (acc : list Z) :
  0 <= v < 2 ^ Z.of_nat fuel ->
  exists ds : list Z,
    digits_of fuel v acc = (ds ++ acc)%list
    /\ Forall digit_byte ds
    /\ digits_value ds = v
    /\ no_leading_zero ds
    /\ (v = 0 -> ds = []).
Proof.
  revert v acc. induction fuel as [| fuel IH]; intros v acc Hv.
  - change (2 ^ Z.of_nat 0) with 1 in Hv. assert (v = 0) as -> by lia.
    exists []. repeat split; constructor.
  - cbn [digits_of]. destruct (Z.ltb_spec 0 v) as [Hpos | Hzero].
    + rewrite Nat2Z.inj_succ, Z.pow_succ_r in Hv by lia.
      assert (Hdiv : 0 <= v / 10 < 2 ^ Z.of_nat fuel).
      { split; [apply Z.div_pos; lia |].
        apply Z.div_lt_upper_bound; [lia |]. lia. }
      destruct (IH (v / 10) (v mod 10 + byte "0" :: acc) Hdiv)
        as (ds & Hds & Hdig & Hval & Hlead & Hnil).
      pose proof (Z.mod_pos_bound v 10 ltac:(lia)) as Hmod.
      exists (ds ++ [v mod 10 + byte "0"])%list. split; [now rewrite <- app_assoc |].
      split.
      { apply Forall_app. split; [assumption |]. constructor; [| constructor].
        unfold digit_byte. change (byte "0") with 48. change (byte "9") with 57. lia. }
      split.
      { rewrite digits_value_app, Hval. unfold digits_value. simpl.
        pose proof (Z.div_mod v 10 ltac:(lia)). lia. }
      split.
      { destruct ds as [| c ds]; simpl; [| exact Hlead].
        destruct (Z.eq_dec (v / 10) 0) as [Hq | Hq].
        - assert (v mod 10 <> 0); [| lia].
          pose proof (Z.div_mod v 10 ltac:(lia)). lia.
        - unfold digits_value in Hval. simpl in Hval. lia. }
      intros ->. lia.
    + assert (v = 0) as -> by lia. exists []. repeat split; constructor.
Qed.

Lemma digits_spec (v : Z) :
  0 <= v ->
  Forall digit_byte (digits v) /\ digits_value (digits v) = v
  /\ no_leading_zero (digits v) /\ (v = 0 -> digits v = []).
Proof.
  intros Hv. unfold digits.
  assert (Hfuel : 0 <= v < 2 ^ Z.of_nat (S (Z.to_nat (Z.log2 v)))).
  { split; [assumption |]. rewrite Nat2Z.inj_succ, Z2Nat.id by apply Z.log2_nonneg.
    destruct (Z.eq_dec v 0) as [-> | Hne]; [reflexivity |].
    apply Z.log2_spec. lia. }
  destruct (digits_of_spec _ v [] Hfuel) as (ds & Hds & Hrest).
  rewrite app_nil_r in Hds. now rewrite Hds.
Qed.

(** digits without leading zero are the digits of their number *)
Lemma digits_unique (ds : list Z) :
  Forall digit_byte ds -> no_leading_zero ds -> digits (digits_value ds) = ds.
Proof.
  intros Hdig Hlead.
  assert (Hgen : forall (fuel : nat) (acc : list Z),
             digits_value ds < 2 ^ Z.of_nat fuel ->
             digits_of fuel (digits_value ds) acc = (ds ++ acc)%list).
  { induction ds as [| c ds IH] using rev_ind; intros fuel acc Hfuel.
    - destruct fuel; reflexivity.
    - apply Forall_app in Hdig as [Hdig Hc]. apply Forall_cons_iff in Hc as [Hc _].
      assert (Hlead' : no_leading_zero ds) by (destruct ds; [exact I | exact Hlead]).
      pose proof (digits_value_bound ds Hdig) as Hb.
      rewrite digits_value_app in *. unfold digits_value at 2 in Hfuel.
      unfold digits_value at 2. simpl fold_left in *. simpl length in *.
      change (10 ^ Z.of_nat 1) with 10 in *.
      unfold digit_byte in Hc. change (byte "0") with 48 in *. change (byte "9") with 57 in *.
      assert (Hpos : 0 < digits_value ds * 10 + (0 * 10 + (c - 48))).
      { destruct ds as [| c0 ds0].
        - simpl in Hlead. change (byte "0") with 48 in Hlead.
          unfold digits_value. simpl. lia.
        - assert (0 < digits_value (c0 :: ds0)); [| lia].
          rewrite digits_value_cons. apply Forall_cons_iff in Hdig as [Hc0 Hds0].
          pose proof (digits_value_bound ds0 Hds0). simpl in Hlead.
          unfold digit_byte in Hc0. change (byte "0") with 48 in *.
          change (byte "9") with 57 in *.
          assert (0 < 10 ^ Z.of_nat (length ds0)) by (apply Z.pow_pos_nonneg; lia).
          nia. }
      destruct fuel as [| fuel]; [simpl in Hfuel; lia |].
      cbn [digits_of]. destruct (Z.ltb_spec 0 (digits_value ds * 10 + (0 * 10 + (c - 48))));
        [| lia].
      assert (Hq : (digits_value ds * 10 + (0 * 10 + (c - 48))) / 10 = digits_value ds)
        by (symmetry; apply (Z.div_unique _ 10 _ (c - 48)); lia).
      assert (Hr : (digits_value ds * 10 + (0 * 10 + (c - 48))) mod 10 = c - 48)
        by (symmetry; apply (Z.mod_unique _ 10 (digits_value ds)); lia).
      change (byte "0") with 48. rewrite Hq, Hr. replace (c - 48 + 48) with c by lia.
      rewrite <- app_assoc. cbn [app]. apply IH; [assumption | assumption |].
      rewrite Nat2Z.inj_succ, Z.pow_succ_r in Hfuel by lia. lia. }
  unfold digits. rewrite Hgen; [apply app_nil_r |].
  rewrite Nat2Z.inj_succ, Z2Nat.id by apply Z.log2_nonneg.
  pose proof (digits_value_bound ds Hdig).
  destruct (Z.eq_dec (digits_value ds) 0) as [-> | Hne]; [reflexivity |].
  apply Z.log2_spec. lia.
Qed.

Lemma fmtF_parts (neg : bool) (a : decimal) :
  fmtF neg a 2
  = (if neg then "-" else EmptyString)
    +:+ string_of_bytes
          (if 0 <? dp a then
             firstn (Z.to_nat (Z.min (nd a) (dp a))) (d a)
             ++ repeat (byte "0") (Z.to_nat (dp a - Z.min (nd a) (dp a)))
           else [byte "0"])
    +:+ "."
    +:+ string_of_bytes
          [if (0 <=? dp a) && (dp a <? nd a) then digit_at a (dp a) else byte "0";
           if (0 <=? dp a + 1) && (dp a + 1 <? nd a) then digit_at a (dp a + 1)
           else byte "0"].
Proof.
  unfold fmtF. cbv zeta. change (0 <? 2) with true. cbv iota.
  change (seqZ 0 2) with [0; 1]. cbn [map]. rewrite Z.add_0_r.
  rewrite !string_of_bytes_app.
  match goal with
  | |- context [string_of_bytes (byte "." :: ?l)] =>
      change (byte "." :: l) with ([byte "."] ++ l)%list
  end.
  rewrite string_of_bytes_app. now destruct neg.
Qed.

Lemma money_parts (n : Z) (integer : list Z) (f0 f1 : Z) :
  0 <= n ->
  Forall digit_byte integer ->
  (integer = [byte "0"] /\ n / 100 = 0
   \/ integer <> [] /\ no_leading_zero integer /\ digits_value integer = n / 100) ->
  f0 = n mod 100 / 10 + byte "0" ->
  f1 = n mod 10 + byte "0" ->
  string_of_bytes integer +:+ "." +:+ string_of_bytes [f0; f1] = money n.
Proof.
  intros Hn Hdig Hint -> ->. unfold money. f_equal. f_equal.
  destruct Hint as [[-> Hq] | (Hne & Hlead & Hval)].
  - rewrite Hq. reflexivity.
  - rewrite <- Hval, digits_unique by assumption. now destruct integer.
Qed.

Ltac bytes :=
  unfold digit_byte in *;
  change (byte "0") with 48 in *; change (byte "9") with 57 in *;
  change (byte "5") with 53 in *; change (byte "1") with 49 in *.

Ltac ground :=
  repeat match goal with
         | |- context [Z.of_nat ?x] =>
             is_ground x; let v := eval vm_compute in (Z.of_nat x) in
             change (Z.of_nat x) with v
         | |- context [Z.to_nat ?x] =>
             is_ground x; let v := eval vm_compute in (Z.to_nat x) in
             change (Z.to_nat x) with v
         | |- context [?a <? ?b] =>
             is_ground a; is_ground b; let v := eval vm_compute in (a <? b) in
             change (a <? b) with v
         | |- context [?a <=? ?b] =>
             is_ground a; is_ground b; let v := eval vm_compute in (a <=? b) in
             change (a <=? b) with v
         | |- context [10 ^ ?x] =>
             is_ground x; let v := eval vm_compute in (10 ^ x) in
             change (10 ^ x) with v
         end;
  cbn [andb nth].

Lemma firstn_no_leading_zero (n : nat) (ds : list Z) :
  no_leading_zero ds -> no_leading_zero (firstn n ds).
Proof. destruct n, ds; simpl; auto. Qed.

(** [%f] with two decimals, on a decimal that has no digit after the
    second decimal: the number of hundredths, written out *)
Lemma fmtF_money (neg : bool) (a : decimal) :
  Forall digit_byte (d a) -> no_leading_zero (d a) -> (d a = [] -> dp a = 0) ->
  0 <= dp a - nd a + 2 ->
  fmtF neg a 2
  = (if neg then "-" else EmptyString)
    +:+ money (digits_value (d a) * 10 ^ (dp a - nd a + 2)).
Proof.
  destruct a as [ds p]. unfold nd. cbn [d dp]. intros Hdig Hlead Hnil Hs.
  rewrite fmtF_parts. unfold nd, digit_at. cbn [d dp]. f_equal.
  pose proof (digits_value_bound ds Hdig) as Hbound.
  destruct ds as [| c0 ds'] eqn:Hds.
  { rewrite (Hnil eq_refl). reflexivity. }
  rewrite <- Hds in *. assert (Hlen : 1 <= Z.of_nat (length ds)) by (rewrite Hds; simpl; lia).
  assert (Hne : ds <> []) by (rewrite Hds; discriminate).
  destruct (Z.ltb_spec 0 p) as [Hp | Hp].
  - destruct (Z.le_gt_cases (Z.of_nat (length ds)) p) as [Hle | Hgt].
    + (* every digit is before the point *)
      rewrite Z.min_l by assumption. rewrite Nat2Z.id, firstn_all.
      destruct (Z.ltb_spec p (Z.of_nat (length ds))); [lia |].
      destruct (Z.ltb_spec (p + 1) (Z.of_nat (length ds))); [lia |].
      rewrite !andb_false_r.
      rewrite Z.pow_add_r by lia. change (10 ^ 2) with 100.
      set (n := digits_value ds * (10 ^ (p - Z.of_nat (length ds)) * 100)).
      assert (Hn : n = digits_value ds * 10 ^ (p - Z.of_nat (length ds)) * 100)
        by (unfold n; ring).
      assert (0 <= digits_value ds * 10 ^ (p - Z.of_nat (length ds))).
      { apply Z.mul_nonneg_nonneg; [lia | apply Z.pow_nonneg; lia]. }
      apply money_parts.
      * lia.
      * apply Forall_app. split; [assumption |]. apply Forall_forall.
        intros c Hc. apply list_elem_of_In, repeat_spec in Hc. subst c. bytes. lia.
      * right. split; [now destruct ds |].
        split; [rewrite Hds in Hlead |- *; exact Hlead |].
        rewrite digits_value_app, digits_value_repeat_zero, repeat_length, Z2Nat.id by lia.
        rewrite Hn, Z.div_mul by lia. lia.
      * rewrite Hn, Z.mod_mul by lia. reflexivity.
      * replace n with (digits_value ds * 10 ^ (p - Z.of_nat (length ds)) * 10 * 10)
          by (rewrite Hn; ring).
        rewrite Z.mod_mul by lia. reflexivity.
    + (* one or two digits are after the point *)
      rewrite Z.min_r by lia. rewrite Z.sub_diag. cbn [Z.to_nat repeat]. rewrite app_nil_r.
      destruct (Z.leb_spec 0 p); [| lia].
      destruct (Z.ltb_spec p (Z.of_nat (length ds))); [| lia].
      destruct (Z.leb_spec 0 (p + 1)); [| lia]. cbn [andb].
      pose proof (firstn_skipn (Z.to_nat p) ds) as Hsplit.
      assert (Hlen1 : length (firstn (Z.to_nat p) ds) = Z.to_nat p)
        by (rewrite length_firstn; lia).
      assert (Hlen2 : Z.of_nat (length (skipn (Z.to_nat p) ds)) = Z.of_nat (length ds) - p)
        by (rewrite length_skipn; lia).
      assert (Hnth : forall i, nth (Z.to_nat p + i) ds (byte "0")
                               = nth i (skipn (Z.to_nat p) ds) (byte "0")).
      { intros i. rewrite <- Hsplit at 1. rewrite app_nth2 by lia. f_equal. lia. }
      assert (Hdig1 : Forall digit_byte (firstn (Z.to_nat p) ds)) by now apply Forall_take.
      assert (Hdig2 : Forall digit_byte (skipn (Z.to_nat p) ds)) by now apply Forall_drop.
      assert (Hval : digits_value ds
                     = digits_value (firstn (Z.to_nat p) ds)
                       * 10 ^ (Z.of_nat (length ds) - p)
                       + digits_value (skipn (Z.to_nat p) ds)).
      { rewrite <- Hsplit at 1. now rewrite digits_value_app, Hlen2. }
      pose proof (digits_value_bound _ Hdig1) as Hb1.
      replace (Z.to_nat p) with (Z.to_nat p + 0)%nat at 2 by lia.
      replace (Z.to_nat (p + 1)) with (Z.to_nat p + 1)%nat by lia.
      rewrite !Hnth.
      assert (Hfirst : firstn (Z.to_nat p) ds <> [])
        by (intros Hempty; rewrite Hempty in Hlen1; simpl in Hlen1; lia).
      destruct (skipn (Z.to_nat p) ds) as [| r0 [| r1 [| r2 rest]]] eqn:HR;
        cbn [length] in Hlen2; try lia.
      * (* one digit *)
        destruct (Z.ltb_spec (p + 1) (Z.of_nat (length ds))); [lia |].
        apply Forall_cons_iff in Hdig2 as [Hr0 _].
        replace (Z.of_nat (length ds) - p) with 1 in Hval by lia.
        replace (p - Z.of_nat (length ds) + 2) with 1 by lia.
        rewrite Hval. change (digits_value [r0]) with (0 * 10 + (r0 - byte "0")).
        cbn [nth]. bytes. change (10 ^ 1) with 10.
        set (q := digits_value (firstn (Z.to_nat p) ds)) in *.
        apply money_parts; try assumption.
        -- lia.
        -- right. split; [assumption |]. split; [now apply firstn_no_leading_zero |].
           fold q. bytes. Z.div_mod_to_equations. lia.
        -- bytes. Z.div_mod_to_equations. lia.
        -- bytes. Z.div_mod_to_equations. lia.
      * (* two digits *)
        destruct (Z.ltb_spec (p + 1) (Z.of_nat (length ds))); [| lia].
        apply Forall_cons_iff in Hdig2 as [Hr0 Hdig2].
        apply Forall_cons_iff in Hdig2 as [Hr1 _].
        replace (Z.of_nat (length ds) - p) with 2 in Hval by lia.
        replace (p - Z.of_nat (length ds) + 2) with 0 by lia.
        rewrite Hval.
        change (digits_value [r0; r1])
          with ((0 * 10 + (r0 - byte "0")) * 10 + (r1 - byte "0")).
        cbn [nth]. bytes. change (10 ^ 2) with 100. change (10 ^ 0) with 1.
        set (q := digits_value (firstn (Z.to_nat p) ds)) in *.
        apply money_parts; try assumption.
        -- lia.
        -- right. split; [assumption |]. split; [now apply firstn_no_leading_zero |].
           fold q. bytes. Z.div_mod_to_equations. lia.
        -- bytes. Z.div_mod_to_equations. lia.
        -- bytes. Z.div_mod_to_equations. lia.
  - (* 0.d or 0.dd or 0.0d *)
    assert (Hzero : Forall digit_byte [byte "0"]) by (repeat constructor; bytes; lia).
    rewrite Hds in *. clear Hds Hne.
    apply Forall_cons_iff in Hdig as [Hc0 Hdig].
    destruct ds' as [| c1 [| c2 rest]]; cbn [length] in *; try lia.
    + assert (p = 0 \/ p = -1) as [-> | ->] by lia;
        change (digits_value [c0]) with (0 * 10 + (c0 - byte "0")); ground;
        (apply money_parts; [bytes; lia | exact Hzero | left; split; [reflexivity |] | |]);
        bytes; Z.div_mod_to_equations; lia.
    + assert (p = 0) as -> by lia. apply Forall_cons_iff in Hdig as [Hc1 _].
      change (digits_value [c0; c1])
        with ((0 * 10 + (c0 - byte "0")) * 10 + (c1 - byte "0")); ground;
        (apply money_parts; [bytes; lia | exact Hzero | left; split; [reflexivity |] | |]);
        bytes; Z.div_mod_to_equations; lia.
Qed.

Lemma trim_zeros_spec (l : list Z) :
  exists j : nat,
    l = (repeat (byte "0") j ++ trim_zeros l)%list /\ no_leading_zero (trim_zeros l).
Proof.
  induction l as [| c l (j & Hl & Hlead)]; [exists O; split; [reflexivity | exact I] |].
  cbn [trim_zeros]. destruct (Z.eqb_spec c (byte "0")) as [-> | Hc].
  - exists (S j). split; [cbn [repeat app]; now rewrite <- Hl | assumption].
  - exists O. split; [reflexivity | exact Hc].
Qed.

Lemma rev_repeat (c : Z) (j : nat) : rev (repeat c j) = repeat c j.
Proof.
  induction j as [| j IH]; [reflexivity |].
  cbn [repeat rev]. rewrite IH. clear IH.
  induction j as [| j IH]; [reflexivity |]. cbn [repeat app]. now rewrite IH.
Qed.

(** [trim]: the digits without their trailing zeros, at the same place *)
Lemma trim_spec (a : decimal) :
  exists j : nat,
    d a = (d (trim a) ++ repeat (byte "0") j)%list
    /\ no_trailing_zero (d (trim a))
    /\ (d (trim a) <> [] -> dp (trim a) = dp a)
    /\ (d (trim a) = [] -> dp (trim a) = 0).
Proof.
  destruct (trim_zeros_spec (rev (d a))) as (j & Hrev & Hlead).
  exists j. unfold trim, no_trailing_zero.
  assert (Hd : d a = (rev (trim_zeros (rev (d a))) ++ repeat (byte "0") j)%list).
  { rewrite <- (rev_involutive (d a)) at 1. rewrite Hrev at 1.
    now rewrite rev_app_distr, rev_repeat. }
  destruct (rev (trim_zeros (rev (d a)))) as [| c l] eqn:Ht; cbn [d dp].
  - repeat split; try assumption; try exact I. congruence.
  - rewrite <- Ht, rev_involutive. repeat split; try assumption.
    + now rewrite Ht.
    + rewrite Ht. discriminate.
Qed.

Lemma trim_no_leading_zero (a : decimal) :
  no_leading_zero (d a) -> no_leading_zero (d (trim a)).
Proof.
  intros H. destruct (trim_spec a) as (j & Hd & _).
  destruct (d (trim a)) as [| c l]; [exact I |]. rewrite Hd in H. exact H.
Qed.

Lemma trim_nonempty (a : decimal) :
  no_leading_zero (d a) -> d a <> [] -> d (trim a) <> [].
Proof.
  intros Hlead Hne Hempty. destruct (trim_spec a) as (j & Hd & _).
  rewrite Hempty in Hd. cbn [app] in Hd. rewrite Hd in Hlead, Hne.
  destruct j; [now apply Hne | now apply Hlead].
Qed.

Lemma trim_value (a : decimal) :
  exists j : nat,
    nd a = nd (trim a) + Z.of_nat j
    /\ digits_value (d a) = digits_value (d (trim a)) * 10 ^ Z.of_nat j.
Proof.
  destruct (trim_spec a) as (j & Hd & _). exists j. unfold nd.
  generalize dependent (d (trim a)). intros t ->.
  rewrite length_app, repeat_length, digits_value_app,
    digits_value_repeat_zero, repeat_length. lia.
Qed.

Lemma trim_scaled (a : decimal) (A B : Z) :
  d (trim a) <> [] -> scaled a A B -> scaled (trim a) A B.
Proof.
  intros Hne [Hs HA]. destruct (trim_spec a) as (_ & _ & _ & Hdp & _).
  destruct (trim_value a) as (j & Hnd & Hval). unfold scaled.
  rewrite (Hdp Hne). split; [lia |].
  rewrite <- HA, Hval.
  replace (dp a - nd (trim a) + B) with (Z.of_nat j + (dp a - nd a + B)) by lia.
  rewrite Z.pow_add_r by lia. ring.
Qed.

Lemma canonical_Assign (m : Z) :
  0 < m ->
  Forall digit_byte (d (Assign m)) /\ no_leading_zero (d (Assign m))
  /\ no_trailing_zero (d (Assign m)) /\ d (Assign m) <> [] /\ scaled (Assign m) m 0.
Proof.
  intros Hm. destruct (digits_spec m ltac:(lia)) as (Hdig & Hval & Hlead & _).
  assert (Hne : digits m <> []).
  { intros H. rewrite H in Hval. unfold digits_value in Hval. simpl in Hval. lia. }
  unfold Assign. set (a := Decimal (digits m) (Z.of_nat (length (digits m)))).
  assert (Hne' : d (trim a) <> []) by now apply trim_nonempty.
  split; [now apply trim_digit |]. split; [now apply trim_no_leading_zero |].
  split; [now destruct (trim_spec a) as (_ & _ & H & _) |]. split; [assumption |].
  apply trim_scaled; [assumption |]. unfold scaled, a, nd. cbn [d dp].
  split; [lia |]. rewrite Hval. replace (_ - _ + 0) with 0 by lia. simpl. lia.
Qed.

(** the decimal of a float: [m * 2^e] is [m * 2^e / 10^0] and, for
    [e < 0], [m * 5^(-e) / 10^(-e)] *)
Lemma canonical_Shift (m e : Z) :
  0 < m ->
  let a := Shift (Assign m) e in
  Forall digit_byte (d a) /\ no_leading_zero (d a) /\ no_trailing_zero (d a) /\ d a <> []
  /\ (if 0 <=? e then scaled a (m * 2 ^ e) 0 else scaled a (m * 5 ^ (- e)) (- e)).
Proof.
  intros Hm. cbv zeta.
  destruct (canonical_Assign m Hm) as (Hdig & Hlead & Htrail & Hne & Hs & HA).
  unfold Shift. destruct (d (Assign m)) as [| c0 l0] eqn:Hd; [congruence |].
  rewrite <- Hd in *. clear Hd c0 l0.
  set (n := digits_value (d (Assign m))) in *.
  set (s := dp (Assign m) - nd (Assign m)) in *.
  replace (s + 0) with s in * by lia.
  assert (Hn : 0 < n).
  { assert (0 < 10 ^ s) by (apply Z.pow_pos_nonneg; lia).
    pose proof (digits_value_bound _ Hdig). fold n in H0. nia. }
  assert (Hgen : forall n' s' A B,
             0 < n' -> 0 <= s' + B -> n' * 10 ^ (s' + B) = A ->
             let a := trim (Decimal (digits n') (Z.of_nat (length (digits n')) + s')) in
             Forall digit_byte (d a) /\ no_leading_zero (d a) /\ no_trailing_zero (d a)
             /\ d a <> [] /\ scaled a A B).
  { intros n' s' A B Hn' Hs' HA'. cbv zeta.
    destruct (digits_spec n' ltac:(lia)) as (Hdig' & Hval' & Hlead' & _).
    assert (Hne0 : digits n' <> []).
    { intros H. rewrite H in Hval'. unfold digits_value in Hval'. simpl in Hval'. lia. }
    set (a := Decimal (digits n') (Z.of_nat (length (digits n')) + s')).
    assert (Hne' : d (trim a) <> []) by now apply trim_nonempty.
    split; [now apply trim_digit |]. split; [now apply trim_no_leading_zero |].
    split; [now destruct (trim_spec a) as (_ & _ & H & _) |]. split; [assumption |].
    apply trim_scaled; [assumption |]. unfold scaled, a, nd. cbn [d dp].
    rewrite Hval'. replace (_ + s' - _ + B) with (s' + B) by lia. auto. }
  destruct (Z.leb_spec 0 e) as [He | He].
  - apply Hgen.
    + assert (0 < 2 ^ e) by (apply Z.pow_pos_nonneg; lia). nia.
    + lia.
    + rewrite <- HA. replace (s + 0) with s by lia. ring.
  - apply Hgen.
    + assert (0 < 5 ^ (- e)) by (apply Z.pow_pos_nonneg; lia). nia.
    + lia.
    + rewrite <- HA. replace (s + e + - e) with s by lia. ring.
Qed.

Lemma nearest_even_split (q r den : Z) :
  0 <= r < den ->
  nearest_even (q * den + r) den
  = if 2 * r <? den then q else if den <? 2 * r then q + 1
    else if Z.even q then q else q + 1.
Proof.
  intros Hr. unfold nearest_even. cbv zeta.
  assert (Hq : (q * den + r) / den = q).
  { symmetry. apply (Z.div_unique_pos _ _ q r); lia. }
  assert (Hm : (q * den + r) mod den = r).
  { symmetry. apply (Z.mod_unique_pos _ _ q r); lia. }
  now rewrite Hq, Hm.
Qed.

Lemma nearest_even_exact (h den : Z) : 0 < den -> nearest_even (h * den) den = h.
Proof.
  intros Hden. replace (h * den) with (h * den + 0) by lia.
  rewrite nearest_even_split by lia.
  destruct (Z.ltb_spec (2 * 0) den); [reflexivity | lia].
Qed.

Lemma nearest_even_small (v den : Z) : 0 <= v -> 2 * v < den -> nearest_even v den = 0.
Proof.
  intros Hv Hden. replace v with (0 * den + v) by lia.
  rewrite nearest_even_split by lia.
  destruct (Z.ltb_spec (2 * v) den); [reflexivity | lia].
Qed.

(** the nearest integer depends on the quotient only *)
Lemma nearest_even_ratio (a b c e : Z) :
  0 < b -> 0 < e -> a * e = c * b -> nearest_even a b = nearest_even c e.
Proof.
  intros Hb He Heq.
  pose proof (Z.div_mod a b ltac:(lia)) as Ha.
  pose proof (Z.mod_pos_bound a b Hb) as Hra.
  pose proof (Z.div_mod c e ltac:(lia)) as Hc.
  pose proof (Z.mod_pos_bound c e He) as Hrc.
  rewrite Ha, Hc, (Z.mul_comm b), (Z.mul_comm e), !nearest_even_split by assumption.
  set (q := a / b) in *. set (r := a mod b) in *.
  set (q' := c / e) in *. set (r' := c mod e) in *.
  assert (Hq : q = q').
  { assert (Hd : (q - q') * (b * e) = r' * b - r * e) by nia.
    assert (- (b * e) < r' * b - r * e < b * e) by nia.
    nia. }
  assert (Hr : r * e = r' * b) by nia.
  rewrite <- Hq.
  destruct (Z.ltb_spec (2 * r) b), (Z.ltb_spec (2 * r') e); try reflexivity; try nia;
    destruct (Z.ltb_spec b (2 * r)), (Z.ltb_spec e (2 * r')); try reflexivity; nia.
Qed.

Lemma no_trailing_zero_app (l k : list Z) :
  no_trailing_zero (l ++ k) -> k <> [] -> no_trailing_zero k.
Proof.
  unfold no_trailing_zero. rewrite rev_app_distr. intros H Hk.
  destruct (rev k) eqn:Hrev; [| exact H].
  apply (f_equal (@rev Z)) in Hrev. rewrite rev_involutive in Hrev. now destruct Hk.
Qed.

Lemma digits_value_positive (k : list Z) :
  Forall digit_byte k -> no_trailing_zero k -> k <> [] -> 0 < digits_value k.
Proof.
  intros Hdig Htrail Hne. destruct (exists_last Hne) as (k0 & z & ->).
  unfold no_trailing_zero in Htrail. rewrite rev_app_distr in Htrail. simpl in Htrail.
  apply Forall_app in Hdig as [Hk0 Hz]. inversion_clear Hz as [| ? ? Hz' _].
  pose proof (digits_value_bound k0 Hk0). rewrite digits_value_app.
  change (digits_value [z]) with (0 * 10 + (z - byte "0")).
  change (Z.of_nat (length [z])) with 1. bytes. lia.
Qed.

(** the loop of [RoundUp] adds one in the last place *)
Lemma round_up_spec (P : list Z) :
  Forall digit_byte P ->
  match round_up (rev P) with
  | Some ds =>
      ds <> [] /\ (length ds <= length P)%nat
      /\ digits_value ds * 10 ^ (Z.of_nat (length P) - Z.of_nat (length ds))
         = digits_value P + 1
      /\ (no_leading_zero P -> no_leading_zero ds)
  | None => digits_value P + 1 = 10 ^ Z.of_nat (length P)
  end.
Proof.
  induction P as [| c P IH] using rev_ind; intros Hdig; [reflexivity |].
  apply Forall_app in Hdig as [HP Hc]. inversion_clear Hc as [| ? ? Hc' _].
  rewrite rev_app_distr. cbn [rev app round_up].
  rewrite digits_value_app, length_app. cbn [length].
  change (digits_value [c]) with (0 * 10 + (c - byte "0")).
  destruct (Z.ltb_spec c (byte "9")) as [Hlt | Hge].
  - cbn [rev]. rewrite rev_involutive. split; [now destruct P |].
    rewrite length_app. cbn [length]. split; [lia |].
    rewrite digits_value_app. change (digits_value [c + 1]) with (0 * 10 + (c + 1 - byte "0")).
    cbn [length]. rewrite Z.sub_diag. split; [lia |].
    destruct P; simpl; [bytes; lia | auto].
  - specialize (IH HP). assert (Hc9 : c = byte "9") by (bytes; lia). subst c.
    change (Z.of_nat 1) with 1. change (10 ^ 1) with 10.
    destruct (round_up (rev P)) as [ds |].
    + destruct IH as (Hne & Hlen & Hval & Hlead). split; [assumption |]. split; [lia |].
      split.
      * replace (Z.of_nat (length P + 1) - Z.of_nat (length ds))
          with (Z.succ (Z.of_nat (length P) - Z.of_nat (length ds))) by lia.
        rewrite Z.pow_succ_r by lia. bytes. lia.
      * intros HPc. apply Hlead. destruct P; [exact I | exact HPc].
    + rewrite Nat2Z.inj_add, Z.pow_add_r by lia. change (10 ^ Z.of_nat 1) with 10.
      bytes. lia.
Qed.

Lemma firstn_length_Z (t : Z) (ds : list Z) :
  0 <= t <= Z.of_nat (length ds) -> Z.of_nat (length (firstn (Z.to_nat t) ds)) = t.
Proof. intros H. rewrite length_firstn. lia. Qed.

(** [RoundDown] at the second decimal: the hundredths, cut off *)
Lemma RoundDown_money (neg : bool) (a : decimal) :
  Forall digit_byte (d a) -> no_leading_zero (d a) -> 0 <= dp a + 2 < nd a ->
  fmtF neg (RoundDown a (dp a + 2)) 2
  = (if neg then "-" else EmptyString)
    +:+ money (digits_value (firstn (Z.to_nat (dp a + 2)) (d a))).
Proof.
  intros Hdig Hlead Ht. unfold RoundDown.
  destruct (Z.ltb_spec (dp a + 2) 0); [lia |].
  destruct (Z.leb_spec (nd a) (dp a + 2)); [lia |]. cbn [orb].
  set (P := firstn (Z.to_nat (dp a + 2)) (d a)).
  set (b := Decimal P (dp a)).
  assert (HP : Forall digit_byte P) by now apply Forall_take.
  assert (Hlen : nd b = dp a + 2).
  { unfold nd, b, P. cbn [d]. apply firstn_length_Z. unfold nd in Ht. lia. }
  destruct (trim_spec b) as (_ & _ & _ & Hdp & Hnil).
  destruct (trim_value b) as (j & Hnd & Hval).
  rewrite fmtF_money.
  - f_equal. f_equal. change P with (d b). rewrite Hval.
    destruct (d (trim b)) as [| c l] eqn:Hd.
    + unfold digits_value. simpl. lia.
    + rewrite Hdp by discriminate. cbn [dp b].
      replace (dp a - nd (trim b) + 2) with (Z.of_nat j) by lia. reflexivity.
  - now apply trim_digit.
  - apply trim_no_leading_zero. now apply firstn_no_leading_zero.
  - assumption.
  - destruct (d (trim b)) as [| c l] eqn:Hd.
    + rewrite Hnil by reflexivity. unfold nd. rewrite Hd. simpl. lia.
    + rewrite Hdp by discriminate. cbn [dp b]. lia.
Qed.

(** [RoundUp] at the second decimal: one hundredth more *)
Lemma RoundUp_money (neg : bool) (a : decimal) :
  Forall digit_byte (d a) -> no_leading_zero (d a) -> 0 <= dp a + 2 < nd a ->
  fmtF neg (RoundUp a (dp a + 2)) 2
  = (if neg then "-" else EmptyString)
    +:+ money (digits_value (firstn (Z.to_nat (dp a + 2)) (d a)) + 1).
Proof.
  intros Hdig Hlead Ht. unfold RoundUp.
  destruct (Z.ltb_spec (dp a + 2) 0); [lia |].
  destruct (Z.leb_spec (nd a) (dp a + 2)); [lia |]. cbn [orb].
  set (P := firstn (Z.to_nat (dp a + 2)) (d a)).
  assert (HP : Forall digit_byte P) by now apply Forall_take.
  assert (Hlen : Z.of_nat (length P) = dp a + 2).
  { apply firstn_length_Z. unfold nd in Ht. lia. }
  pose proof (round_up_spec P HP) as Hup.
  pose proof (round_up_digit (rev P) (Forall_rev HP)) as Hupdig.
  destruct (round_up (rev P)) as [ds |].
  - destruct Hup as (Hne & Hle & Hval & Hlead').
    rewrite fmtF_money; unfold nd; cbn [d dp].
    + f_equal. f_equal. rewrite <- Hval. f_equal. f_equal. lia.
    + now apply Hupdig.
    + apply Hlead'. now apply firstn_no_leading_zero.
    + intros Hds. now destruct Hne.
    + lia.
  - rewrite fmtF_money; unfold nd; cbn [d dp length].
    + f_equal. f_equal. rewrite Hup, Hlen.
      change (digits_value [byte "1"]) with 1. rewrite Z.mul_1_l. f_equal. lia.
    + constructor; [bytes; lia | constructor].
    + simpl. discriminate.
    + discriminate.
    + lia.
Qed.

(** [shouldRoundUp] decides for the nearest number, the even one half way *)
Lemma shouldRoundUp_split (P S : list Z) (c p : Z) :
  Forall digit_byte (P ++ c :: S) -> no_trailing_zero (P ++ c :: S) ->
  nearest_even (digits_value (P ++ c :: S)) (10 ^ Z.of_nat (length (c :: S)))
  = digits_value P
    + (if shouldRoundUp (Decimal (P ++ c :: S) p) (Z.of_nat (length P)) then 1 else 0).
Proof.
  intros Hdig Htrail. unfold shouldRoundUp, nd, digit_at. cbn [d].
  rewrite length_app. cbn [length].
  destruct (Z.ltb_spec (Z.of_nat (length P)) 0); [lia |].
  destruct (Z.leb_spec (Z.of_nat (length P + Datatypes.S (length S))) (Z.of_nat (length P)));
    [lia |].
  cbn [orb]. rewrite Nat2Z.id, nth_middle.
  pose proof Hdig as Hdig'. apply Forall_app in Hdig' as [HP HcS].
  pose proof (digits_value_bound _ HcS) as HboundS. cbn [length] in HboundS.
  rewrite digits_value_app. cbn [length].
  rewrite nearest_even_split by exact HboundS.
  inversion HcS as [| ? ? Hc HS]; subst.
  pose proof (digits_value_bound _ HS) as Hbound.
  rewrite digits_value_cons in *.
  rewrite Nat2Z.inj_succ, Z.pow_succ_r in * by lia.
  set (T := 10 ^ Z.of_nat (length S)) in *. set (v := digits_value S) in *.
  assert (Hlast : 0 < v \/ T = 1 /\ v = 0 /\ c <> byte "0" /\ S = []).
  { destruct S as [| c' S'].
    - right. repeat split; try reflexivity.
      unfold no_trailing_zero in Htrail. rewrite rev_app_distr in Htrail. exact Htrail.
    - left. apply digits_value_positive; [assumption | | discriminate].
      apply (no_trailing_zero_app (P ++ [c])); [| discriminate].
      now rewrite <- app_assoc. }
  destruct (Z.eqb_spec c (byte "5")) as [Hc5 | Hc5]; cbn [andb].
  - destruct (Z.eqb_spec (Z.of_nat (length P) + 1)
                (Z.of_nat (length P + Datatypes.S (length S)))) as [Hend | Hend].
    + assert (HS0 : S = []) by (destruct S; [reflexivity | simpl in Hend; lia]).
      subst S c. change T with 1. change v with 0. bytes.
      change (2 * ((53 - 48) * 1 + 0) <? 10 * 1) with false.
      change (10 * 1 <? 2 * ((53 - 48) * 1 + 0)) with false. cbv iota.
      destruct P as [| z P0 _] using rev_ind; [reflexivity |].
      rewrite length_app. cbn [length].
      destruct (Z.ltb_spec 0 (Z.of_nat (length P0 + 1))); [| lia]. cbn [andb].
      replace (Z.to_nat (Z.of_nat (length P0 + 1) - 1)) with (length P0) by lia.
      rewrite <- app_assoc. cbn [app]. rewrite nth_middle.
      rewrite digits_value_app. cbn [length]. change (Z.of_nat 1) with 1.
      change (10 ^ 1) with 10. change (digits_value [z]) with (0 * 10 + (z - byte "0")).
      bytes.
      replace (digits_value P0 * 10 + (0 * 10 + (z - 48)))
        with (z - 48 + 2 * (5 * digits_value P0)) by lia.
      rewrite Z.even_add_mul_2, Zmod_even.
      destruct (Z.even (z - 48)); cbn [Z.eqb negb]; lia.
    + assert (HS0 : S <> []) by (intros ->; simpl in Hend; lia).
      destruct Hlast as [Hv | (_ & _ & _ & Hnil)]; [| contradiction].
      subst c. bytes. change (53 <=? 53) with true.
      destruct (Z.ltb_spec (2 * ((53 - 48) * T + v)) (10 * T)); [lia |].
      destruct (Z.ltb_spec (10 * T) (2 * ((53 - 48) * T + v))); [reflexivity | lia].
  - assert (HT : 0 < T) by (apply Z.pow_pos_nonneg; lia). bytes.
    destruct (Z.leb_spec 53 c).
    + destruct (Z.ltb_spec (2 * ((c - 48) * T + v)) (10 * T)); [nia |].
      destruct (Z.ltb_spec (10 * T) (2 * ((c - 48) * T + v))); [reflexivity | nia].
    + destruct (Z.ltb_spec (2 * ((c - 48) * T + v)) (10 * T)); [lia | nia].
Qed.

Lemma shouldRoundUp_spec (a : decimal) (t : Z) :
  Forall digit_byte (d a) -> no_trailing_zero (d a) -> 0 <= t < nd a ->
  nearest_even (digits_value (d a)) (10 ^ (nd a - t))
  = digits_value (firstn (Z.to_nat t) (d a)) + (if shouldRoundUp a t then 1 else 0).
Proof.
  destruct a as [ds p]. unfold nd. cbn [d]. intros Hdig Htrail Ht.
  pose proof (firstn_skipn (Z.to_nat t) ds) as Hsplit.
  pose proof (firstn_length_Z t ds ltac:(lia)) as HlenP.
  pose proof (length_skipn (Z.to_nat t) ds) as HlenS.
  remember (firstn (Z.to_nat t) ds) as P eqn:HP. clear HP.
  destruct (skipn (Z.to_nat t) ds) as [| c S]; [simpl in HlenS; lia |].
  subst ds t. rewrite <- (shouldRoundUp_split P S c p) by assumption.
  f_equal. f_equal. rewrite length_app in *. cbn [length] in *. lia.
Qed.

(** [Round] at the second decimal, then [%f]: the nearest number of
    hundredths *)
Lemma Round_money (neg : bool) (a : decimal) :
  Forall digit_byte (d a) -> no_leading_zero (d a) -> no_trailing_zero (d a) ->
  dp a + 2 < nd a ->
  fmtF neg (Round a (dp a + 2)) 2
  = (if neg then "-" else EmptyString)
    +:+ money (nearest_even (digits_value (d a)) (10 ^ (nd a - (dp a + 2)))).
Proof.
  intros Hdig Hlead Htrail Ht. unfold Round.
  destruct (Z.ltb_spec (dp a + 2) 0) as [Hneg | Hpos].
  - cbn [orb]. rewrite fmtF_parts, nearest_even_small.
    + destruct (Z.ltb_spec 0 (dp a)); [lia |].
      destruct (Z.leb_spec 0 (dp a)); [lia |].
      destruct (Z.leb_spec 0 (dp a + 1)); [lia |]. reflexivity.
    + apply digits_value_bound, Hdig.
    + pose proof (digits_value_bound _ Hdig) as Hbound. fold (nd a) in Hbound.
      assert (0 <= nd a) by (unfold nd; lia).
      replace (nd a - (dp a + 2)) with (nd a + - (dp a + 2)) by lia.
      rewrite Z.pow_add_r by lia.
      assert (10 ^ 1 <= 10 ^ (- (dp a + 2))) by (apply Z.pow_le_mono_r; lia).
      change (10 ^ 1) with 10 in *. nia.
  - destruct (Z.leb_spec (nd a) (dp a + 2)); [lia |]. cbn [orb].
    rewrite shouldRoundUp_spec by (assumption || lia).
    destruct (shouldRoundUp a (dp a + 2)).
    + now apply RoundUp_money.
    + rewrite Z.add_0_r. now apply RoundDown_money.
Qed.

(** X25.  strconv.FormatFloat(f, 'f', 2, 64), as GetBalanceHandler calls it,
    writes the float [m * 2^e] rounded to the nearest number of hundredths,
    the even one when the float is half way between two: the sign, the
    integer part without leading zeros, the point and two decimals.  The
    rounding is on the exact decimal expansion of the float: the digits of
    a float64 fit the buffer of decimal.go, and the model keeps them all. *)
Theorem FormatFloat_nearest_hundredths (neg : bool) (m : positive) (e : Z) :
  FormatFloat (S754_finite neg m e) 2
  = (if neg then "-" else EmptyString) +:+ money (hundredths (Z.pos m) e).
Proof.
  unfold FormatFloat, bigFtoa, hundredths. cbv zeta.
  destruct (canonical_Shift (Z.pos m) e ltac:(lia)) as (Hdig & Hlead & Htrail & Hne & Hs).
  set (a := Shift (Assign (Z.pos m)) e) in *.
  assert (Hnil : d a = [] -> dp a = 0) by (intros H; now destruct Hne).
  assert (Hround : nd a <= dp a + 2 -> Round a (dp a + 2) = a).
  { intros H. unfold Round. destruct (Z.leb_spec (nd a) (dp a + 2)); [| lia].
    now rewrite orb_true_r. }
  destruct (Z.leb_spec 0 e) as [He | He].
  - destruct Hs as [Hs HA]. rewrite Hround by lia.
    rewrite fmtF_money by (assumption || lia). f_equal. f_equal.
    rewrite <- HA. replace (dp a - nd a + 2) with (dp a - nd a + 0 + 2) by lia.
    rewrite (Z.pow_add_r _ _ 2) by lia. change (10 ^ 2) with 100. ring.
  - destruct Hs as [Hs HA]. set (k := - e) in *.
    assert (H5 : 0 < 5 ^ k) by (apply Z.pow_pos_nonneg; lia).
    assert (H2 : 0 < 2 ^ k) by (apply Z.pow_pos_nonneg; lia).
    assert (H10 : 10 ^ k = 2 ^ k * 5 ^ k) by (now rewrite <- Z.pow_mul_l).
    destruct (Z.le_gt_cases (nd a) (dp a + 2)) as [Hle | Hgt].
    + rewrite Hround by lia. rewrite fmtF_money by (assumption || lia). f_equal. f_equal.
      set (h := digits_value (d a) * 10 ^ (dp a - nd a + 2)).
      assert (Hh : Z.pos m * 100 = h * 2 ^ k).
      { apply (Z.mul_reg_r _ _ (5 ^ k)); [lia |]. unfold h.
        assert (Hpow : 10 ^ (dp a - nd a + 2) * 10 ^ k = 10 ^ (dp a - nd a + k) * 100).
        { change 100 with (10 ^ 2). rewrite <- !Z.pow_add_r by lia. f_equal. lia. }
        transitivity (digits_value (d a) * 10 ^ (dp a - nd a + k) * 100);
          [rewrite HA; ring | rewrite <- Z.mul_assoc, <- Hpow, H10; ring]. }
      rewrite Hh. symmetry. now apply nearest_even_exact.
    + rewrite Round_money by (assumption || lia). f_equal. f_equal.
      set (j := nd a - (dp a + 2)).
      assert (H10j : 0 < 10 ^ j) by (apply Z.pow_pos_nonneg; lia).
      apply nearest_even_ratio; try assumption.
      apply (Z.mul_reg_r _ _ (5 ^ k)); [lia |].
      assert (Hpow : 10 ^ k = 10 ^ (dp a - nd a + k) * (10 ^ j * 100)).
      { change 100 with (10 ^ 2). rewrite <- !Z.pow_add_r by lia. f_equal. lia. }
      transitivity (digits_value (d a) * 10 ^ (dp a - nd a + k) * (10 ^ j * 100));
        [| rewrite HA; ring].
      rewrite <- (Z.mul_assoc (digits_value (d a)) (10 ^ (dp a - nd a + k))), <- Hpow, H10.
      ring.
Qed.
